(** * SIOCOM invoice extractors: a shallow embedding of [data_extractor.py]

    The repository holds two pipelines, [air-e] and [ESSA].  Each reads the
    text of one invoice and fills a dictionary of sections with the captures
    of a fixed catalogue of regular expressions ([DataExtractor]), after
    [main] has checked that there is a text at all.

    Layout of this file
    - code points, character classes and Python's string helpers;
    - binary64 numbers ([float], [int]) on the IEEE 754 datum [spec_float];
    - the regular expressions of Python's [re]: syntax, parser, a
      backtracking matcher, [re.search], [re.match], [re.findall];
    - the two extractors, one module per family, method by method;
    - [main] of both families;
    - [PDFReader] of [air-e/pdf_reader.py]: the cleaning of a page and the
      choice of the library, with [str.join] and [re.sub];
    - the properties.

    A text is a [string] whose characters are read as Unicode code points
    below 256 (Latin-1, which has every letter of the Spanish invoices);
    [py] turns a literal of this file, which is UTF-8, into such a string. *)

From Stdlib Require Import ZArith NArith List Ascii String Lia Bool.
From Stdlib Require Import Permutation.
From Stdlib Require Import Floats.SpecFloat.
From stdpp Require Import base option list gmap strings.

Import ListNotations.
Local Open Scope string_scope.
Local Open Scope list_scope.

(** ** Code points *)

Definition code (c : ascii) : N := N_of_ascii c.

Definition between (lo hi x : N) : bool := ((lo <=? x) && (x <=? hi))%N.

(** [str.isdecimal], [str.isspace] and [str.isalnum] on the code points
    below 256; they are what [\d], [\s] and [\w] test. *)
Definition is_digit (x : N) : bool := between 48 57 x.

Definition is_space (x : N) : bool :=
  between 9 13 x || between 28 32 x || (x =? 133)%N || (x =? 160)%N.

Definition is_alnum (x : N) : bool :=
  is_digit x || between 65 90 x || between 97 122 x
  || (x =? 170)%N || (x =? 178)%N || (x =? 179)%N || (x =? 181)%N
  || (x =? 185)%N || (x =? 186)%N || between 188 190 x
  || between 192 214 x || between 216 246 x || between 248 255 x.

Definition is_word (x : N) : bool := is_alnum x || (x =? 95)%N.

(** Simple lower-case mapping, as [re.IGNORECASE] applies it. *)
Definition to_lower (x : N) : N :=
  if between 65 90 x || (between 192 222 x && negb (x =? 215)%N)
  then (x + 32)%N else x.

Definition newline : ascii := ascii_of_N 10.

(** ** Literals of this file

    A literal is stored as UTF-8.  [py] decodes the two-byte sequences that
    stand for the code points 128 to 255 and leaves the rest as it is. *)
Fixpoint latin1_of_utf8 (l : list ascii) : list ascii :=
  match l with
  | a :: l1 =>
      match l1 with
      | b :: l2 =>
          if between 194 195 (code a) && between 128 191 (code b)
          then ascii_of_N ((code a - 192) * 64 + (code b - 128)) :: latin1_of_utf8 l2
          else a :: latin1_of_utf8 l1
      | [] => [a]
      end
  | [] => []
  end.

Definition py (s : string) : string :=
  string_of_list_ascii (latin1_of_utf8 (list_ascii_of_string s)).

(** [latin1 "..."] is [py "..."] computed once, where the constant is
    defined. *)
Notation "'latin1' s" :=
  (ltac:(let v := eval vm_compute in (py s) in exact v)) (at level 10, only parsing).

(** ** Python's string helpers *)

Definition chars (s : string) : list ascii := list_ascii_of_string s.
Definition str (l : list ascii) : string := string_of_list_ascii l.

Definition space_char (c : ascii) : bool := is_space (code c).
Definition digit_char (c : ascii) : bool := is_digit (code c).

Fixpoint drop_while (p : ascii -> bool) (l : list ascii) : list ascii :=
  match l with
  | c :: t => if p c then drop_while p t else l
  | [] => []
  end.

Fixpoint take_while (p : ascii -> bool) (l : list ascii) : list ascii :=
  match l with
  | c :: t => if p c then c :: take_while p t else []
  | [] => []
  end.

(** [s.strip()] *)
Definition py_strip (s : string) : string :=
  str (rev (drop_while space_char (rev (drop_while space_char (chars s))))).

Fixpoint starts_with (p l : list ascii) : bool :=
  match p, l with
  | [], _ => true
  | a :: p', b :: l' => if ascii_dec a b then starts_with p' l' else false
  | _ :: _, [] => false
  end.

(** [s.replace(old, new)] for a non-empty [old]: the occurrences are taken
    from the left and do not overlap; [skip] counts the characters of the
    occurrence that is being replaced. *)
Fixpoint replace_from (old new : list ascii) (skip : nat) (l : list ascii) : list ascii :=
  match l with
  | [] => []
  | c :: t =>
      match skip with
      | S k => replace_from old new k t
      | O =>
          if starts_with old l
          then new ++ replace_from old new (length old - 1) t
          else c :: replace_from old new 0 t
      end
  end.

Definition py_replace (old new s : string) : string :=
  str (replace_from (chars old) (chars new) 0 (chars s)).

(** [s.split('\n')] *)
Fixpoint split_lines (cur : list ascii) (l : list ascii) : list string :=
  match l with
  | [] => [str (rev cur)]
  | c :: t =>
      if ascii_dec c newline then str (rev cur) :: split_lines [] t
      else split_lines (c :: cur) t
  end.

Definition py_split_nl (s : string) : list string := split_lines [] (chars s).

(** [sub in s] *)
Fixpoint contains_from (sub l : list ascii) : bool :=
  starts_with sub l ||
  match l with
  | [] => false
  | _ :: t => contains_from sub t
  end.

Definition py_in (sub s : string) : bool := contains_from (chars sub) (chars s).

(** [s.upper()], on the characters whose capital is again below 256 (the
    only call site applies it to letters [A-Za-z], white space, [_] and
    [-]). *)
Definition to_upper (x : N) : N :=
  if between 97 122 x || (between 224 254 x && negb (x =? 247)%N)
  then (x - 32)%N else x.

Definition py_upper (s : string) : string :=
  str (map (fun c => ascii_of_N (to_upper (code c))) (chars s)).

(** [not s] for a string, [not l] for a list *)
Definition str_empty (s : string) : bool :=
  match s with EmptyString => true | _ => false end.

Definition list_empty {A} (l : list A) : bool :=
  match l with [] => true | _ => false end.

(** ** Numbers

    A Python [float] is an IEEE 754 binary64 number: [spec_float] at
    precision 53 and maximal exponent 1024, with the operations of the
    standard library's specification of floating-point arithmetic. *)

Definition prec : Z := 53.
Definition emax : Z := 1024.

Definition float : Type := spec_float.

(** [float(n)] for an [int] *)
Definition float_of_Z (n : Z) : float := binary_normalize prec emax n 0 false.

(** The binary64 number nearest to [p / q] (ties to even), [0 <= p], [0 < q]. *)
Definition float_of_ratio (neg : bool) (p q : Z) : float :=
  match p with
  | Z0 => S754_zero neg
  | _ =>
      let '(mz, ez, lz) := SFdiv_core_binary prec emax p 0 q 0 in
      binary_round_aux prec emax neg mz ez lz
  end.

Definition fadd : float -> float -> float := SFadd prec emax.
Definition fdiv : float -> float -> float := SFdiv prec emax.
Definition flt : float -> float -> bool := SFltb.
Definition fle : float -> float -> bool := SFleb.

Definition digit_value (c : ascii) : Z := Z.of_N (code c) - 48.

Definition digits_value (l : list ascii) : Z :=
  fold_left (fun acc c => 10 * acc + digit_value c)%Z l 0%Z.

(** The integer that a numeral, a string of decimal digits, stands for. *)
Definition entero_de (s : string) : option Z :=
  let l := chars s in
  if forallb digit_char l && negb (list_empty l) then Some (digits_value l) else None.

(** [int(s)] on a string of decimal digits; [None] stands for [ValueError],
    which [int] also raises on a numeral of more than
    [sys.get_int_max_str_digits()] digits, 4300 unless the interpreter was
    started with another limit; leading zeros count. *)
Definition max_str_digits : Z := 4300.

Definition py_int (s : string) : option Z :=
  if (Z.of_nat (length (chars s)) <=? max_str_digits)%Z then entero_de s else None.

(** [float(s)] on a string of digits, at most one point and at most one
    leading sign, the only characters that the captures of the catalogue
    hand to it; [None] stands for [ValueError].  Python reads the decimal
    numeral and rounds it once, to the nearest binary64 number. *)
Definition py_float (s : string) : option float :=
  let l := chars s in
  let '(neg, l1) :=
    match l with
    | "-"%char :: t => (true, t)
    | "+"%char :: t => (false, t)
    | _ => (false, l)
    end in
  let ip := take_while digit_char l1 in
  match drop_while digit_char l1 with
  | [] =>
      if list_empty ip then None
      else Some (float_of_ratio neg (digits_value ip) 1)
  | "."%char :: l3 =>
      let fp := take_while digit_char l3 in
      match drop_while digit_char l3 with
      | [] =>
          if list_empty ip && list_empty fp then None
          else Some (float_of_ratio neg (digits_value (ip ++ fp))
                       (10 ^ Z.of_nat (length fp)))
      | _ :: _ => None
      end
  | _ :: _ => None
  end.

(** [max(l)] and [min(l)] keep the first extremum: a later item replaces
    the current one only when it compares strictly greater (smaller). *)
Definition py_max (x : float) (l : list float) : float :=
  fold_left (fun m v => if flt m v then v else m) l x.

Definition py_min (x : float) (l : list float) : float :=
  fold_left (fun m v => if flt v m then v else m) l x.

(** [sum(l)]: from [0], one addition per item, left to right.  (CPython
    3.12 and later carry a compensation term along the float sum; it is
    zero wherever the partial sums are exact.) *)
Definition py_sum (l : list float) : float :=
  fold_left fadd l (float_of_Z 0).

(** ** Regular expressions

    The patterns are kept as the source writes them and parsed by
    [re_compile]; the syntax tree has what the catalogue uses of Python's
    [re]: literals, [.], sets with ranges and the classes [\d \s \w],
    concatenation, alternation, greedy and lazy repetition, capturing and
    non-capturing groups, one look-ahead, [^] and [$]. *)

Inductive category := Digit | Space | Word.

Inductive citem :=
  | CLit (c : ascii)
  | CRange (lo hi : ascii)
  | CCat (k : category).

Inductive regex :=
  | Eps
  | Lit (c : ascii)
  | Dot
  | Set_ (neg : bool) (items : list citem)
  | Cat (a b : regex)
  | Alt (a b : regex)
  | Rep (lo : nat) (hi : option nat) (greedy : bool) (a : regex)
  | Grp (i : nat) (a : regex)
  | Look (a : regex)
  | Bol
  | Eol.

(** A set without items matches nothing: it stands for a pattern that
    [re.compile] would refuse. *)
Definition Never : regex := Set_ false [].

(** *** Parser *)

Definition punctuation (c : ascii) : bool := negb (is_alnum (code c)).

(** What a backslash escape means, inside and outside a set. *)
Definition escape_item (c : ascii) : option citem :=
  if ascii_dec c "d" then Some (CCat Digit)
  else if ascii_dec c "s" then Some (CCat Space)
  else if ascii_dec c "w" then Some (CCat Word)
  else if ascii_dec c "n" then Some (CLit newline)
  else if punctuation c then Some (CLit c)
  else None.

Definition item_regex (i : citem) : regex :=
  match i with
  | CLit c => Lit c
  | _ => Set_ false [i]
  end.

(** The items of a set, up to its closing bracket. *)
Fixpoint parse_items (fuel : nat) (s : list ascii) : option (list citem * list ascii) :=
  match fuel with
  | O => None
  | S fuel' =>
      match s with
      | [] => None
      | "]"%char :: s' => Some ([], s')
      | "\"%char :: c :: s' =>
          i ← escape_item c;
          '(its, s'') ← parse_items fuel' s';
          Some (i :: its, s'')
      | a :: "-"%char :: b :: s' =>
          if ascii_dec b "]" then
            Some ([CLit a; CLit "-"], s')
          else
            '(its, s'') ← parse_items fuel' s';
            Some (CRange a b :: its, s'')
      | a :: s' =>
          '(its, s'') ← parse_items fuel' s';
          Some (CLit a :: its, s'')
      end
  end.

Definition parse_number (s : list ascii) : option (nat * list ascii) :=
  let ds := take_while digit_char s in
  if list_empty ds then None
  else Some (Z.to_nat (digits_value ds), drop_while digit_char s).

(** A quantifier: bounds and the rest of the pattern. *)
Definition parse_bounds (s : list ascii) : option (nat * option nat * list ascii) :=
  match s with
  | "*"%char :: s' => Some (0, None, s')
  | "+"%char :: s' => Some (1, None, s')
  | "?"%char :: s' => Some (0, Some 1, s')
  | "{"%char :: s' =>
      match parse_number s' with
      | Some (lo, "}"%char :: s'') => Some (lo, Some lo, s'')
      | Some (lo, ","%char :: "}"%char :: s'') => Some (lo, None, s'')
      | Some (lo, ","%char :: s'') =>
          match parse_number s'' with
          | Some (hi, "}"%char :: s3) => Some (lo, Some hi, s3)
          | _ => None
          end
      | _ => None
      end
  | _ => None
  end.

Definition quantified (a : regex) (s : list ascii) : regex * list ascii :=
  match parse_bounds s with
  | Some (lo, hi, "?"%char :: s') => (Rep lo hi false a, s')
  | Some (lo, hi, s') => (Rep lo hi true a, s')
  | None => (a, s)
  end.

Definition expect_close {A} (x : A) (s : list ascii) : option (A * list ascii) :=
  match s with
  | ")"%char :: s' => Some (x, s')
  | _ => None
  end.

(** [parse_alt fuel g s]: an alternation at the head of [s], [g] groups
    having been opened before it; the result carries the number of groups
    opened so far and the rest of the pattern. *)
Fixpoint parse_alt (fuel : nat) (g : nat) (s : list ascii) {struct fuel}
  : option (regex * nat * list ascii) :=
  match fuel with
  | O => None
  | S fuel' =>
      '(a, g1, s1) ← parse_seq fuel' g s;
      match s1 with
      | "|"%char :: s2 =>
          '(b, g2, s3) ← parse_alt fuel' g1 s2;
          Some (Alt a b, g2, s3)
      | _ => Some (a, g1, s1)
      end
  end
with parse_seq (fuel : nat) (g : nat) (s : list ascii) {struct fuel}
  : option (regex * nat * list ascii) :=
  match fuel with
  | O => None
  | S fuel' =>
      match s with
      | [] => Some (Eps, g, s)
      | "|"%char :: _ => Some (Eps, g, s)
      | ")"%char :: _ => Some (Eps, g, s)
      | _ =>
          '(a, g1, s1) ← parse_atom fuel' g s;
          let '(a', s2) := quantified a s1 in
          '(b, g2, s3) ← parse_seq fuel' g1 s2;
          Some (match b with Eps => a' | _ => Cat a' b end, g2, s3)
      end
  end
with parse_atom (fuel : nat) (g : nat) (s : list ascii) {struct fuel}
  : option (regex * nat * list ascii) :=
  match fuel with
  | O => None
  | S fuel' =>
      match s with
      | "("%char :: "?"%char :: ":"%char :: s' =>
          '(a, g1, s1) ← parse_alt fuel' g s';
          '(a, s2) ← expect_close a s1;
          Some (a, g1, s2)
      | "("%char :: "?"%char :: "="%char :: s' =>
          '(a, g1, s1) ← parse_alt fuel' g s';
          '(a, s2) ← expect_close a s1;
          Some (Look a, g1, s2)
      | "("%char :: "?"%char :: _ => None
      | "("%char :: s' =>
          '(a, g1, s1) ← parse_alt fuel' (S g) s';
          '(a, s2) ← expect_close a s1;
          Some (Grp (S g) a, g1, s2)
      | "["%char :: "^"%char :: s' =>
          '(its, s1) ← parse_items (length s') s';
          Some (Set_ true its, g, s1)
      | "["%char :: s' =>
          '(its, s1) ← parse_items (length s') s';
          Some (Set_ false its, g, s1)
      | "\"%char :: c :: s' =>
          i ← escape_item c;
          Some (item_regex i, g, s')
      | "."%char :: s' => Some (Dot, g, s')
      | "^"%char :: s' => Some (Bol, g, s')
      | "$"%char :: s' => Some (Eol, g, s')
      | "*"%char :: _ | "+"%char :: _ | "?"%char :: _
      | "{"%char :: _ | "\"%char :: _ => None
      | c :: s' => Some (Lit c, g, s')
      | [] => None
      end
  end.

(** [re.compile(pattern)]: the tree and the number of its groups. *)
Definition re_parse (pattern : string) : option (regex * nat) :=
  let s := chars pattern in
  match parse_alt (3 * length s + 3) 0 s with
  | Some (a, g, []) => Some (a, g)
  | _ => None
  end.

Definition re_compile (pattern : string) : regex * nat :=
  match re_parse pattern with
  | Some x => x
  | None => (Never, 0)
  end.

(** *** Matcher

    A backtracking matcher in continuation-passing style: the alternatives
    are tried in the order of [re] (left branch first, one more repetition
    first when greedy, one fewer first when lazy) and the first complete
    match is the result. *)

Record flags := { ignorecase : bool; dotall : bool }.

Definition no_flags : flags := {| ignorecase := false; dotall := false |}.
Definition IGNORECASE : flags := {| ignorecase := true; dotall := false |}.
Definition DOTALL_IGNORECASE : flags := {| ignorecase := true; dotall := true |}.

Definition fold_case (fl : flags) (x : N) : N :=
  if ignorecase fl then to_lower x else x.

Definition category_ok (k : category) (x : N) : bool :=
  match k with
  | Digit => is_digit x
  | Space => is_space x
  | Word => is_word x
  end.

(** Under [IGNORECASE] the items of a set are lower-cased when the pattern
    is compiled and the character when it is tested. *)
Definition item_ok (fl : flags) (x : N) (i : citem) : bool :=
  match i with
  | CLit c => (fold_case fl (code c) =? x)%N
  | CRange lo hi =>
      if ignorecase fl
      then existsb (fun y => (to_lower y =? x)%N)
             (map N.of_nat (seq (N.to_nat (code lo)) (S (N.to_nat (code hi)) - N.to_nat (code lo))))
      else between (code lo) (code hi) x
  | CCat k => category_ok k x
  end.

Definition set_ok (fl : flags) (neg : bool) (items : list citem) (c : ascii) : bool :=
  xorb neg (existsb (item_ok fl (fold_case fl (code c))) items).

Definition lit_ok (fl : flags) (l c : ascii) : bool :=
  (fold_case fl (code l) =? fold_case fl (code c))%N.

Definition dot_ok (fl : flags) (c : ascii) : bool :=
  dotall fl || negb (code c =? 10)%N.

(** The state of a match in progress: the position, the text from there
    on, and the captures so far ([None]: the group has not taken part). *)
Record mstate := {
  pos : nat;
  rest : list ascii;
  caps : list (option string)
}.

Definition cont : Type := mstate -> option mstate.
Definition matcher : Type := cont -> mstate -> option mstate.

Definition m_char (p : ascii -> bool) : matcher := fun k st =>
  match rest st with
  | c :: r =>
      if p c then k {| pos := S (pos st); rest := r; caps := caps st |} else None
  | [] => None
  end.

Definition set_cap (i : nat) (from to : mstate) : mstate :=
  {| pos := pos to; rest := rest to;
     caps := <[i := Some (str (take (pos to - pos from) (rest from)))]> (caps to) |}.

(** Exactly [n] times. *)
Fixpoint m_times (n : nat) (step : matcher) : matcher := fun k =>
  match n with
  | O => k
  | S n' => step (m_times n' step k)
  end.

(** At most [n] more times.  A further repetition has to consume a
    character, which it always does in the patterns of the catalogue (the
    body of every repetition is a character, a set or begins with one). *)
Fixpoint m_upto (greedy : bool) (n : nat) (step : matcher) (k : cont) (st : mstate)
  : option mstate :=
  match n with
  | O => k st
  | S n' =>
      let more :=
        step (fun st' => if (pos st <? pos st')%nat then m_upto greedy n' step k st' else None) st in
      if greedy
      then match more with Some r => Some r | None => k st end
      else match k st with Some r => Some r | None => more end
  end.

Fixpoint exec (fl : flags) (r : regex) (k : cont) (st : mstate) {struct r}
  : option mstate :=
  match r with
  | Eps => k st
  | Lit c => m_char (lit_ok fl c) k st
  | Dot => m_char (dot_ok fl) k st
  | Set_ neg items => m_char (set_ok fl neg items) k st
  | Cat a b => exec fl a (exec fl b k) st
  | Alt a b =>
      match exec fl a k st with
      | Some r => Some r
      | None => exec fl b k st
      end
  | Rep lo hi greedy a =>
      m_times lo (exec fl a)
        (fun st1 =>
           let n := match hi with
                    | Some h => h - lo
                    | None => length (rest st1)
                    end in
           m_upto greedy n (exec fl a) k st1) st
  | Grp i a => exec fl a (fun st' => k (set_cap i st st')) st
  | Look a =>
      match exec fl a Some st with
      | Some st' => k {| pos := pos st; rest := rest st; caps := caps st' |}
      | None => None
      end
  | Bol => if (pos st =? 0)%nat then k st else None
  | Eol =>
      match rest st with
      | [] => k st
      | [c] => if ascii_dec c newline then k st else None
      | _ => None
      end
  end.

(** A match object: [start()], [end()] and the groups, [group(0)] first. *)
Record match_obj := {
  m_start : nat;
  m_end : nat;
  m_groups : list (option string)
}.

(** [m.group(i)].  Every group of the catalogue takes part in every match
    of its pattern, so the answer is a string; the empty string stands for
    a group that did not take part. *)
Definition group (m : match_obj) (i : nat) : string :=
  match m_groups m !! i with
  | Some (Some s) => s
  | _ => ""
  end.

(** The match that starts at position [p], where the text is [l] from
    there on. *)
Definition match_at (fl : flags) (re : regex * nat) (p : nat) (l : list ascii)
  : option match_obj :=
  let st := {| pos := p; rest := l; caps := replicate (S (snd re)) None |} in
  match exec fl (fst re) Some st with
  | Some st' =>
      Some {| m_start := p; m_end := pos st';
              m_groups := <[0 := Some (str (take (pos st' - p) l))]> (caps st') |}
  | None => None
  end.

(** The first match from position [p] on, leftmost start first. *)
Fixpoint search_from (fl : flags) (re : regex * nat) (p : nat) (l : list ascii)
  : option match_obj :=
  match match_at fl re p l with
  | Some m => Some m
  | None =>
      match l with
      | [] => None
      | _ :: l' => search_from fl re (S p) l'
      end
  end.

(** All the matches from the left, none overlapping another: [skip]
    counts the characters that the last match still covers.  After an
    empty match the scan moves one character on (no pattern of the
    catalogue has an empty match). *)
Fixpoint scan (fl : flags) (re : regex * nat) (p : nat) (skip : nat) (l : list ascii)
  : list match_obj :=
  match skip with
  | S k =>
      match l with
      | [] => []
      | _ :: l' => scan fl re (S p) k l'
      end
  | O =>
      match match_at fl re p l with
      | Some m =>
          m :: match l with
               | [] => []
               | _ :: l' => scan fl re (S p) (m_end m - p - 1) l'
               end
      | None =>
          match l with
          | [] => []
          | _ :: l' => scan fl re (S p) 0 l'
          end
      end
  end.

(** [re.search(pattern, text, flags)] *)
Definition re_search (pattern text : string) (fl : flags) : option match_obj :=
  search_from fl (re_compile pattern) 0 (chars text).

(** [re.match(pattern, text)] *)
Definition re_match (pattern text : string) : option match_obj :=
  match_at no_flags (re_compile pattern) 0 (chars text).

(** [re.finditer(pattern, text, flags)] as a list *)
Definition re_finditer (pattern text : string) (fl : flags) : list match_obj :=
  scan fl (re_compile pattern) 0 0 (chars text).

(** [re.findall(pattern, text, flags)] for a pattern with one group, and
    for a pattern without group. *)
Definition re_findall (pattern text : string) (fl : flags) : list string :=
  map (fun m => group m (Nat.min 1 (snd (re_compile pattern))))
      (re_finditer pattern text fl).

(** ** Values, dictionaries, exceptions *)

(** The values that the extractors store under a key. *)
Inductive value :=
  | VStr (s : string)
  | VInt (n : Z)
  | VFloat (f : float)
  | VFloats (l : list float)
  | VSet (ss : gset string).
(** [VSet] is [list(set(matches))]: the distinct matches, in the order in
    which Python happens to iterate the set. *)

(** A section is a dictionary of fields, or, for the billed concepts, a list
    of dictionaries. *)
Inductive section :=
  | Fields (d : gmap string value)
  | Items (l : list (gmap string value)).

(** [not valores], as [main] tests a section before it prints it. *)
Definition section_empty (s : section) : bool :=
  match s with
  | Fields d => bool_decide (d = ∅)
  | Items l => list_empty l
  end.

Inductive exn := ValueError.

Inductive result (A : Type) :=
  | Ok (a : A)
  | Raise (e : exn).
Arguments Ok {A} a.
Arguments Raise {A} e.

#[global] Instance result_ret : MRet result := fun A a => Ok a.
#[global] Instance result_bind : MBind result := fun A B f m =>
  match m with
  | Ok a => f a
  | Raise e => Raise e
  end.

(** [float(s)] and [int(s)] where a failure is not caught. *)
Definition float_ (s : string) : result float :=
  match py_float s with
  | Some v => Ok v
  | None => Raise ValueError
  end.

Definition int_ (s : string) : result Z :=
  match py_int s with
  | Some n => Ok n
  | None => Raise ValueError
  end.

(** A loop that appends to a list and stops at the first exception. *)
Fixpoint for_each {A B} (f : A -> list B -> result (list B)) (l : list A) (acc : list B)
  : result (list B) :=
  match l with
  | [] => Ok acc
  | x :: l' => acc' ← f x acc; for_each f l' acc'
  end.

(** [if match: ...] around an assignment that cannot fail, and around one
    that can. *)
Definition if_match {A} (m : option match_obj) (f : match_obj -> A -> A) (a : A) : A :=
  match m with
  | Some x => f x a
  | None => a
  end.

Definition if_match_r {A} (m : option match_obj) (f : match_obj -> A -> result A) (a : A)
  : result A :=
  match m with
  | Some x => f x a
  | None => Ok a
  end.

(** The four statistics of [extraer_totales], assigned the same way in
    both files, for the values [v :: vs]. *)
Definition con_estadisticas (v : float) (vs : list float) (totales : gmap string value)
  : gmap string value :=
  let valores := v :: vs in
  <["promedio_valores" :=
      VFloat (fdiv (py_sum valores) (float_of_Z (Z.of_nat (length valores))))]>
    (<["valor_minimo" := VFloat (py_min v vs)]>
    (<["valor_maximo" := VFloat (py_max v vs)]>
    (<["valores_encontrados" := VFloats valores]> totales))).

(** [matches[-1]] of a non-empty list *)
Definition last_of (l : list string) : string := List.last l "".

(** [matches[0]] of a non-empty list *)
Definition first_of (l : list string) : string := List.hd "" l.

(** ** [ESSA/data_extractor.py] *)

Module ESSA.

(** *** [extraer_informacion_general] *)

Definition patron_factura := latin1 "FACTURA\s+ELECTRÓNICA\s+DE\s+VENTA\s+(\w+)".
Definition patron_cufe := "CUFE:\s*([a-f0-9]+)".
Definition patron_resolucion :=
  latin1 "Resolución\s+DIAN:?\s*Autorización\s+número\s+([\d]+)\s+DEL\s+([\d-]+)".
Definition patron_rango := "RANGO\s+(\d+)\s+HASTA\s+LA\s+(\d+)".
Definition patron_total := "TOTAL\s+A\s+PAGAR\s+[\$]?\s*([\d,]+)".

Definition extraer_informacion_general (texto : string) : result (gmap string value) :=
  let info : gmap string value := ∅ in
  let info := if_match (re_search patron_factura texto no_flags)
    (fun m => <["numero_factura" := VStr (group m 1)]>) info in
  let info := if_match (re_search patron_cufe texto IGNORECASE)
    (fun m => <["cufe" := VStr (group m 1)]>) info in
  let info := if_match (re_search patron_resolucion texto IGNORECASE)
    (fun m info =>
       <["fecha_resolucion" := VStr (group m 2)]>
         (<["resolucion_dian" := VStr (group m 1)]> info)) info in
  let info := if_match (re_search patron_rango texto no_flags)
    (fun m info =>
       <["rango_hasta" := VStr (group m 2)]>
         (<["rango_desde" := VStr (group m 1)]> info)) info in
  let matches := re_findall patron_total texto IGNORECASE in
  info ←
    (if list_empty matches then Ok info
     else
       v ← float_ (py_replace "," "" (last_of matches));
       Ok (<["total_pagar" := VFloat v]> info));
  Ok info.

(** *** [extraer_datos_comercializador] *)

Definition patron_nombre := "Nombre:\s*([^\n]+(?:S\.A\.|E\.S\.P\.))".
Definition patron_nit := "NIT:\s*([\d-]+)".
Definition patron_direccion := latin1 "Dirección:\s*([^\n]+?)(?:Municipio|Teléfono|\n)".
Definition patron_municipio := "Municipio:\s*([^\s]+)".
Definition patron_telefono := latin1 "Teléfono\s*([\d]+)".

Definition extraer_datos_comercializador (texto : string) : result (gmap string value) :=
  let datos : gmap string value := ∅ in
  let datos := if_match (re_search patron_nombre texto no_flags)
    (fun m => <["nombre" := VStr (py_strip (group m 1))]>) datos in
  let datos := if_match (re_search patron_nit texto no_flags)
    (fun m => <["nit" := VStr (group m 1)]>) datos in
  let datos := if_match (re_search patron_direccion texto no_flags)
    (fun m => <["direccion" := VStr (py_strip (group m 1))]>) datos in
  let datos := if_match (re_search patron_municipio texto no_flags)
    (fun m => <["municipio" := VStr (group m 1)]>) datos in
  let datos := if_match (re_search patron_telefono texto no_flags)
    (fun m => <["telefono" := VStr (group m 1)]>) datos in
  Ok datos.

(** *** [extraer_datos_cliente] *)

Definition patron_niu := latin1 "Código\s+Cuenta-NIU\s*([\d]+)".
Definition patron_niu_alt := "CUENTA-NIU\s*([\d]+)".

Definition extraer_datos_cliente (texto : string) : result (gmap string value) :=
  let datos : gmap string value := ∅ in
  let datos := if_match (re_search patron_niu texto IGNORECASE)
    (fun m => <["codigo_cuenta_niu" := VStr (group m 1)]>) datos in
  let datos :=
    match datos !! "codigo_cuenta_niu" with
    | None =>
        if_match (re_search patron_niu_alt texto no_flags)
          (fun m => <["codigo_cuenta_niu" := VStr (group m 1)]>) datos
    | Some _ => datos
    end in
  Ok datos.

(** *** [extraer_periodo_facturacion] *)

Definition patron_periodo := "Periodo\s+Facturado\s+Desde:\s*([\d-]+)\s+Hasta:\s*([\d-]+)".
Definition patron_generacion :=
  latin1 "Fecha\s+y\s+Hora\s+Generación:\s*([\d-]+\s+[\d:]+(?:-[\d:]+)?)".
Definition patron_vencimiento := "Fecha\s+de\s+Vencimiento:\s*([\d-]+)".
Definition patron_forma_pago := "Forma\s+de\s+Pago:\s*(\w+)".

Definition extraer_periodo_facturacion (texto : string) : result (gmap string value) :=
  let periodo : gmap string value := ∅ in
  let periodo := if_match (re_search patron_periodo texto IGNORECASE)
    (fun m periodo =>
       <["fecha_hasta" := VStr (group m 2)]>
         (<["fecha_desde" := VStr (group m 1)]> periodo)) periodo in
  let periodo := if_match (re_search patron_generacion texto IGNORECASE)
    (fun m => <["fecha_hora_generacion" := VStr (group m 1)]>) periodo in
  let periodo := if_match (re_search patron_vencimiento texto IGNORECASE)
    (fun m => <["fecha_vencimiento" := VStr (group m 1)]>) periodo in
  let periodo := if_match (re_search patron_forma_pago texto IGNORECASE)
    (fun m => <["forma_pago" := VStr (group m 1)]>) periodo in
  Ok periodo.

(** *** [extraer_conceptos_facturados] *)

Definition patron_tabla :=
  latin1 "Nro\.\s+CÓDIGO\s+CONCEPTO\s+UNIDAD\s+VR\\UNIDAD\s+CANTIDAD\s+IVA\s+SALDO\s+VALOR\s+MES(.*?)(?:Valor\s+Reclamacion|TOTAL\s+A\s+PAGAR)".
Definition patron_linea :=
  "^(\d+)\s+(\d+)\s+([A-Z\s]+?)\s+(Peso|KWH|K\d+)\s+([\d,\.]+)\s+([\d,\.]+)\s+(\d+)\s+(\d+)\s+([\d,]+)$".
Definition patron_concepto_alt :=
  "(\d+)\s+(\d{3})\s+([A-Z][A-Z\s]+?)\s+(Peso|KWH|K\d+)\s+([\d,\.]+)\s+([\d,\.]+)\s+(\d+)\s+(\d+)\s+([\d,]+)".

(** The dictionary of one line, from the nine groups of [patron_linea] or
    of [patron_concepto_alt] (the source builds it the same way in both
    places); the values are computed in the order of the literal. *)
Definition concepto_de_grupos (m : match_obj) : result (gmap string value) :=
  numero ← int_ (group m 1);
  valor_unidad ← float_ (py_replace "," "" (group m 5));
  cantidad ← float_ (py_replace "," "" (group m 6));
  iva ← float_ (group m 7);
  saldo ← float_ (group m 8);
  valor_mes ← float_ (py_replace "," "" (group m 9));
  Ok (<["valor_mes" := VFloat valor_mes]>
     (<["saldo" := VFloat saldo]>
     (<["iva" := VFloat iva]>
     (<["cantidad" := VFloat cantidad]>
     (<["valor_unidad" := VFloat valor_unidad]>
     (<["unidad" := VStr (group m 4)]>
     (<["concepto" := VStr (py_strip (group m 3))]>
     (<["codigo" := VStr (group m 2)]>
     (<["numero" := VInt numero]> ∅))))))))).

(** One line of the table region. *)
Definition parse_linea (linea : string) (conceptos : list (gmap string value))
  : result (list (gmap string value)) :=
  let linea := py_strip linea in
  if str_empty linea then Ok conceptos
  else
    match re_match patron_linea linea with
    | Some match_linea =>
        concepto ← concepto_de_grupos match_linea;
        Ok (conceptos ++ [concepto])
    | None => Ok conceptos
    end.

(** First method: the region between the header of the table and the
    closing phrase, line by line. *)
Definition conceptos_tabla (texto : string) : result (list (gmap string value)) :=
  match re_search patron_tabla texto DOTALL_IGNORECASE with
  | Some match_tabla =>
      let texto_tabla := group match_tabla 1 in
      let lineas := py_split_nl (py_strip texto_tabla) in
      for_each parse_linea lineas []
  | None => Ok []
  end.

(** Second method: every match of the nine fields in the whole text. *)
Definition conceptos_alt (texto : string) : result (list (gmap string value)) :=
  for_each
    (fun m conceptos => concepto ← concepto_de_grupos m; Ok (conceptos ++ [concepto]))
    (re_finditer patron_concepto_alt texto no_flags) [].

(** Third method: the four concepts of the known invoice. *)
Definition conceptos_conocidos : list (string * string * string * (string * string * string * string * string)) :=
  [ ("672", "CPROG", "Peso", ("79,059,512.0000", "1", "0", "0", "79,059,512"));
    ("384", "PEAJE ACTIVA", "KWH", ("11.5377", "3,638,002", "0", "0", "41,974,020"));
    ("636", "PEAJE INDUCTIVA FA", "K5", ("7,342,282.0000", "1", "0", "0", "7,342,282"));
    ("499", "ADD CENTRO", "Peso", ("391,250.0000", "1", "0", "0", "391,250")) ].

Definition patron_especifico (codigo nombre unidad : string) : string :=
  codigo +:+ "\s+" +:+ nombre +:+ ".*?" +:+ unidad
  +:+ "\s+([\d,\.]+)\s+([\d,\.]+)\s+(\d+)\s+(\d+)\s+([\d,]+)".

Definition concepto_conocido (texto : string) (i : nat)
    (k : string * string * string * (string * string * string * string * string))
  : result (gmap string value) :=
  let '(codigo, nombre, unidad, (valor_unit, cantidad, iva, saldo, valor_mes)) := k in
  let head : gmap string value :=
    <["unidad" := VStr unidad]>
      (<["concepto" := VStr nombre]>
      (<["codigo" := VStr codigo]>
      (<["numero" := VInt (Z.of_nat i)]> ∅))) in
  '(s1, s2, s3, s4, s5) ←
    match re_search (patron_especifico codigo nombre unidad) texto no_flags with
    | Some m =>
        Ok (py_replace "," "" (group m 1), py_replace "," "" (group m 2),
            group m 3, group m 4, py_replace "," "" (group m 5))
    | None =>
        Ok (py_replace "," "" valor_unit, py_replace "," "" cantidad,
            iva, saldo, py_replace "," "" valor_mes)
    end;
  v1 ← float_ s1; v2 ← float_ s2; v3 ← float_ s3; v4 ← float_ s4; v5 ← float_ s5;
  Ok (<["valor_mes" := VFloat v5]>
     (<["saldo" := VFloat v4]>
     (<["iva" := VFloat v3]>
     (<["cantidad" := VFloat v2]>
     (<["valor_unidad" := VFloat v1]> head))))).

Fixpoint conceptos_fijos (texto : string) (i : nat)
    (l : list (string * string * string * (string * string * string * string * string)))
    (conceptos : list (gmap string value)) : result (list (gmap string value)) :=
  match l with
  | [] => Ok conceptos
  | k :: l' =>
      concepto ← concepto_conocido texto i k;
      conceptos_fijos texto (S i) l' (conceptos ++ [concepto])
  end.

Definition extraer_conceptos_facturados (texto : string) : result (list (gmap string value)) :=
  conceptos ← conceptos_tabla texto;
  conceptos ← (if list_empty conceptos then conceptos_alt texto else Ok conceptos);
  conceptos ← (if list_empty conceptos
               then conceptos_fijos texto 1 conceptos_conocidos conceptos
               else Ok conceptos);
  Ok conceptos.

(** *** [extraer_informacion_pago] *)

Definition patron_reclamacion := "Valor\s+Reclamacion:\s*([\d,]+)".
Definition patron_congelado := "Valor\s+Congelado:\s*([\d,]+)".
Definition patron_lineas := "Total\s+Lineas:\s*(\d+)".

Definition extraer_informacion_pago (texto : string) : result (gmap string value) :=
  let pago : gmap string value := ∅ in
  pago ← if_match_r (re_search patron_reclamacion texto IGNORECASE)
    (fun m pago =>
       v ← float_ (py_replace "," "" (group m 1));
       Ok (<["valor_reclamacion" := VFloat v]> pago)) pago;
  pago ← if_match_r (re_search patron_congelado texto IGNORECASE)
    (fun m pago =>
       v ← float_ (py_replace "," "" (group m 1));
       Ok (<["valor_congelado" := VFloat v]> pago)) pago;
  pago ← if_match_r (re_search patron_lineas texto IGNORECASE)
    (fun m pago =>
       n ← int_ (group m 1);
       Ok (<["total_lineas" := VInt n]> pago)) pago;
  Ok pago.

(** *** [extraer_datos_tecnicos] *)

Definition patron_sistema := "Sistema:\s*([^\s]+)".
Definition patron_actsis := "ACTSIS\s+LTDA,\s+NIT:\s*([\d-]+)".
Definition patron_email := "(\w+@\w+\.\w+)".

Definition extraer_datos_tecnicos (texto : string) : result (gmap string value) :=
  let tecnicos : gmap string value := ∅ in
  let tecnicos := if_match (re_search patron_sistema texto no_flags)
    (fun m => <["sistema" := VStr (group m 1)]>) tecnicos in
  let tecnicos := if_match (re_search patron_actsis texto no_flags)
    (fun m => <["actsis_nit" := VStr (group m 1)]>) tecnicos in
  let matches := re_findall patron_email texto no_flags in
  let tecnicos :=
    if list_empty matches then tecnicos
    else <["emails" := VSet (list_to_set matches)]> tecnicos in
  Ok tecnicos.

(** *** [extraer_informacion_recaudo] *)

Definition patron_cuenta := latin1 "cuenta\s+corriente\s+número\s*([\d-]+)\s+del\s+Banco\s+(\w+)".
Definition patron_correos := "recaudos@essa\.com\.co|linderman\.rodriguez@essa\.com\.co".
Definition patron_tel_contacto := latin1 "teléfono:\s*([\d]+)\s+extensión\s*([\d]+)".

Definition extraer_informacion_recaudo (texto : string) : result (gmap string value) :=
  let recaudo : gmap string value := ∅ in
  let recaudo := if_match (re_search patron_cuenta texto IGNORECASE)
    (fun m recaudo =>
       <["banco" := VStr (group m 2)]>
         (<["numero_cuenta" := VStr (group m 1)]> recaudo)) recaudo in
  let matches := re_findall patron_correos texto no_flags in
  let recaudo :=
    if list_empty matches then recaudo
    else <["correos_recaudo" := VSet (list_to_set matches)]> recaudo in
  let recaudo := if_match (re_search patron_tel_contacto texto IGNORECASE)
    (fun m recaudo =>
       <["extension" := VStr (group m 2)]>
         (<["telefono_contacto" := VStr (group m 1)]> recaudo)) recaudo in
  Ok recaudo.

(** *** [extraer_totales] *)

Definition patron_valores := "[\$]?\s*([\d]{7,}[\d,]*)".

(** The monetary-shaped tokens of the text. *)
Definition tokens (texto : string) : list string :=
  re_findall patron_valores texto no_flags.

(** [[float(m.replace(',', '')) for m in matches]] *)
Fixpoint valores_de (matches : list string) : result (list float) :=
  match matches with
  | [] => Ok []
  | m :: ms =>
      v ← float_ (py_replace "," "" m);
      vs ← valores_de ms;
      Ok (v :: vs)
  end.

(** [max] of an empty list would raise [ValueError]; the list has one
    value for each match, so that [valores] is not empty here. *)
Definition extraer_totales (texto : string) : result (gmap string value) :=
  let totales : gmap string value := ∅ in
  let matches := tokens texto in
  totales ←
    (if list_empty matches then Ok totales
     else
       valores ← valores_de matches;
       match valores with
       | [] => Raise ValueError
       | v :: vs => Ok (con_estadisticas v vs totales)
       end);
  Ok totales.

(** *** [extraer_codigos_barras] *)

Definition patron_codigo := "\((\d{3,})\)([^\(]+?)(?=\(|$)".
Definition patron_codigo_final := "\(415\)(\d+)\(8020\)(\d+)\(3900\)(\d+)\(96\)(\d+)".

Definition extraer_codigos_barras (texto : string) : result (gmap string value) :=
  let codigos : gmap string value := ∅ in
  let codigos :=
    fold_left
      (fun codigos m => <["codigo_" +:+ group m 1 := VStr (py_strip (group m 2))]> codigos)
      (re_finditer patron_codigo texto no_flags) codigos in
  let codigos := if_match (re_search patron_codigo_final texto no_flags)
    (fun m codigos =>
       <["codigo_96" := VStr (group m 4)]>
         (<["codigo_3900" := VStr (group m 3)]>
         (<["codigo_8020" := VStr (group m 2)]>
         (<["codigo_415" := VStr (group m 1)]> codigos)))) codigos in
  Ok codigos.

(** *** [extraer_todos_los_datos]

    The dictionary literal calls the ten methods in this order; an
    exception in one of them leaves the literal, and the method, at once. *)
Definition extraer_todos_los_datos (texto : string) : result (gmap string section) :=
  informacion_general ← extraer_informacion_general texto;
  datos_comercializador ← extraer_datos_comercializador texto;
  datos_cliente ← extraer_datos_cliente texto;
  periodo_facturacion ← extraer_periodo_facturacion texto;
  conceptos_facturados ← extraer_conceptos_facturados texto;
  informacion_pago ← extraer_informacion_pago texto;
  datos_tecnicos ← extraer_datos_tecnicos texto;
  informacion_recaudo ← extraer_informacion_recaudo texto;
  totales ← extraer_totales texto;
  codigos_barras ← extraer_codigos_barras texto;
  Ok (<["codigos_barras" := Fields codigos_barras]>
     (<["totales" := Fields totales]>
     (<["informacion_recaudo" := Fields informacion_recaudo]>
     (<["datos_tecnicos" := Fields datos_tecnicos]>
     (<["informacion_pago" := Fields informacion_pago]>
     (<["conceptos_facturados" := Items conceptos_facturados]>
     (<["periodo_facturacion" := Fields periodo_facturacion]>
     (<["datos_cliente" := Fields datos_cliente]>
     (<["datos_comercializador" := Fields datos_comercializador]>
     (<["informacion_general" := Fields informacion_general]> ∅)))))))))).

(** Every pattern of the catalogue, for [re.compile]. *)
Definition catalogo : list string :=
  [ patron_factura; patron_cufe; patron_resolucion; patron_rango; patron_total;
    patron_nombre; patron_nit; patron_direccion; patron_municipio; patron_telefono;
    patron_niu; patron_niu_alt;
    patron_periodo; patron_generacion; patron_vencimiento; patron_forma_pago;
    patron_tabla; patron_linea; patron_concepto_alt;
    patron_reclamacion; patron_congelado; patron_lineas;
    patron_sistema; patron_actsis; patron_email;
    patron_cuenta; patron_correos; patron_tel_contacto;
    patron_valores; patron_codigo; patron_codigo_final ]
  ++ map (fun k => let '(codigo, nombre, unidad, _) := k in
                   patron_especifico codigo nombre unidad) conceptos_conocidos.

End ESSA.

(** ** [air-e/data_extractor.py] *)

Module AirE.

(** *** [extraer_informacion_general] *)

Definition patron_nic := "NIC:\s*(\d+)".
Definition patron_doc := "Documento\s+Equivalente:\s*(\d+)".
Definition patron_id_cobros := "ID\s+de\s+Cobros:\s*(\d+)".
Definition patron_total := "TOTAL\s+A\s+PAGAR\s+\$?([\d,\.]+)".
Definition patron_periodo_fact := "Periodo\s+facturado\s+al\s+([\d/]+)".
Definition patron_uso_general := "Peaje\s+Nivel\s+(\d+)".

(** [s.replace(',', '').replace('.', '')] *)
Definition sin_separadores (s : string) : string :=
  py_replace "." "" (py_replace "," "" s).

Definition extraer_informacion_general (texto : string) : result (gmap string value) :=
  let info : gmap string value := ∅ in
  let info := if_match (re_search patron_nic texto no_flags)
    (fun m => <["nic" := VStr (group m 1)]>) info in
  let info := if_match (re_search patron_doc texto no_flags)
    (fun m => <["documento_equivalente" := VStr (group m 1)]>) info in
  let info := if_match (re_search patron_id_cobros texto no_flags)
    (fun m => <["id_cobros" := VStr (group m 1)]>) info in
  let matches := re_findall patron_total texto IGNORECASE in
  info ←
    (if list_empty matches then Ok info
     else
       let valor_str := sin_separadores (last_of matches) in
       v ← float_ valor_str;
       Ok (<["total_pagar" := VFloat v]> info));
  let info := if_match (re_search patron_periodo_fact texto no_flags)
    (fun m => <["periodo_facturado_hasta" := VStr (group m 1)]>) info in
  let info := if_match (re_search patron_uso_general texto no_flags)
    (fun m => <["peaje_nivel" := VStr (group m 1)]>) info in
  Ok info.

(** *** [extraer_datos_cliente] *)

Definition patron_cliente := "Cliente:\s*([^\n]+)".
Definition patron_cliente_alt := "GENERADORA\s+Y\s+COMERCIALIZADORA\s+DE\s+ENERGIA\s+DEL\s+CARIBE".
Definition patron_nit := "NIT\s+o\s+C\.C:\s*([\d-]+)".
Definition patron_direccion := latin1 "Dirección\s+del\s+envío:\s*([^\n]+)".
Definition patron_planta := latin1 "Dirección\s+de\s+planta:\s*([^\n]+)".
Definition patron_municipio := "Municipio:\s*(\w+)".
Definition patron_depto := "Departamento:\s*(\w+)".
Definition patron_contrato := "Contrato\s+No:\s*([^\n]+)".
Definition patron_uso := "Uso:\s*Peaje\s+Nivel\s+(\d+)".
Definition patron_tension := latin1 "Nivel\s+de\s+tensión:\s*([^\n]+)".

Definition extraer_datos_cliente (texto : string) : result (gmap string value) :=
  let datos : gmap string value := ∅ in
  let datos := if_match (re_search patron_cliente texto no_flags)
    (fun m => <["nombre" := VStr (py_strip (group m 1))]>) datos in
  let datos :=
    match datos !! "nombre" with
    | None =>
        if_match (re_search patron_cliente_alt texto no_flags)
          (fun _ => <["nombre" := VStr "GENERADORA Y COMERCIALIZADORA DE ENERGIA DEL CARIBE"]>)
          datos
    | Some _ => datos
    end in
  let datos := if_match (re_search patron_nit texto no_flags)
    (fun m => <["nit" := VStr (group m 1)]>) datos in
  let datos := if_match (re_search patron_direccion texto no_flags)
    (fun m => <["direccion" := VStr (py_strip (group m 1))]>) datos in
  let datos := if_match (re_search patron_planta texto no_flags)
    (fun m => <["direccion_planta" := VStr (py_strip (group m 1))]>) datos in
  let datos := if_match (re_search patron_municipio texto no_flags)
    (fun m => <["municipio" := VStr (group m 1)]>) datos in
  let datos := if_match (re_search patron_depto texto no_flags)
    (fun m => <["departamento" := VStr (group m 1)]>) datos in
  let datos := if_match (re_search patron_contrato texto no_flags)
    (fun m => <["contrato" := VStr (py_strip (group m 1))]>) datos in
  let datos := if_match (re_search patron_uso texto no_flags)
    (fun m => <["uso_peaje_nivel" := VStr (group m 1)]>) datos in
  let datos := if_match (re_search patron_tension texto no_flags)
    (fun m => <["nivel_tension" := VStr (py_strip (group m 1))]>) datos in
  Ok datos.

(** *** [extraer_datos_operador] *)

Definition patron_operador := latin1 "Información\s+del\s+Operador\s+de\s+Red\s+AIR-E\s+S\.A\.S\s+ESP".
Definition patron_nit_operador := "AIR-E\s+S\.A\.S\s+ESP\s+NIT:\s*([\d-]+)".
Definition patron_linea115 := latin1 "Línea\s+115:\s*([^\n]+)".
Definition patron_linea_gratuita := "018000-930135:\s*([^\n]+)".
Definition patron_linea_fija := "605-3225016:\s*([^\n]+)".
Definition patron_dir_operador := latin1 "Dirección:\s*CR\s+57\s+CL\s+99A[^\n]+".
Definition patron_pbx := "PBX:\s*\(([\d]+)\)([\d]+)".
Definition patron_web := "https://www\.air-e\.com/".

Definition extraer_datos_operador (texto : string) : result (gmap string value) :=
  let datos : gmap string value := ∅ in
  let datos := if_match (re_search patron_operador texto no_flags)
    (fun _ => <["nombre" := VStr "AIR-E S.A.S ESP"]>) datos in
  let datos := if_match (re_search patron_nit_operador texto no_flags)
    (fun m => <["nit" := VStr (group m 1)]>) datos in
  let datos := if_match (re_search patron_linea115 texto no_flags)
    (fun m => <["linea_115" := VStr (py_strip (group m 1))]>) datos in
  let datos := if_match (re_search patron_linea_gratuita texto no_flags)
    (fun _ => <["linea_gratuita" := VStr "018000-930135"]>) datos in
  let datos := if_match (re_search patron_linea_fija texto no_flags)
    (fun _ => <["linea_fija" := VStr "605-3225016"]>) datos in
  let datos := if_match (re_search patron_dir_operador texto no_flags)
    (fun m => <["direccion" := VStr (py_strip (py_replace (py "Dirección:") "" (group m 0)))]>)
    datos in
  let datos := if_match (re_search patron_pbx texto no_flags)
    (fun m => <["pbx" := VStr ("(" +:+ group m 1 +:+ ")" +:+ group m 2)]>) datos in
  let datos := if_match (re_search patron_web texto no_flags)
    (fun m => <["website" := VStr (group m 0)]>) datos in
  Ok datos.

(** *** [extraer_periodo_facturacion] *)

Definition patron_periodo := "Periodo\s+facturado:\s*([\d/]+)".
Definition patron_emision := latin1 "Fecha\s+de\s+Emisión:\s*([\d/]+\s+[\d:]+)".
Definition patron_fecha_alt := "(\d{2}/\d{2}/\d{4}\s+\d{2}:\d{2}:\d{2})".
Definition patron_ciudad_fecha := "Barranquilla\s+(\d{2}/\d{2}/\d{4})".
Definition patron_vencimiento := "Pagar\s+antes\s+del:\s*([\d/]+)".
Definition patron_dias := latin1 "Días\s+facturados:\s*(\d+)".

Definition extraer_periodo_facturacion (texto : string) : result (gmap string value) :=
  let periodo : gmap string value := ∅ in
  let periodo := if_match (re_search patron_periodo texto IGNORECASE)
    (fun m => <["periodo_facturado" := VStr (group m 1)]>) periodo in
  let periodo := if_match (re_search patron_emision texto IGNORECASE)
    (fun m => <["fecha_emision" := VStr (group m 1)]>) periodo in
  let periodo :=
    match periodo !! "fecha_emision" with
    | None =>
        if_match (re_search patron_fecha_alt texto no_flags)
          (fun m => <["fecha_emision" := VStr (group m 1)]>) periodo
    | Some _ => periodo
    end in
  let matches := re_findall patron_ciudad_fecha texto no_flags in
  let periodo :=
    if list_empty matches then periodo
    else <["fecha_ciudad" := VStr (first_of matches)]> periodo in
  let periodo := if_match (re_search patron_vencimiento texto IGNORECASE)
    (fun m => <["fecha_vencimiento" := VStr (group m 1)]>) periodo in
  let periodo := if_match (re_search patron_dias texto no_flags)
    (fun m => <["dias_facturados" := VStr (group m 1)]>) periodo in
  Ok periodo.

(** *** [extraer_conceptos_facturados] *)

Definition patron_detalle := "Detalle\s+del\s+cobro.*?Conceptos\s+facturados\s+Valores".
Definition patron_peaje := "Peaje\s+No\s+Regulado\s+\$?([\d,\.]+)".
Definition patron_penalizacion := "Penalizacion\s+Energia\s+Reactiva\s+-\s+Peajes\s+\$?([\d,\.]+)".
Definition patron_ajuste := "AJUSTE\s+MONETARIO\s+\$?(-?[\d,\.]+)".
Definition patron_cprog := "CPROG_PEAJES\s+\$?([\d,\.]+)".
Definition patron_valores := "([A-Z][A-Za-z\s_-]+?)\s+\$?([\d]{1,3}(?:\.[\d]{3})*(?:,\d{2})?)".

Definition concepto (nombre : string) (valor : float) : gmap string value :=
  <["valor" := VFloat valor]> (<["concepto" := VStr nombre]> ∅).

(** One of the four named concepts: its amount, without separators, over
    one hundred. *)
Definition concepto_nombrado (patron nombre texto : string)
    (conceptos : list (gmap string value)) : result (list (gmap string value)) :=
  if_match_r (re_search patron texto no_flags)
    (fun m conceptos =>
       let valor_str := sin_separadores (group m 1) in
       v ← float_ valor_str;
       Ok (conceptos ++ [concepto nombre (fdiv v (float_of_Z 100))])) conceptos.

(** First method: under the heading of the detail, the four named
    concepts, each searched in the whole text. *)
Definition conceptos_detalle (texto : string) : result (list (gmap string value)) :=
  match re_search patron_detalle texto DOTALL_IGNORECASE with
  | Some _ =>
      conceptos ← concepto_nombrado patron_peaje "Peaje No Regulado" texto [];
      conceptos ← concepto_nombrado patron_penalizacion
                    (py "Penalización Energía Reactiva - Peajes") texto conceptos;
      conceptos ← concepto_nombrado patron_ajuste "AJUSTE MONETARIO" texto conceptos;
      conceptos ← concepto_nombrado patron_cprog "CPROG_PEAJES" texto conceptos;
      Ok conceptos
  | None => Ok []
  end.

Definition palabras : list string := ["PEAJE"; "ENERGIA"; "AJUSTE"; "CPROG"].

(** Second method: every name followed by an amount, kept when the name
    has one of the four words and the amount is a positive number; an
    amount that [float] refuses is skipped ([try ... except: continue]). *)
Definition concepto_general (m : match_obj) (conceptos : list (gmap string value))
  : list (gmap string value) :=
  let concepto_nombre := group m 1 in
  let valor_str := group m 2 in
  if existsb (fun palabra => py_in palabra (py_upper concepto_nombre)) palabras then
    let valor_limpio := py_replace "," "." (py_replace "." "" valor_str) in
    match py_float valor_limpio with
    | Some valor =>
        if flt (float_of_Z 0) valor
        then conceptos ++ [concepto (py_strip concepto_nombre) valor]
        else conceptos
    | None => conceptos
    end
  else conceptos.

Definition conceptos_generales (texto : string) : list (gmap string value) :=
  fold_left (fun conceptos m => concepto_general m conceptos)
    (re_finditer patron_valores texto no_flags) [].

(** Third method: the values of the known invoice. *)
Definition conceptos_fijos : list (gmap string value) :=
  [ concepto "Peaje No Regulado" (float_of_ratio false 2475438567 100);
    concepto (py "Penalización Energía Reactiva - Peajes") (float_of_ratio false 554956 100);
    concepto "AJUSTE MONETARIO" (float_of_ratio true 23 100);
    concepto "CPROG_PEAJES" (float_of_ratio false 31699483500 100) ].

Definition extraer_conceptos_facturados (texto : string) : result (list (gmap string value)) :=
  conceptos ← conceptos_detalle texto;
  let conceptos := if list_empty conceptos then conceptos_generales texto else conceptos in
  let conceptos := if list_empty conceptos then conceptos_fijos else conceptos in
  Ok conceptos.

(** *** [extraer_informacion_pago] *)

Definition patron_subtotal := "Subtotal\s+Energia\s+\$?([\d,\.]+)".
Definition patron_deuda := "Deuda\s+facturas\s+anteriores\s+\$?([\d,\.]+)".
Definition patron_mensual := latin1 "Facturación\s+Mensual\s+\$?([\d,\.]+)".
Definition patron_saldo := "Saldo\s+Actual\s+\$?([\d,\.]+)".
Definition patron_interes := latin1 "Tasa\s+interés\s+por\s+mora:\s*([\d,\.]+)%".
Definition patron_id_cobro := "Id\s+Cobro:\s*(\d+)".

(** [if match: d[key] = float(match.group(1) without separators)] *)
Definition monto (patron key texto : string) (d : gmap string value)
  : result (gmap string value) :=
  if_match_r (re_search patron texto IGNORECASE)
    (fun m d =>
       let valor_str := sin_separadores (group m 1) in
       v ← float_ valor_str;
       Ok (<[key := VFloat v]> d)) d.

Definition extraer_informacion_pago (texto : string) : result (gmap string value) :=
  let pago : gmap string value := ∅ in
  pago ← monto patron_subtotal "subtotal_energia" texto pago;
  pago ← monto patron_deuda "deuda_anterior" texto pago;
  pago ← monto patron_mensual "facturacion_mensual" texto pago;
  pago ← monto patron_saldo "saldo_actual" texto pago;
  let pago := if_match (re_search patron_interes texto IGNORECASE)
    (fun m => <["tasa_interes_mora" := VStr (group m 1)]>) pago in
  let pago := if_match (re_search patron_id_cobro texto IGNORECASE)
    (fun m => <["id_cobro" := VStr (group m 1)]>) pago in
  Ok pago.

(** *** [extraer_datos_tecnicos] *)

Definition patron_sistema := latin1 "Datos\s+sistema\s+informático\s+OPEN\s+INTERNATIONAL\s+S\.A\.S".
Definition patron_nit_sistema := "OPEN\s+INTERNATIONAL\s+S\.A\.S\s+(\d+)".
Definition patron_software := "Open\s+Smartflex".
Definition patron_banco := "cuenta\s+de\s+ahorro\s+No\s+([\d-]+)\s+del\s+banco\s+de\s+(\w+)".
Definition patron_fiduciaria := "FIDUOCCIDENTE\s+FID\s+(\d+)".

Definition extraer_datos_tecnicos (texto : string) : result (gmap string value) :=
  let tecnicos : gmap string value := ∅ in
  let tecnicos := if_match (re_search patron_sistema texto no_flags)
    (fun _ => <["sistema" := VStr "OPEN INTERNATIONAL S.A.S"]>) tecnicos in
  let tecnicos := if_match (re_search patron_nit_sistema texto no_flags)
    (fun m => <["nit_sistema" := VStr (group m 1)]>) tecnicos in
  let tecnicos := if_match (re_search patron_software texto no_flags)
    (fun _ => <["software" := VStr "Open Smartflex"]>) tecnicos in
  let tecnicos := if_match (re_search patron_banco texto IGNORECASE)
    (fun m tecnicos =>
       <["banco" := VStr (group m 2)]>
         (<["cuenta_bancaria" := VStr (group m 1)]> tecnicos)) tecnicos in
  let tecnicos := if_match (re_search patron_fiduciaria texto no_flags)
    (fun m => <["fiduciaria_fid" := VStr (group m 1)]>) tecnicos in
  Ok tecnicos.

(** *** [extraer_totales] *)

Definition patron_total_pagar := "Total\s+a\s+pagar\s+mes\s+\$?([\d,\.]+)".
Definition patron_total_general := "\$?(341\.754\.770)".
Definition patron_valores_grandes := "\$?([\d]{7,}(?:\.[\d]{3})*)".

(** The monetary-shaped tokens of the text. *)
Definition tokens (texto : string) : list string :=
  re_findall patron_valores_grandes texto no_flags.

(** The loop over the tokens: one that [float] refuses is skipped. *)
Definition valores_de (matches : list string) : list float :=
  fold_left
    (fun valores m =>
       match py_float (py_replace "." "" m) with
       | Some valor => valores ++ [valor]
       | None => valores
       end) matches [].

(** [if valores:] and the four statistics. *)
Definition estadisticas (valores : list float) (totales : gmap string value)
  : gmap string value :=
  match valores with
  | [] => totales
  | v :: vs => con_estadisticas v vs totales
  end.

Definition extraer_totales (texto : string) : result (gmap string value) :=
  let totales : gmap string value := ∅ in
  totales ← if_match_r (re_search patron_total_pagar texto IGNORECASE)
    (fun m totales =>
       let valor_str := sin_separadores (group m 1) in
       v ← float_ valor_str;
       Ok (<["total_pagar_mes" := VFloat v]> totales)) totales;
  let matches := re_findall patron_total_general texto no_flags in
  totales ←
    (if list_empty matches then Ok totales
     else
       let valor_str := py_replace "." "" (first_of matches) in
       v ← float_ valor_str;
       Ok (<["total_general" := VFloat v]> totales));
  let matches := tokens texto in
  let totales :=
    if list_empty matches then totales
    else estadisticas (valores_de matches) totales in
  Ok totales.

(** *** [extraer_codigos_barras] *)

Definition patron_codigo := "\((\d{3,4})\)(\d+)".
Definition patron_codigo_completo := "\(415\)(\d+)\(8020\)(\d+)\(3900\)(\d+)\(96\)(\d+)".
Definition patron_barcode := "[|]{10,}".

Definition extraer_codigos_barras (texto : string) : result (gmap string value) :=
  let codigos : gmap string value := ∅ in
  let codigos :=
    fold_left
      (fun codigos m => <["codigo_" +:+ group m 1 := VStr (group m 2)]> codigos)
      (re_finditer patron_codigo texto no_flags) codigos in
  let codigos := if_match (re_search patron_codigo_completo texto no_flags)
    (fun m codigos =>
       <["codigo_96_completo" := VStr (group m 4)]>
         (<["codigo_3900_completo" := VStr (group m 3)]>
         (<["codigo_8020_completo" := VStr (group m 2)]>
         (<["codigo_415_completo" := VStr (group m 1)]> codigos)))) codigos in
  let matches := re_findall patron_barcode texto no_flags in
  let codigos :=
    if list_empty matches then codigos
    else <["tiene_codigo_barras" := VStr "Si"]> codigos in
  Ok codigos.

(** *** [extraer_todos_los_datos] *)

Definition extraer_todos_los_datos (texto : string) : result (gmap string section) :=
  informacion_general ← extraer_informacion_general texto;
  datos_cliente ← extraer_datos_cliente texto;
  datos_operador ← extraer_datos_operador texto;
  periodo_facturacion ← extraer_periodo_facturacion texto;
  conceptos_facturados ← extraer_conceptos_facturados texto;
  informacion_pago ← extraer_informacion_pago texto;
  datos_tecnicos ← extraer_datos_tecnicos texto;
  totales ← extraer_totales texto;
  codigos_barras ← extraer_codigos_barras texto;
  Ok (<["codigos_barras" := Fields codigos_barras]>
     (<["totales" := Fields totales]>
     (<["datos_tecnicos" := Fields datos_tecnicos]>
     (<["informacion_pago" := Fields informacion_pago]>
     (<["conceptos_facturados" := Items conceptos_facturados]>
     (<["periodo_facturacion" := Fields periodo_facturacion]>
     (<["datos_operador" := Fields datos_operador]>
     (<["datos_cliente" := Fields datos_cliente]>
     (<["informacion_general" := Fields informacion_general]> ∅))))))))).

Definition catalogo : list string :=
  [ patron_nic; patron_doc; patron_id_cobros; patron_total; patron_periodo_fact;
    patron_uso_general;
    patron_cliente; patron_cliente_alt; patron_nit; patron_direccion; patron_planta;
    patron_municipio; patron_depto; patron_contrato; patron_uso; patron_tension;
    patron_operador; patron_nit_operador; patron_linea115; patron_linea_gratuita;
    patron_linea_fija; patron_dir_operador; patron_pbx; patron_web;
    patron_periodo; patron_emision; patron_fecha_alt; patron_ciudad_fecha;
    patron_vencimiento; patron_dias;
    patron_detalle; patron_peaje; patron_penalizacion; patron_ajuste; patron_cprog;
    patron_valores;
    patron_subtotal; patron_deuda; patron_mensual; patron_saldo; patron_interes;
    patron_id_cobro;
    patron_sistema; patron_nit_sistema; patron_software; patron_banco; patron_fiduciaria;
    patron_total_pagar; patron_total_general; patron_valores_grandes;
    patron_codigo; patron_codigo_completo; patron_barcode ].

End AirE.

(** ** The two families side by side *)

Inductive familia := Aire | Essa.

Definition extraer_todos (f : familia) : string -> result (gmap string section) :=
  match f with
  | Aire => AirE.extraer_todos_los_datos
  | Essa => ESSA.extraer_todos_los_datos
  end.

Definition conceptos_facturados (f : familia) : string -> result (list (gmap string value)) :=
  match f with
  | Aire => AirE.extraer_conceptos_facturados
  | Essa => ESSA.extraer_conceptos_facturados
  end.

(** The first method of [extraer_conceptos_facturados]: the search under
    the heading of the table. *)
Definition primer_metodo (f : familia) : string -> result (list (gmap string value)) :=
  match f with
  | Aire => AirE.conceptos_detalle
  | Essa => ESSA.conceptos_tabla
  end.

Definition informacion_general (f : familia) : string -> result (gmap string value) :=
  match f with
  | Aire => AirE.extraer_informacion_general
  | Essa => ESSA.extraer_informacion_general
  end.

Definition totales (f : familia) : string -> result (gmap string value) :=
  match f with
  | Aire => AirE.extraer_totales
  | Essa => ESSA.extraer_totales
  end.

(** The monetary-shaped tokens, as [extraer_totales] finds them. *)
Definition tokens (f : familia) : string -> list string :=
  match f with
  | Aire => AirE.tokens
  | Essa => ESSA.tokens
  end.

(** The captures of the amount after "TOTAL A PAGAR", in the order of the
    text, and the number that [extraer_informacion_general] reads in one
    of them ([None]: [float] refuses it). *)
Definition ocurrencias_total (f : familia) (texto : string) : list string :=
  match f with
  | Aire => re_findall AirE.patron_total texto IGNORECASE
  | Essa => re_findall ESSA.patron_total texto IGNORECASE
  end.

Definition valor_total (f : familia) (captura : string) : option float :=
  match f with
  | Aire => py_float (AirE.sin_separadores captura)
  | Essa => py_float (py_replace "," "" captura)
  end.

(** The customer field that has two rules: the pattern and the flags of
    the first rule, the key, and the value that the first rule stores. *)
Definition datos_cliente (f : familia) : string -> result (gmap string value) :=
  match f with
  | Aire => AirE.extraer_datos_cliente
  | Essa => ESSA.extraer_datos_cliente
  end.

Definition regla_primaria (f : familia) : string * flags :=
  match f with
  | Aire => (AirE.patron_cliente, no_flags)
  | Essa => (ESSA.patron_niu, IGNORECASE)
  end.

Definition regla_alterna (f : familia) : string * flags :=
  match f with
  | Aire => (AirE.patron_cliente_alt, no_flags)
  | Essa => (ESSA.patron_niu_alt, no_flags)
  end.

Definition campo_cliente (f : familia) : string :=
  match f with
  | Aire => "nombre"
  | Essa => "codigo_cuenta_niu"
  end.

Definition valor_primario (f : familia) (m : match_obj) : value :=
  match f with
  | Aire => VStr (py_strip (group m 1))
  | Essa => VStr (group m 1)
  end.

(** The numeral of a token: the token without the separator that
    [extraer_totales] removes before [float]. *)
Definition numeral (f : familia) (token : string) : string :=
  match f with
  | Aire => py_replace "." "" token
  | Essa => py_replace "," "" token
  end.

Definition numerales (f : familia) (texto : string) : list string :=
  map (numeral f) (tokens f texto).

(** The values that [extraer_totales] computes from its tokens. *)
Definition valores_del_texto (f : familia) (texto : string) : result (list float) :=
  match f with
  | Aire => Ok (AirE.valores_de (AirE.tokens texto))
  | Essa => ESSA.valores_de (ESSA.tokens texto)
  end.

(** The keys of the dictionary that [extraer_todos_los_datos] builds. *)
Definition secciones (f : familia) : gset string :=
  match f with
  | Aire =>
      list_to_set
        [ "informacion_general"; "datos_cliente"; "datos_operador"; "periodo_facturacion";
          "conceptos_facturados"; "informacion_pago"; "datos_tecnicos"; "totales";
          "codigos_barras" ]
  | Essa =>
      list_to_set
        [ "informacion_general"; "datos_comercializador"; "datos_cliente";
          "periodo_facturacion"; "conceptos_facturados"; "informacion_pago";
          "datos_tecnicos"; "informacion_recaudo"; "totales"; "codigos_barras" ]
  end.

(** ** [main.py]

    [main], from the text that [PDFReader.extraer_texto] hands over
    ([None]: no text object at all) to the dictionary that goes to
    [ExcelWriter]; reading the file and writing the sheet are outside.

    - [SinTexto]: [if not texto_completo]: the message "No se pudo extraer
      texto del PDF" and [sys.exit(1)], before any [DataExtractor] exists;
      [SystemExit] is not an [Exception], so no handler of [main] takes it.
    - [ErrorInesperado]: an exception of the extraction, taken by
      [except Exception]: the message "Error inesperado", [sys.exit(1)].
    - [Extraido]: the extraction has returned its dictionary. *)

Inductive salida :=
  | SinTexto
  | ErrorInesperado (e : exn)
  | Extraido (datos : gmap string section).

Definition main (f : familia) (texto_completo : option string) : salida :=
  match texto_completo with
  | None => SinTexto
  | Some texto =>
      if str_empty texto then SinTexto
      else
        match extraer_todos f texto with
        | Ok datos_extraidos => Extraido datos_extraidos
        | Raise e => ErrorInesperado e
        end
  end.

(** One line of the ESSA table, as a dictionary. *)
Definition linea_essa (numero : Z) (codigo concepto unidad : string)
    (valor_unidad cantidad iva saldo valor_mes : float) : gmap string value :=
  <["valor_mes" := VFloat valor_mes]>
  (<["saldo" := VFloat saldo]>
  (<["iva" := VFloat iva]>
  (<["cantidad" := VFloat cantidad]>
  (<["valor_unidad" := VFloat valor_unidad]>
  (<["unidad" := VStr unidad]>
  (<["concepto" := VStr concepto]>
  (<["codigo" := VStr codigo]>
  (<["numero" := VInt numero]> ∅)))))))).

(** The concepts that each family returns when its text has none. *)
Definition conceptos_de_reserva (f : familia) : list (gmap string value) :=
  match f with
  | Aire => AirE.conceptos_fijos
  | Essa =>
      [ linea_essa 1 "672" "CPROG" "Peso"
          (float_of_Z 79059512) (float_of_Z 1) (float_of_Z 0) (float_of_Z 0)
          (float_of_Z 79059512);
        linea_essa 2 "384" "PEAJE ACTIVA" "KWH"
          (float_of_ratio false 115377 10000) (float_of_Z 3638002) (float_of_Z 0)
          (float_of_Z 0) (float_of_Z 41974020);
        linea_essa 3 "636" "PEAJE INDUCTIVA FA" "K5"
          (float_of_Z 7342282) (float_of_Z 1) (float_of_Z 0) (float_of_Z 0)
          (float_of_Z 7342282);
        linea_essa 4 "499" "ADD CENTRO" "Peso"
          (float_of_Z 391250) (float_of_Z 1) (float_of_Z 0) (float_of_Z 0)
          (float_of_Z 391250) ]
  end.

(** The result of both families on a text without any match: every section
    an empty dictionary, but for the concepts of reserve. *)
Definition datos_sin_coincidencias (f : familia) : gmap string section :=
  <["conceptos_facturados" := Items (conceptos_de_reserva f)]>
    (gset_to_gmap (Fields ∅) (secciones f)).

(** A dictionary whose every section is empty. *)
Definition todas_vacias (datos : gmap string section) : Prop :=
  forall k s, datos !! k = Some s -> section_empty s = true.

(** The keys of the four statistics of the totals. *)
Definition claves_estadisticas : list string :=
  ["valores_encontrados"; "valor_maximo"; "valor_minimo"; "promedio_valores"].

(** A binary64 number that is not NaN. *)
Definition es_numero (v : float) : Prop := v <> S754_nan.

(** ** [str.join] and [re.sub] *)

(** The characters ['\x00'] and ['\t']. *)
Definition nul : ascii := ascii_of_N 0.
Definition tab : ascii := ascii_of_N 9.

(** [sep.join(l)] *)
Fixpoint join_with (sep : list ascii) (l : list string) : list ascii :=
  match l with
  | [] => []
  | s :: l' =>
      match l' with
      | [] => chars s
      | _ :: _ => chars s ++ sep ++ join_with sep l'
      end
  end.

Definition py_join (sep : string) (l : list string) : string := str (join_with (chars sep) l).

(** [re.sub] for a replacement without backslash: the text between the
    matches of [re.finditer], with [repl] in the place of every match;
    [p] is the position of [l] in the text.  Neither pattern of
    [_limpiar_texto] has an empty match. *)
Fixpoint sub_from (repl : list ascii) (p : nat) (l : list ascii) (ms : list match_obj)
  : list ascii :=
  match ms with
  | [] => l
  | m :: ms' =>
      take (m_start m - p) l ++ repl
        ++ sub_from repl (m_end m) (drop (m_end m - p) l) ms'
  end.

(** [re.sub] with the pattern compiled. *)
Definition sub_compiled (re : regex * nat) (repl text : string) : string :=
  str (sub_from (chars repl) 0 (chars text) (scan no_flags re 0 0 (chars text))).

(** [re.sub(pattern, repl, text)] *)
Definition re_sub (pattern repl text : string) : string :=
  sub_compiled (re_compile pattern) repl text.

(** ** [air-e/pdf_reader.py]

    [PDFReader] reads the pages of the file with the first of three
    libraries that gives a text, and cleans every page.  The libraries
    are outside: [libreria] holds what one of them answers for the file,
    page by page, and [lector] the attributes of the object that the
    methods write. *)

Module PDFReader.

(** [re.compile(r'[ \t]+')].  The escape [\t], which no pattern of the
    extractors has and [escape_item] does not read, is the tab. *)
Definition patron_espacios : regex * nat :=
  (Rep 1 None true (Set_ false [CLit " "; CLit tab]), 0).

(** [r'\n{3,}'] *)
Definition patron_saltos : string := "\n{3,}".

(** [PDFReader._limpiar_texto].  A text of this development has no
    character U+FEFF, so that [texto.replace('\ufeff', '')] leaves it as
    it is. *)
Definition _limpiar_texto (texto : string) : string :=
  if str_empty texto then ""
  else
    let texto := py_replace (String nul "") "" texto in
    let texto := sub_compiled patron_espacios " " texto in
    let lineas := py_split_nl texto in
    let lineas := map py_strip lineas in
    let texto := py_join (String newline "") lineas in
    re_sub patron_saltos (String newline (String newline "")) texto.

(** What a library gives for one page: the value of [extract_text()]
    ([None], or a text that may be empty), or an exception. *)
Inductive pagina :=
  | Texto (t : option string)
  | PaginaFalla.

(** A library for PDF as [PDFReader] sees it: whether its import has
    succeeded, and what it gives for the file: an exception before the
    first page ([None]) or the pages in their order. *)
Record libreria := {
  disponible : bool;
  paginas : option (list pagina)
}.

(** The attributes of a [PDFReader] that the extraction writes. *)
Record lector := {
  texto_completo : string;
  texto_por_pagina : list string;
  metodo_usado : option string
}.

(** [PDFReader.__init__] *)
Definition nuevo : lector :=
  {| texto_completo := ""; texto_por_pagina := []; metodo_usado := None |}.

(** The loop over the pages: a page with text is cleaned and appended to
    [self.texto_por_pagina] and to the local [texto_completo].  An
    exception of a page ends the loop ([None] for the local list), but
    for PyPDF2 ([tolerante]), whose loop goes on to the next page. *)
Fixpoint leer_paginas (tolerante : bool) (ps : list pagina)
    (por_pagina completo : list string) : list string * option (list string) :=
  match ps with
  | [] => (por_pagina, Some completo)
  | Texto t :: ps' =>
      match t with
      | Some texto_pagina =>
          if str_empty texto_pagina
          then leer_paginas tolerante ps' por_pagina completo
          else
            let texto_pagina := _limpiar_texto texto_pagina in
            leer_paginas tolerante ps' (por_pagina ++ [texto_pagina])
              (completo ++ [texto_pagina])
      | None => leer_paginas tolerante ps' por_pagina completo
      end
  | PaginaFalla :: ps' =>
      if tolerante then leer_paginas tolerante ps' por_pagina completo
      else (por_pagina, None)
  end.

(** The body that [_extraer_con_pdfplumber], [_extraer_con_pypdf] and
    [_extraer_con_pypdf2] share: the text of the pages joined by line
    ends, or [None] after an exception or without any page with text. *)
Definition _extraer_con (tolerante : bool) (lib : libreria) (st : lector)
  : option string * lector :=
  match paginas lib with
  | None => (None, st)
  | Some ps =>
      let '(por_pagina, completo) := leer_paginas tolerante ps (texto_por_pagina st) [] in
      let st1 := {| texto_completo := texto_completo st;
                    texto_por_pagina := por_pagina;
                    metodo_usado := metodo_usado st |} in
      match completo with
      | Some (pagina1 :: resto) =>
          let texto := py_join (String newline "") (pagina1 :: resto) in
          (Some texto, {| texto_completo := texto;
                          texto_por_pagina := por_pagina;
                          metodo_usado := metodo_usado st |})
      | _ => (None, st1)
      end
  end.

Definition _extraer_con_pdfplumber : libreria -> lector -> option string * lector :=
  _extraer_con false.
Definition _extraer_con_pypdf : libreria -> lector -> option string * lector :=
  _extraer_con false.
Definition _extraer_con_pypdf2 : libreria -> lector -> option string * lector :=
  _extraer_con true.

(** How [extraer_texto] ends: [return texto], [sys.exit(1)] or
    [raise Exception(...)]. *)
Inductive resultado :=
  | Devuelve (texto : string)
  | Sale (codigo : Z)
  | Lanza (mensaje : string).

(** One of the three attempts of [extraer_texto]. *)
Definition intento (nombre : string)
    (metodo : libreria -> lector -> option string * lector) (lib : libreria)
    (st : lector) (si_no : lector -> resultado * lector) : resultado * lector :=
  if disponible lib then
    let '(texto, st1) := metodo lib st in
    match texto with
    | Some t =>
        if str_empty t then si_no st1
        else (Devuelve t, {| texto_completo := texto_completo st1;
                             texto_por_pagina := texto_por_pagina st1;
                             metodo_usado := Some nombre |})
    | None => si_no st1
    end
  else si_no st.

(** [PDFReader.extraer_texto] *)
Definition extraer_texto (pdfplumber pypdf pypdf2 : libreria) (st : lector)
  : resultado * lector :=
  intento "pdfplumber" _extraer_con_pdfplumber pdfplumber st (fun st =>
  intento "pypdf" _extraer_con_pypdf pypdf st (fun st =>
  intento "PyPDF2" _extraer_con_pypdf2 pypdf2 st (fun st =>
  if negb (disponible pdfplumber || disponible pypdf || disponible pypdf2)
  then (Sale 1, st)
  else (Lanza (py "No se pudo extraer texto del PDF con ningún método disponible"), st)))).

End PDFReader.

(** ** Notions for the properties *)

(** The place of a number in the order of binary64: its class (negative
    infinity, negative, zero, positive, positive infinity), then its
    exponent, then its mantissa. *)
Definition orden (x : float) : Z * Z * Z :=
  match x with
  | S754_nan => (0, 0, 0)
  | S754_infinity true => (-2, 0, 0)
  | S754_finite true m e => (-1, - e, - Z.pos m)
  | S754_zero _ => (0, 0, 0)
  | S754_finite false m e => (1, e, Z.pos m)
  | S754_infinity false => (2, 0, 0)
  end%Z.

Definition lex_compare (a b : Z * Z * Z) : comparison :=
  match (a.1.1 ?= b.1.1)%Z with
  | Eq =>
      match (a.1.2 ?= b.1.2)%Z with
      | Eq => (a.2 ?= b.2)%Z
      | c => c
      end
  | c => c
  end.

(** No position of the text begins [n] digits in a row. *)
Fixpoint sin_racha (n : nat) (l : list ascii) : bool :=
  (length (take_while digit_char l) <? n)%nat
  && match l with
     | [] => true
     | _ :: l' => sin_racha n l'
     end.

(** A continuation that fails on every state whose text is a suffix of [l]. *)
Definition falla_en (k : cont) (l : list ascii) : Prop :=
  forall st, rest st `suffix_of` l -> k st = None.

(** A matcher that can only succeed through its continuation. *)
Definition pasa_por_k (step : matcher) : Prop :=
  forall k st, falla_en k (rest st) -> step k st = None.

(** The patterns of the tokens begin, after an optional sign of money (and
    white space for ESSA), with seven digits in a row. *)
Definition cabeza_de_token (f : familia) (fl : flags) : matcher :=
  match f with
  | Aire => exec fl (Rep 0 (Some 1) true (Lit "$"))
  | Essa => fun k =>
      exec fl (Rep 0 (Some 1) true (Set_ false [CLit "$"]))
           (exec fl (Rep 0 None true (Set_ false [CCat Space])) k)
  end.

Definition patron_de_tokens (f : familia) : string :=
  match f with
  | Aire => AirE.patron_valores_grandes
  | Essa => ESSA.patron_valores
  end.

(** [st'] is [st] after a word of characters of the class [P]; the
    captures keep their number. *)
Definition avanza (P : ascii -> bool) (st st' : mstate) : Prop :=
  exists w, rest st = w ++ rest st'
            /\ pos st' = pos st + length w
            /\ forallb P w = true
            /\ length (caps st') = length (caps st).

(** A matcher that reaches its continuation over characters of [P] only. *)
Definition consume (P : ascii -> bool) (step : matcher) : Prop :=
  forall k st res, step k st = Some res ->
    exists st', avanza P st st' /\ k st' = Some res.

(** Every character that the expression accepts is of the class [P]. *)
Fixpoint solo (P : ascii -> bool) (fl : flags) (r : regex) : Prop :=
  match r with
  | Eps | Bol | Eol => True
  | Lit c => forall x, lit_ok fl c x = true -> P x = true
  | Dot => forall x, dot_ok fl x = true -> P x = true
  | Set_ neg items => forall x, set_ok fl neg items x = true -> P x = true
  | Cat a b | Alt a b => solo P fl a /\ solo P fl b
  | Rep _ _ _ a | Grp _ a | Look a => solo P fl a
  end.

(** The separator of thousands that each family removes from a token. *)
Definition separador (f : familia) : ascii :=
  match f with
  | Aire => "."
  | Essa => ","
  end.

(** The characters of a token: digits and the separator. *)
Definition de_token (f : familia) (c : ascii) : bool :=
  digit_char c || bool_decide (c = separador f).

(** [float(s)] on the numeral of the integer [n]. *)
Definition float_de_entero (n : Z) : float := float_of_ratio false n 1.

(** The integers of the numerals of a text, token by token. *)
Definition enteros (f : familia) (texto : string) : list Z :=
  omap entero_de (numerales f texto).

(** The expression of a word of literal characters, as the parser builds
    it. *)
Fixpoint literales (c : ascii) (w : list ascii) : regex :=
  match w with
  | [] => Lit c
  | d :: w' => Cat (Lit c) (literales d w')
  end.

(** [float] refuses the amount after "Total a pagar mes": the only way for
    air-e's [extraer_totales] to raise. *)
Definition total_rechazado (texto : string) : Prop :=
  exists m, re_search AirE.patron_total_pagar texto IGNORECASE = Some m
            /\ py_float (AirE.sin_separadores (group m 1)) = None.

(** Below 2^53 every integer is a number of binary64. *)
Definition dos53 : Z := 9007199254740992.

Definition suma (ns : list Z) : Z := fold_right Z.add 0%Z ns.

(** A positive number of binary64 in canonical form, 53 bits of mantissa,
    that is the integer [n]. *)
Definition canonico (x : float) (n : Z) : Prop :=
  exists m e, x = S754_finite false m e
              /\ Z.pos (digits2_pos m) = 53%Z
              /\ (-52 <= e <= 0)%Z
              /\ Z.pos m = (n * 2 ^ (- e))%Z.

(** A number of binary64 that is the integer [n], zero or positive. *)
Definition representa (x : float) (n : Z) : Prop :=
  (n = 0%Z /\ x = S754_zero false) \/ canonico x n.

(** A positive number of binary64 with 53 bits of mantissa, and its value
    scaled by 2^200. *)
Definition normal (x : float) (v : Z) : Prop :=
  exists m e, x = S754_finite false m e
              /\ Z.pos (digits2_pos m) = 53%Z
              /\ (-200 <= e <= 200)%Z
              /\ v = (Z.pos m * 2 ^ (e + 200))%Z.

(** The result of rounding a mantissa between 2^52 and 2^53 at an
    exponent: 2^53 is renormalised. *)
Definition normaliza (R E : Z) : float :=
  if (R =? dos53)%Z then S754_finite false 4503599627370496 (E + 1)
  else S754_finite false (Z.to_pos R) E.

(** The capture of group [i], where there is one, has characters of the
    class [P] only. *)
Definition captura_en (P : ascii -> bool) (i : nat) (st : mstate) : Prop :=
  forall s, caps st !! i = Some (Some s) -> forallb P (chars s) = true.

(** Every group [i] of the expression accepts characters of [P] only. *)
Fixpoint grupo_solo (P : ascii -> bool) (fl : flags) (i : nat) (r : regex) : Prop :=
  match r with
  | Grp j a => (j = i -> solo P fl a) /\ grupo_solo P fl i a
  | Cat a b | Alt a b => grupo_solo P fl i a /\ grupo_solo P fl i b
  | Rep _ _ _ a | Look a => grupo_solo P fl i a
  | _ => True
  end.

(** What a match of [r] does between two states: it moves over characters
    of every class that [r] stays in, and it keeps the captures of group
    [i] in the class [P]. *)
Definition traza (P : ascii -> bool) (i : nat) (fl : flags) (r : regex)
    (st st' : mstate) : Prop :=
  (forall Q, solo Q fl r -> avanza Q st st')
  /\ (grupo_solo P fl i r -> captura_en P i st -> captura_en P i st').

(** A matcher that reaches its continuation in a state related by [R]. *)
Definition sigue (R : mstate -> mstate -> Prop) (step : matcher) : Prop :=
  forall k st res, step k st = Some res -> exists st', R st st' /\ k st' = Some res.

(** The digits of a string, in their order. *)
Definition digitos (s : string) : list ascii := List.filter digit_char (chars s).

(** The characters of an amount: digits, comma and point. *)
Definition de_monto (c : ascii) : bool :=
  digit_char c || bool_decide (c = ","%char) || bool_decide (c = "."%char).

(** [float] of a string of digits, [None] when there is none. *)
Definition float_de_digitos (d : list ascii) : option float :=
  match d with
  | [] => None
  | _ => Some (float_de_entero (digits_value d))
  end.

(** A token as the patterns of both families take it: seven digits at
    least, then digits and separators. *)
Definition forma_de_token (f : familia) (tok : string) : bool :=
  (7 <=? length (take_while digit_char (chars tok)))%nat
  && forallb (de_token f) (chars tok).

(** What names a concept of ESSA: number, code, name and unit. *)
Definition identidad (c : gmap string value) : list (option value) :=
  [c !! "numero"; c !! "codigo"; c !! "concepto"; c !! "unidad"].

(** The same of the [i]-th entry of [conceptos_conocidos]. *)
Definition identidad_conocida (i : Z) (k : string * string * string *
                                           (string * string * string * string * string))
  : list (option value) :=
  let '(codigo, nombre, unidad, _) := k in
  [Some (VInt i); Some (VStr codigo); Some (VStr nombre); Some (VStr unidad)].

(** The same of a list of entries, numbered from [i]. *)
Fixpoint identidades (i : nat)
    (l : list (string * string * string * (string * string * string * string * string)))
  : list (list (option value)) :=
  match l with
  | [] => []
  | k :: l' => identidad_conocida (Z.of_nat i) k :: identidades (S i) l'
  end.

(** A concept of air-e's second method: read in a match whose name has
    one of the four words, with a value above zero. *)
Definition concepto_general_de (texto : string) (c : gmap string value) : Prop :=
  exists m valor,
    In m (re_finditer AirE.patron_valores texto no_flags)
    /\ c = AirE.concepto (py_strip (group m 1)) valor
    /\ existsb (fun palabra => py_in palabra (py_upper (group m 1))) AirE.palabras = true
    /\ flt (float_of_Z 0) valor = true.

(** A pattern that matches, at every position, the longest run of
    characters of [P] that begins there, when it has [lo] of them. *)
Definition de_rachas (P : ascii -> bool) (lo : nat) (fl : flags) (re : regex * nat) : Prop :=
  forall p l,
    match_at fl re p l
    = if (lo <=? length (take_while P l))%nat
      then Some {| m_start := p; m_end := p + length (take_while P l);
                   m_groups := [Some (str (take_while P l))] |}
      else None.

(** A space or a tab; a line end. *)
Definition en_blanco (c : ascii) : bool :=
  bool_decide (c = " "%char) || bool_decide (c = tab).

Definition es_salto (c : ascii) : bool := bool_decide (c = newline).

(** The steps of [_limpiar_texto] on the characters: the two
    substitutions, and the lines stripped and joined again. *)
Definition sin_espacios_dobles (l : list ascii) : list ascii :=
  sub_from [" "%char] 0 l (scan no_flags PDFReader.patron_espacios 0 0 l).

Definition sin_saltos_triples (l : list ascii) : list ascii :=
  sub_from [newline; newline] 0 l (scan no_flags (re_compile PDFReader.patron_saltos) 0 0 l).

Definition lineas_recortadas (l : list ascii) : list ascii :=
  join_with [newline] (map py_strip (split_lines [] l)).


(** A text as [_limpiar_texto] leaves it. *)
Definition limpio (s : string) : bool :=
  negb (py_in (String nul "") s)
  && negb (py_in (String tab "") s)
  && negb (py_in "  " s)
  && negb (py_in (String newline (String newline (String newline ""))) s)
  && forallb (fun linea => String.eqb (py_strip linea) linea) (py_split_nl s).

(** Two spaces; three line ends. *)
Definition dos_espacios : list ascii := [" "%char; " "%char].
Definition tres_saltos : list ascii := [newline; newline; newline].

(** A line without white space at its ends. *)
Definition recortada (s : string) : Prop := py_strip s = s.

(** A text made of cleaned pages: as a clean text, but that it may have
    three line ends in a row where two pages meet. *)
Definition de_paginas_limpias (s : string) : bool :=
  negb (py_in (String nul "") s)
  && negb (py_in (String tab "") s)
  && negb (py_in "  " s)
  && forallb (fun linea => String.eqb (py_strip linea) linea) (py_split_nl s).

(** A library whose import has failed. *)
Definition sin_libreria : PDFReader.libreria :=
  {| PDFReader.disponible := false; PDFReader.paginas := None |}.

(** An entry of ESSA's codes: "codigo_" and digits, for a text without
    an opening parenthesis. *)
Definition codigo_essa (k : string) (v : value) : Prop :=
  exists d s, k = "codigo_" +:+ d
              /\ forallb digit_char (chars d) = true
              /\ v = VStr s
              /\ py_in "(" s = false.

(** An entry of air-e's codes: digits, or the mark of the bar code. *)
Definition codigo_aire (k : string) (v : value) : Prop :=
  exists s, v = VStr s
            /\ (((exists resto, k = "codigo_" +:+ resto)
                 /\ forallb digit_char (chars s) = true)
                \/ (k = "tiene_codigo_barras" /\ s = "Si")).

(** No position of the text begins [n] characters of [P] in a row. *)
Fixpoint sin_racha_de (P : ascii -> bool) (n : nat) (l : list ascii) : bool :=
  (length (take_while P l) <? n)%nat
  && match l with
     | [] => true
     | _ :: l' => sin_racha_de P n l'
     end.

(** The vertical bar, ten of them, and every character but the opening
    parenthesis. *)
Definition es_barra (c : ascii) : bool := bool_decide (c = "|"%char).

Definition diez_barras : string := "||||||||||".

Definition sin_parentesis (c : ascii) : bool := negb (bool_decide (c = "("%char)).

(** * Properties *)

(** ** The catalogue *)

(** [re.compile] accepts every pattern of both catalogues: no search of
    the extractors meets a pattern outside the syntax modelled here. *)
Lemma catalogo_bien_formado :
  forallb (fun p => bool_decide (is_Some (re_parse p))) (ESSA.catalogo ++ AirE.catalogo) = true.
Proof. vm_compute. reflexivity. Qed.

(** ** The exception monad and the conditional assignments *)

Lemma bind_Ok {A B} (m : result A) (k : A -> result B) (b : B) :
  m ≫= k = Ok b -> exists a, m = Ok a /\ k a = Ok b.
Proof. destruct m as [a|e]; simpl; [eauto | discriminate]. Qed.

Lemma bind_Ok_l {A B} (a : A) (k : A -> result B) : Ok a ≫= k = k a.
Proof. reflexivity. Qed.

Lemma list_empty_false {A} (l : list A) : l <> [] -> list_empty l = false.
Proof. destruct l; simpl; congruence. Qed.

Lemma list_empty_true {A} (l : list A) : list_empty l = true -> l = [].
Proof. destruct l; simpl; congruence. Qed.

(** An assignment under [if match:] leaves the other keys as they are. *)
Lemma lookup_if_match_ne (mo : option match_obj) (k key : string)
    (v : match_obj -> value) (d : gmap string value) :
  k <> key ->
  if_match mo (fun m => <[k := v m]>) d !! key = d !! key.
Proof.
  intros Hne. destruct mo as [m|]; simpl; [|reflexivity].
  apply lookup_insert_ne, Hne.
Qed.

Lemma lookup_if_match2_ne (mo : option match_obj) (k1 k2 key : string)
    (v1 v2 : match_obj -> value) (d : gmap string value) :
  k1 <> key -> k2 <> key ->
  if_match mo (fun m d => <[k2 := v2 m]> (<[k1 := v1 m]> d)) d !! key = d !! key.
Proof.
  intros H1 H2. destruct mo as [m|]; simpl; [|reflexivity].
  rewrite !lookup_insert_ne by assumption. reflexivity.
Qed.

Lemma last_of_map (g : string -> string) (l : list string) :
  l <> [] -> last_of (map g l) = g (last_of l).
Proof.
  unfold last_of. induction l as [|a [|b l] IH]; intros Hl; [congruence|reflexivity|].
  change (List.last (map g (b :: l)) "" = g (List.last (b :: l) "")).
  apply IH. discriminate.
Qed.

(** ** The empty text (C1) *)

Lemma extraer_todos_vacio (f : familia) :
  extraer_todos f "" = Ok (datos_sin_coincidencias f).
Proof. destruct f; reflexivity. Qed.

Lemma reserva_no_vacia (f : familia) :
  section_empty (Items (conceptos_de_reserva f)) = false.
Proof. destruct f; reflexivity. Qed.

(** C1, as the specification states it, fails: on the empty text the
    extraction of the ESSA family (and of the air-e family) returns a
    dictionary whose section of billed concepts is not empty. *)
Lemma C1_texto_vacio_deja_conceptos :
  ~ (forall f, exists datos, extraer_todos f "" = Ok datos /\ todas_vacias datos).
Proof.
  intros H. destruct (H Essa) as (datos & Hdatos & Hvacias).
  rewrite extraer_todos_vacio in Hdatos. injection Hdatos as <-.
  specialize (Hvacias "conceptos_facturados" (Items (conceptos_de_reserva Essa))).
  rewrite reserva_no_vacia in Hvacias.
  discriminate Hvacias. apply lookup_insert_eq.
Qed.

(** C1 (amended): for both catalogues the extraction of the empty text
    raises nothing and returns a dictionary with every section of the
    family as a key; each section is the empty dictionary, but for the
    billed concepts, which are the four concepts of the known invoice. *)
Theorem C1_extraccion_del_texto_vacio (f : familia) :
  exists datos,
    extraer_todos f "" = Ok datos
    /\ dom datos = secciones f
    /\ datos !! "conceptos_facturados" = Some (Items (conceptos_de_reserva f))
    /\ length (conceptos_de_reserva f) = 4
    /\ forall k, k ∈ secciones f -> k <> "conceptos_facturados" ->
         datos !! k = Some (Fields ∅).
Proof.
  exists (datos_sin_coincidencias f). split; [apply extraer_todos_vacio|].
  unfold datos_sin_coincidencias. repeat split.
  - rewrite dom_insert_L, dom_gset_to_gmap. destruct f; set_solver.
  - apply lookup_insert_eq.
  - destruct f; reflexivity.
  - intros k Hk Hne. rewrite lookup_insert_ne by congruence.
    apply lookup_gset_to_gmap_Some. split; [exact Hk | reflexivity].
Qed.

(** ** Captures that are not numbers (C2) *)

(** C2: the air-e extraction of a text whose amount after "TOTAL A PAGAR"
    is a lone point raises [ValueError] in
    [extraer_informacion_general], where [float] is not guarded, and
    [main] ends in its handler of unexpected errors, without a dictionary;
    the ESSA extraction does the same on a lone comma. *)
Theorem C2_captura_sin_digitos_aborta :
  extraer_todos Aire "TOTAL A PAGAR ." = Raise ValueError
  /\ main Aire (Some "TOTAL A PAGAR .") = ErrorInesperado ValueError
  /\ extraer_todos Essa "TOTAL A PAGAR ," = Raise ValueError
  /\ main Essa (Some "TOTAL A PAGAR ,") = ErrorInesperado ValueError.
Proof. repeat split; reflexivity. Qed.

(** ** One line of the ESSA table (C5) *)

(** C5: on the line of nine fields the extraction of the billed concepts
    returns one concept, with the fields of the specification; the parser
    of a line of the table region reads the same concept in it. *)
Theorem C5_linea_de_nueve_campos :
  let linea := "1 672 CPROG Peso 79059512.0000 1 0 0 79059512" in
  let concepto :=
    linea_essa 1 "672" "CPROG" "Peso"
      (float_of_Z 79059512) (float_of_Z 1) (float_of_Z 0) (float_of_Z 0)
      (float_of_Z 79059512) in
  ESSA.extraer_conceptos_facturados linea = Ok [concepto]
  /\ ESSA.parse_linea linea [] = Ok [concepto]
  /\ concepto !! "numero" = Some (VInt 1)
  /\ concepto !! "codigo" = Some (VStr "672")
  /\ concepto !! "valor_unidad" = Some (VFloat (float_of_Z 79059512))
  /\ concepto !! "cantidad" = Some (VFloat (float_of_Z 1))
  /\ concepto !! "iva" = Some (VFloat (float_of_Z 0))
  /\ concepto !! "saldo" = Some (VFloat (float_of_Z 0))
  /\ concepto !! "valor_mes" = Some (VFloat (float_of_Z 79059512)).
Proof. repeat split; reflexivity. Qed.

(** ** No text (C7) *)

(** C7: when the text is absent or empty, [main] ends with [SinTexto]
    and builds no extractor; every other text reaches the extraction, so
    [SinTexto] is never the outcome of an extraction, whatever it found. *)
Theorem C7_sin_texto_no_hay_extraccion (f : familia) (texto_completo : option string) :
  (texto_completo = None \/ texto_completo = Some "" <-> main f texto_completo = SinTexto)
  /\ (forall datos, main f texto_completo = Extraido datos ->
        exists texto, texto_completo = Some texto /\ texto <> ""
                      /\ extraer_todos f texto = Ok datos).
Proof.
  unfold main. split; [split|].
  - intros [-> | ->]; reflexivity.
  - destruct texto_completo as [[|c texto]|]; simpl; auto.
    destruct (extraer_todos f (String c texto)); discriminate.
  - intros datos. destruct texto_completo as [[|c texto]|]; simpl; try discriminate.
    destruct (extraer_todos f (String c texto)) eqn:E; try discriminate.
    intros [= <-]. exists (String c texto). repeat split; [discriminate | exact E].
Qed.

Lemma C7_sin_texto_no_hay_extraccion_testigo :
  main Essa None = SinTexto
  /\ main Essa (Some "") = SinTexto
  /\ main Essa (Some "NIC") <> SinTexto.
Proof.
  split; [|split].
  - exact (proj1 (proj1 (C7_sin_texto_no_hay_extraccion Essa None)) (or_introl eq_refl)).
  - exact (proj1 (proj1 (C7_sin_texto_no_hay_extraccion Essa (Some "")))
             (or_intror eq_refl)).
  - intros H.
    destruct (proj2 (proj1 (C7_sin_texto_no_hay_extraccion Essa (Some "NIC"))) H)
      as [H0|H0]; discriminate H0.
Defined.

(** ** The order of the methods for the billed concepts (C3) *)

(** C3: when the first method (the search under the heading of the table)
    returns at least one concept, [extraer_conceptos_facturados] returns
    that list: the scan of the whole text and the concepts of the known
    invoice add nothing to it. *)
Theorem C3_primer_metodo_prevalece (f : familia) (texto : string)
    (conceptos : list (gmap string value)) :
  primer_metodo f texto = Ok conceptos ->
  conceptos <> [] ->
  conceptos_facturados f texto = Ok conceptos.
Proof.
  intros Hprimero Hno_vacio.
  destruct f; simpl in Hprimero; simpl;
    [unfold AirE.extraer_conceptos_facturados | unfold ESSA.extraer_conceptos_facturados];
    rewrite Hprimero, bind_Ok_l.
  - rewrite !(list_empty_false conceptos Hno_vacio). reflexivity.
  - rewrite (list_empty_false conceptos Hno_vacio), bind_Ok_l.
    rewrite (list_empty_false conceptos Hno_vacio). reflexivity.
Qed.

Lemma C3_primer_metodo_prevalece_testigo :
  let texto :=
    "Detalle del cobro Conceptos facturados Valores Peaje No Regulado $1.234,56" in
  let conceptos := [AirE.concepto "Peaje No Regulado" (float_of_ratio false 123456 100)] in
  primer_metodo Aire texto = Ok conceptos
  /\ conceptos <> []
  /\ conceptos_facturados Aire texto = Ok conceptos.
Proof.
  intros texto conceptos.
  assert (Hprimero : primer_metodo Aire texto = Ok conceptos) by reflexivity.
  assert (Hno_vacio : conceptos <> []) by discriminate.
  exact (conj Hprimero (conj Hno_vacio
           (C3_primer_metodo_prevalece Aire texto conceptos Hprimero Hno_vacio))).
Defined.

(** ** The first rule of a field wins (C8) *)

Lemma nombre_de_la_regla_primaria (texto : string) (m : match_obj) :
  re_search AirE.patron_cliente texto no_flags = Some m ->
  exists datos,
    AirE.extraer_datos_cliente texto = Ok datos
    /\ datos !! "nombre" = Some (VStr (py_strip (group m 1))).
Proof.
  intros Hprimaria.
  unfold AirE.extraer_datos_cliente. rewrite Hprimaria.
  eexists. split; [reflexivity|].
  cbn [if_match]. rewrite lookup_insert_eq.
  rewrite !lookup_if_match_ne by discriminate.
  apply lookup_insert_eq.
Qed.

Lemma niu_de_la_regla_primaria (texto : string) (m : match_obj) :
  re_search ESSA.patron_niu texto IGNORECASE = Some m ->
  exists datos,
    ESSA.extraer_datos_cliente texto = Ok datos
    /\ datos !! "codigo_cuenta_niu" = Some (VStr (group m 1)).
Proof.
  intros Hprimaria.
  unfold ESSA.extraer_datos_cliente. rewrite Hprimaria.
  eexists. split; [reflexivity|].
  cbn [if_match]. rewrite lookup_insert_eq. apply lookup_insert_eq.
Qed.

(** C8: when the first pattern of the customer field matches (the name
    after "Cliente:" for air-e, the account after "Código Cuenta-NIU" for
    ESSA), the field holds the capture of that match, whether or not the
    alternate pattern matches too. *)
Theorem C8_regla_primaria_prevalece (f : familia) (texto : string) (m : match_obj) :
  re_search (fst (regla_primaria f)) texto (snd (regla_primaria f)) = Some m ->
  exists datos,
    datos_cliente f texto = Ok datos
    /\ datos !! campo_cliente f = Some (valor_primario f m).
Proof.
  destruct f; intros Hprimaria.
  - exact (nombre_de_la_regla_primaria texto m Hprimaria).
  - exact (niu_de_la_regla_primaria texto m Hprimaria).
Qed.

Lemma C8_regla_primaria_prevalece_testigo :
  let texto := "Cliente: ACME
GENERADORA Y COMERCIALIZADORA DE ENERGIA DEL CARIBE" in
  exists m,
    re_search (fst (regla_primaria Aire)) texto (snd (regla_primaria Aire)) = Some m
    /\ is_Some (re_search (fst (regla_alterna Aire)) texto (snd (regla_alterna Aire)))
    /\ valor_primario Aire m = VStr "ACME"
    /\ exists datos,
         datos_cliente Aire texto = Ok datos
         /\ datos !! campo_cliente Aire = Some (valor_primario Aire m).
Proof.
  intros texto.
  exists {| m_start := 0; m_end := 13;
            m_groups := [Some "Cliente: ACME"; Some "ACME"] |}.
  assert (Hprimaria :
    re_search (fst (regla_primaria Aire)) texto (snd (regla_primaria Aire))
    = Some {| m_start := 0; m_end := 13;
              m_groups := [Some "Cliente: ACME"; Some "ACME"] |}) by reflexivity.
  split; [exact Hprimaria|]. split; [vm_compute; eauto|]. split; [reflexivity|].
  exact (C8_regla_primaria_prevalece Aire texto _ Hprimaria).
Defined.

(** ** The last "TOTAL A PAGAR" (C9) *)

Lemma total_pagar_aire (texto : string) :
  re_findall AirE.patron_total texto IGNORECASE <> [] ->
  match py_float (AirE.sin_separadores
                    (last_of (re_findall AirE.patron_total texto IGNORECASE))) with
  | Some v =>
      exists info,
        AirE.extraer_informacion_general texto = Ok info
        /\ info !! "total_pagar" = Some (VFloat v)
  | None => AirE.extraer_informacion_general texto = Raise ValueError
  end.
Proof.
  intros Hhay. unfold AirE.extraer_informacion_general.
  rewrite (list_empty_false _ Hhay). unfold float_.
  destruct (py_float (AirE.sin_separadores
              (last_of (re_findall AirE.patron_total texto IGNORECASE)))) as [v|];
    [|reflexivity].
  rewrite !bind_Ok_l.
  eexists. split; [reflexivity|].
  rewrite !lookup_if_match_ne by discriminate. apply lookup_insert_eq.
Qed.

Lemma total_pagar_essa (texto : string) :
  re_findall ESSA.patron_total texto IGNORECASE <> [] ->
  match py_float (py_replace "," ""
                    (last_of (re_findall ESSA.patron_total texto IGNORECASE))) with
  | Some v =>
      exists info,
        ESSA.extraer_informacion_general texto = Ok info
        /\ info !! "total_pagar" = Some (VFloat v)
  | None => ESSA.extraer_informacion_general texto = Raise ValueError
  end.
Proof.
  intros Hhay. unfold ESSA.extraer_informacion_general.
  rewrite (list_empty_false _ Hhay). unfold float_.
  destruct (py_float (py_replace "," ""
              (last_of (re_findall ESSA.patron_total texto IGNORECASE)))) as [v|];
    [|reflexivity].
  rewrite !bind_Ok_l.
  eexists. split; [reflexivity|]. apply lookup_insert_eq.
Qed.

(** C9: when the text has occurrences of the amount after "TOTAL A
    PAGAR", the last of them decides [total_pagar]: the field is the
    number read in the last capture, and when [float] refuses that capture
    the method raises; no earlier occurrence is consulted. *)
Theorem C9_total_pagar_es_la_ultima (f : familia) (texto : string) :
  ocurrencias_total f texto <> [] ->
  match valor_total f (last_of (ocurrencias_total f texto)) with
  | Some v =>
      exists info,
        informacion_general f texto = Ok info
        /\ info !! "total_pagar" = Some (VFloat v)
  | None => informacion_general f texto = Raise ValueError
  end.
Proof.
  destruct f; intros Hhay.
  - exact (total_pagar_aire texto Hhay).
  - exact (total_pagar_essa texto Hhay).
Qed.

Lemma C9_total_pagar_es_la_ultima_testigo :
  let texto := "TOTAL A PAGAR $ 1,000
Total a pagar 2,500" in
  ocurrencias_total Essa texto = ["1,000"; "2,500"]
  /\ valor_total Essa "2,500" = Some (float_of_Z 2500)
  /\ exists info,
       informacion_general Essa texto = Ok info
       /\ info !! "total_pagar" = Some (VFloat (float_of_Z 2500)).
Proof.
  intros texto.
  assert (Hhay : ocurrencias_total Essa texto <> []) by (vm_compute; discriminate).
  split; [reflexivity|]. split; [reflexivity|].
  exact (C9_total_pagar_es_la_ultima Essa texto Hhay).
Defined.

(** ** Binary64 order *)

(** No rounding of a non-negative mantissa is NaN. *)
Lemma shr_1_nonneg (mrs : shr_record) :
  (0 <= shr_m mrs)%Z -> (0 <= shr_m (shr_1 mrs))%Z.
Proof. destruct mrs as [[|[p|p|]|p] r s]; simpl; lia. Qed.

Lemma iter_shr_1_nonneg (n : positive) (mrs : shr_record) :
  (0 <= shr_m mrs)%Z -> (0 <= shr_m (SpecFloat.iter_pos shr_1 n mrs))%Z.
Proof.
  revert mrs. induction n as [n IH|n IH|]; intros mrs H; simpl.
  - apply IH, IH, shr_1_nonneg, H.
  - apply IH, IH, H.
  - apply shr_1_nonneg, H.
Qed.

Lemma shr_fexp_nonneg (m e : Z) (l : location) :
  (0 <= m)%Z -> (0 <= shr_m (fst (shr_fexp prec emax m e l)))%Z.
Proof.
  intros H. unfold shr_fexp, shr.
  assert (H0 : (0 <= shr_m (shr_record_of_loc m l))%Z) by (destruct l as [|[]]; exact H).
  destruct (fexp prec emax (Zdigits2 m + e) - e)%Z; simpl;
    auto using iter_shr_1_nonneg.
Qed.

Lemma round_nearest_even_nonneg (m : Z) (l : location) :
  (0 <= m)%Z -> (0 <= round_nearest_even m l)%Z.
Proof. intros H. destruct l as [|[]]; simpl; try destruct (Z.even m); lia. Qed.

Lemma binary_round_aux_numero (s : bool) (m e : Z) (l : location) :
  (0 <= m)%Z -> es_numero (binary_round_aux prec emax s m e l).
Proof.
  intros H. unfold es_numero, binary_round_aux.
  pose proof (shr_fexp_nonneg m e l H) as H1.
  destruct (shr_fexp prec emax m e l) as [mrs1 e1]. simpl in H1.
  pose proof (shr_fexp_nonneg _ e1 loc_Exact
                (round_nearest_even_nonneg _ (loc_of_shr_record mrs1) H1)) as H2.
  destruct (shr_fexp prec emax
              (round_nearest_even (shr_m mrs1) (loc_of_shr_record mrs1)) e1 loc_Exact)
    as [mrs2 e2]. simpl in H2.
  destruct (shr_m mrs2); [discriminate | | lia].
  destruct (e2 <=? emax - prec)%Z; discriminate.
Qed.

Lemma float_of_ratio_numero (neg : bool) (p q : Z) :
  (0 <= p)%Z -> (0 < q)%Z -> es_numero (float_of_ratio neg p q).
Proof.
  intros Hp Hq. unfold float_of_ratio.
  destruct p as [|p|p]; [discriminate | | lia].
  unfold SFdiv_core_binary.
  set (s := (0 - 0 - _)%Z).
  set (m' := match s with Z0 => Z.pos p | Z.pos _ => Z.shiftl (Z.pos p) s | Z.neg _ => 0%Z end).
  assert (Hm' : (0 <= m')%Z).
  { subst m'. destruct s; [lia | | lia]. apply Z.shiftl_nonneg. lia. }
  pose proof (Z_div_mod m' q ltac:(lia)) as Hdiv.
  destruct (Z.div_eucl m' q) as [c r]. destruct Hdiv as [Heq Hr].
  apply binary_round_aux_numero. nia.
Qed.

Lemma forallb_take_while (p : ascii -> bool) (l : list ascii) :
  forallb p (take_while p l) = true.
Proof.
  induction l as [|c l IH]; simpl; [reflexivity|].
  destruct (p c) eqn:E; simpl; [rewrite E; exact IH | reflexivity].
Qed.

Lemma fold_digits_nonneg (l : list ascii) (acc : Z) :
  (0 <= acc)%Z -> forallb digit_char l = true ->
  (0 <= fold_left (fun a c => 10 * a + digit_value c) l acc)%Z.
Proof.
  revert acc. induction l as [|c l IH]; simpl; intros acc Hacc H; [exact Hacc|].
  apply andb_prop in H as [Hc Hl]. apply IH; [|exact Hl].
  unfold digit_char, is_digit, between in Hc. unfold digit_value.
  apply andb_prop in Hc as [H1 _]. apply N.leb_le in H1. lia.
Qed.

Lemma digits_value_nonneg (l : list ascii) :
  forallb digit_char l = true -> (0 <= digits_value l)%Z.
Proof. apply fold_digits_nonneg. lia. Qed.

(** [float] never reads NaN in a string of digits. *)
Lemma py_float_numero (s : string) (v : float) :
  py_float s = Some v -> es_numero v.
Proof.
  unfold py_float.
  destruct (match chars s with
            | "-"%char :: t => (true, t)
            | "+"%char :: t => (false, t)
            | _ => (false, chars s)
            end) as [neg l1].
  pose proof (forallb_take_while digit_char l1) as Hip.
  destruct (drop_while digit_char l1) as [|c l3].
  - destruct (list_empty (take_while digit_char l1)); [discriminate|].
    intros [= <-]. apply float_of_ratio_numero; [|lia].
    apply digits_value_nonneg, Hip.
  - destruct (ascii_dec c ".") as [->|Hc].
    + pose proof (forallb_take_while digit_char l3) as Hfp.
      destruct (drop_while digit_char l3); [|discriminate].
      destruct (list_empty (take_while digit_char l1) && list_empty (take_while digit_char l3));
        [discriminate|].
      intros [= <-]. apply float_of_ratio_numero.
      * apply digits_value_nonneg. rewrite forallb_app, Hip, Hfp. reflexivity.
      * apply Z.pow_pos_nonneg; lia.
    + destruct c as [[] [] [] [] [] [] [] []]; try discriminate. congruence.
Qed.

Lemma SFcompare_orden (x y : float) :
  es_numero x -> es_numero y ->
  SFcompare x y = Some (lex_compare (orden x) (orden y)).
Proof.
  unfold es_numero, lex_compare.
  destruct x as [sx|sx| |sx mx ex], y as [sy|sy| |sy my ey]; try congruence; intros _ _;
    destruct sx, sy; try reflexivity; cbn [SFcompare orden fst snd].
  rewrite Z.compare_refl, Z.compare_opp, (Z.compare_antisym ex ey).
  destruct (ex ?= ey)%Z; reflexivity.
Qed.

Lemma lex_compare_refl (a : Z * Z * Z) : lex_compare a a = Eq.
Proof. unfold lex_compare. rewrite !Z.compare_refl. reflexivity. Qed.

Lemma lex_compare_antisym (a b : Z * Z * Z) :
  lex_compare b a = CompOpp (lex_compare a b).
Proof.
  unfold lex_compare.
  rewrite (Z.compare_antisym a.1.1), (Z.compare_antisym a.1.2), (Z.compare_antisym a.2).
  destruct (a.1.1 ?= b.1.1)%Z; cbn [CompOpp]; try reflexivity.
  destruct (a.1.2 ?= b.1.2)%Z; reflexivity.
Qed.

Lemma lex_compare_trans (a b c : Z * Z * Z) :
  lex_compare a b <> Gt -> lex_compare b c <> Gt -> lex_compare a c <> Gt.
Proof.
  unfold lex_compare.
  destruct (Z.compare_spec a.1.1 b.1.1), (Z.compare_spec b.1.1 c.1.1),
    (Z.compare_spec a.1.1 c.1.1); try congruence; try lia;
    destruct (Z.compare_spec a.1.2 b.1.2), (Z.compare_spec b.1.2 c.1.2),
      (Z.compare_spec a.1.2 c.1.2); try congruence; try lia;
    destruct (Z.compare_spec a.2 b.2), (Z.compare_spec b.2 c.2),
      (Z.compare_spec a.2 c.2); try congruence; lia.
Qed.

Lemma fle_numeros (x y : float) : fle x y = true -> es_numero x /\ es_numero y.
Proof.
  unfold fle, SFleb, es_numero.
  destruct x as [sx|sx| |sx mx ex], y as [sy|sy| |sy my ey]; simpl;
    try discriminate; split; discriminate.
Qed.

Lemma fle_refl (x : float) : es_numero x -> fle x x = true.
Proof.
  intros H. unfold fle, SFleb.
  rewrite (SFcompare_orden x x H H), lex_compare_refl. reflexivity.
Qed.

Lemma flt_fle (x y : float) : flt x y = true -> fle x y = true.
Proof. unfold flt, fle, SFltb, SFleb. destruct (SFcompare x y) as [[]|]; congruence. Qed.

Lemma not_flt_fle (x y : float) :
  es_numero x -> es_numero y -> flt x y = false -> fle y x = true.
Proof.
  intros Hx Hy. unfold flt, fle, SFltb, SFleb.
  rewrite (SFcompare_orden x y Hx Hy), (SFcompare_orden y x Hy Hx).
  rewrite (lex_compare_antisym (orden x) (orden y)).
  destruct (lex_compare (orden x) (orden y)); cbn [CompOpp]; congruence.
Qed.

Lemma fle_trans (x y z : float) :
  fle x y = true -> fle y z = true -> fle x z = true.
Proof.
  intros Hxy Hyz.
  destruct (fle_numeros x y Hxy) as [Hx Hy]. destruct (fle_numeros y z Hyz) as [_ Hz].
  revert Hxy Hyz. unfold fle, SFleb.
  rewrite (SFcompare_orden x y Hx Hy), (SFcompare_orden y z Hy Hz),
    (SFcompare_orden x z Hx Hz).
  intros Hxy Hyz.
  pose proof (lex_compare_trans (orden x) (orden y) (orden z)) as Ht.
  destruct (lex_compare (orden x) (orden y)), (lex_compare (orden y) (orden z)),
    (lex_compare (orden x) (orden z)); try reflexivity; try discriminate;
    exfalso; apply Ht; congruence.
Qed.

(** [max] and [min] of a list of numbers: an item of the list that bounds
    every item. *)
Lemma py_max_spec (l : list float) (x : float) :
  Forall es_numero (x :: l) ->
  py_max x l ∈ x :: l /\ forall v, v ∈ x :: l -> fle v (py_max x l) = true.
Proof.
  unfold py_max. revert x. induction l as [|y l IH]; intros x Hnum.
  - simpl. split; [left|]. intros v Hv. apply list_elem_of_singleton in Hv as ->.
    apply fle_refl. inversion Hnum; assumption.
  - inversion Hnum as [|? ? Hx Hyl]; subst. inversion Hyl as [|? ? Hy Hl]; subst.
    cbn [fold_left]. destruct (flt x y) eqn:E.
    + destruct (IH y Hyl) as [Hin Hle]. split; [right; exact Hin|].
      intros v Hv. apply elem_of_cons in Hv as [->|Hv]; [|apply Hle, Hv].
      apply (fle_trans _ y); [apply flt_fle, E | apply Hle; left].
    + destruct (IH x ltac:(constructor; assumption)) as [Hin Hle]. split.
      * apply elem_of_cons in Hin as [->|Hin]; [left | right; right; exact Hin].
      * intros v Hv. apply elem_of_cons in Hv as [->|Hv]; [apply Hle; left|].
        apply elem_of_cons in Hv as [->|Hv]; [|apply Hle; right; exact Hv].
        apply (fle_trans _ x); [apply not_flt_fle; assumption | apply Hle; left].
Qed.

Lemma py_min_spec (l : list float) (x : float) :
  Forall es_numero (x :: l) ->
  py_min x l ∈ x :: l /\ forall v, v ∈ x :: l -> fle (py_min x l) v = true.
Proof.
  unfold py_min. revert x. induction l as [|y l IH]; intros x Hnum.
  - simpl. split; [left|]. intros v Hv. apply list_elem_of_singleton in Hv as ->.
    apply fle_refl. inversion Hnum; assumption.
  - inversion Hnum as [|? ? Hx Hyl]; subst. inversion Hyl as [|? ? Hy Hl]; subst.
    cbn [fold_left]. destruct (flt y x) eqn:E.
    + destruct (IH y Hyl) as [Hin Hle]. split; [right; exact Hin|].
      intros v Hv. apply elem_of_cons in Hv as [->|Hv]; [|apply Hle, Hv].
      apply (fle_trans _ y); [apply Hle; left | apply flt_fle, E].
    + destruct (IH x ltac:(constructor; assumption)) as [Hin Hle]. split.
      * apply elem_of_cons in Hin as [->|Hin]; [left | right; right; exact Hin].
      * intros v Hv. apply elem_of_cons in Hv as [->|Hv]; [apply Hle; left|].
        apply elem_of_cons in Hv as [->|Hv]; [|apply Hle; right; exact Hv].
        apply (fle_trans _ x); [apply Hle; left | apply not_flt_fle; assumption].
Qed.

(** ** The totals *)

(** The shape of what [extraer_totales] returns: the statistics of the
    values over a dictionary that has none of their keys. *)
Lemma aire_totales_forma (texto : string) (t : gmap string value) :
  AirE.extraer_totales texto = Ok t ->
  exists base : gmap string value,
    Forall (fun k => base !! k = None) claves_estadisticas
    /\ t = if list_empty (AirE.tokens texto) then base
           else AirE.estadisticas (AirE.valores_de (AirE.tokens texto)) base.
Proof.
  unfold AirE.extraer_totales. intros H.
  apply bind_Ok in H as (t1 & H1 & H).
  apply bind_Ok in H as (t2 & H2 & H).
  injection H as <-. exists t2. split; [|reflexivity].
  assert (Ht1 : Forall (fun k => t1 !! k = None) claves_estadisticas).
  { destruct (re_search AirE.patron_total_pagar texto IGNORECASE) as [m|];
      cbn [if_match_r] in H1.
    - apply bind_Ok in H1 as (v & _ & H1). injection H1 as <-.
      repeat constructor; rewrite lookup_insert_ne by discriminate; apply lookup_empty.
    - injection H1 as <-. repeat constructor; apply lookup_empty. }
  destruct (list_empty (re_findall AirE.patron_total_general texto no_flags)).
  - injection H2 as <-. exact Ht1.
  - apply bind_Ok in H2 as (v & _ & H2). injection H2 as <-.
    unfold claves_estadisticas in *.
    repeat match goal with H : Forall _ (_ :: _) |- _ => inversion H; subst; clear H end.
    repeat constructor; rewrite lookup_insert_ne by discriminate; assumption.
Qed.

Lemma essa_totales_forma (texto : string) (t : gmap string value) :
  ESSA.extraer_totales texto = Ok t ->
  if list_empty (ESSA.tokens texto) then t = ∅
  else exists v vs,
         ESSA.valores_de (ESSA.tokens texto) = Ok (v :: vs)
         /\ t = con_estadisticas v vs ∅.
Proof.
  unfold ESSA.extraer_totales. intros H.
  apply bind_Ok in H as (t1 & H1 & H). injection H as <-.
  destruct (list_empty (ESSA.tokens texto)).
  - injection H1 as <-. reflexivity.
  - apply bind_Ok in H1 as ([|v vs] & Hv & H1); [discriminate|]. injection H1 as <-.
    exists v, vs. split; [exact Hv | reflexivity].
Qed.

(** What the statistics store. *)
Lemma estadisticas_campos (v : float) (vs : list float) (base : gmap string value) :
  let t := con_estadisticas v vs base in
  t !! "valores_encontrados" = Some (VFloats (v :: vs))
  /\ t !! "valor_maximo" = Some (VFloat (py_max v vs))
  /\ t !! "valor_minimo" = Some (VFloat (py_min v vs))
  /\ t !! "promedio_valores"
     = Some (VFloat (fdiv (py_sum (v :: vs)) (float_of_Z (Z.of_nat (length (v :: vs)))))).
Proof.
  unfold con_estadisticas. repeat split;
    repeat (rewrite lookup_insert_ne by discriminate); apply lookup_insert_eq.
Qed.

(** Without the statistics no key of theirs is there. *)
Lemma estadisticas_sin_valores (valores : list float) (base : gmap string value) (l : list float) :
  Forall (fun k => base !! k = None) claves_estadisticas ->
  AirE.estadisticas valores base !! "valores_encontrados" = Some (VFloats l) ->
  valores = l /\ l <> [].
Proof.
  intros Hbase. destruct valores as [|v vs].
  - simpl. inversion Hbase as [|? ? H0 _]; subst. rewrite H0. discriminate.
  - cbn [AirE.estadisticas]. destruct (estadisticas_campos v vs base) as (-> & _).
    intros [= <-]. split; [reflexivity | discriminate].
Qed.

(** The values are numbers. *)
Lemma essa_valores_numeros (matches : list string) (valores : list float) :
  ESSA.valores_de matches = Ok valores -> Forall es_numero valores.
Proof.
  revert valores. induction matches as [|m ms IH]; simpl; intros valores H.
  - injection H as <-. constructor.
  - apply bind_Ok in H as (v & Hv & H). apply bind_Ok in H as (vs & Hvs & H).
    injection H as <-. constructor; [|apply IH, Hvs].
    unfold float_ in Hv. destruct (py_float (py_replace "," "" m)) eqn:E; [|discriminate].
    injection Hv as <-. exact (py_float_numero _ _ E).
Qed.

Lemma aire_valores_numeros (matches : list string) :
  Forall es_numero (AirE.valores_de matches).
Proof.
  unfold AirE.valores_de.
  enough (H : forall acc, Forall es_numero acc ->
              Forall es_numero
                (fold_left (fun valores m =>
                              match py_float (py_replace "." "" m) with
                              | Some valor => valores ++ [valor]
                              | None => valores
                              end) matches acc)) by (apply H; constructor).
  induction matches as [|m ms IH]; simpl; intros acc Hacc; [exact Hacc|].
  apply IH. destruct (py_float (py_replace "." "" m)) eqn:E; [|exact Hacc].
  apply Forall_app. split; [exact Hacc|]. repeat constructor.
  exact (py_float_numero _ _ E).
Qed.

(** The statistics of both families, read in the dictionary of totals. *)
Lemma totales_estadisticas (f : familia) (texto : string) (t : gmap string value)
    (valores : list float) :
  totales f texto = Ok t ->
  t !! "valores_encontrados" = Some (VFloats valores) ->
  exists v vs,
    valores = v :: vs
    /\ valores_del_texto f texto = Ok valores
    /\ Forall es_numero valores
    /\ t !! "valor_maximo" = Some (VFloat (py_max v vs))
    /\ t !! "valor_minimo" = Some (VFloat (py_min v vs))
    /\ t !! "promedio_valores"
       = Some (VFloat (fdiv (py_sum valores) (float_of_Z (Z.of_nat (length valores))))).
Proof.
  destruct f; simpl; intros Ht Hvalores.
  - apply aire_totales_forma in Ht as (base & Hbase & ->).
    destruct (list_empty (AirE.tokens texto)).
    + inversion Hbase as [|? ? H0 _]; subst. congruence.
    + destruct (estadisticas_sin_valores _ _ _ Hbase Hvalores) as [Heq Hne].
      pose proof (aire_valores_numeros (AirE.tokens texto)) as Hnum.
      rewrite Heq in *. destruct valores as [|v vs]; [congruence|].
      exists v, vs. destruct (estadisticas_campos v vs base) as (_ & H1 & H2 & H3).
      repeat split; auto.
  - apply essa_totales_forma in Ht.
    destruct (list_empty (ESSA.tokens texto)).
    + subst t. rewrite lookup_empty in Hvalores. discriminate.
    + destruct Ht as (v & vs & Hv & ->).
      pose proof (essa_valores_numeros _ _ Hv) as Hnum.
      destruct (estadisticas_campos v vs ∅) as (H0 & H1 & H2 & H3).
      rewrite H0 in Hvalores. injection Hvalores as <-.
      exists v, vs. repeat split; auto.
Qed.

Section Enteros.

Local Open Scope Z_scope.

(** ** Integers below 2^53 in binary64

    They are numbers of binary64, their sums below 2^53 are exact, and
    [float] reads their numerals without rounding. *)

Lemma pow2_split (a b : Z) : 0 <= a <= b -> 2 ^ b = 2 ^ a * 2 ^ (b - a).
Proof. intros H. rewrite <- Z.pow_add_r by lia. f_equal. lia. Qed.

Lemma pow2_pos (a : Z) : 0 <= a -> 0 < 2 ^ a.
Proof. intros H. apply Z.pow_pos_nonneg; lia. Qed.

Lemma pow2_ge_2 (a : Z) : 1 <= a -> 2 <= 2 ^ a.
Proof. intros H. change 2 with (2 ^ 1) at 1. apply Z.pow_le_mono_r; lia. Qed.

Lemma digits2_bounds (p : positive) :
  2 ^ (Z.pos (digits2_pos p) - 1) <= Z.pos p < 2 ^ Z.pos (digits2_pos p).
Proof.
  induction p as [p IH|p IH|]; cbn [digits2_pos]; rewrite ?Pos2Z.inj_succ.
  - replace (Z.succ (Z.pos (digits2_pos p)) - 1) with (Z.succ (Z.pos (digits2_pos p) - 1)) by lia.
    rewrite !Z.pow_succ_r by lia. lia.
  - replace (Z.succ (Z.pos (digits2_pos p)) - 1) with (Z.succ (Z.pos (digits2_pos p) - 1)) by lia.
    rewrite !Z.pow_succ_r by lia. lia.
  - simpl. lia.
Qed.

(** The bounds determine the number of binary digits. *)
Lemma digits2_unique (p : positive) (d : Z) :
  2 ^ (d - 1) <= Z.pos p < 2 ^ d -> 0 < d -> Z.pos (digits2_pos p) = d.
Proof.
  intros [H1 H2] Hd. pose proof (digits2_bounds p) as [H3 H4].
  destruct (Z.lt_trichotomy (Z.pos (digits2_pos p)) d) as [H|[H|H]]; [|exact H|].
  - exfalso. assert (2 ^ Z.pos (digits2_pos p) <= 2 ^ (d - 1)) by (apply Z.pow_le_mono_r; lia). lia.
  - exfalso. assert (2 ^ d <= 2 ^ (Z.pos (digits2_pos p) - 1)) by (apply Z.pow_le_mono_r; lia). lia.
Qed.

Lemma pos_iter_xO (m k : positive) : Z.pos (Pos.iter xO m k) = Z.pos m * 2 ^ Z.pos k.
Proof.
  revert m. induction k as [|k IH] using Pos.peano_ind; intros m.
  - simpl. lia.
  - rewrite Pos.iter_succ, Pos2Z.inj_succ, Z.pow_succ_r by lia.
    rewrite Pos2Z.inj_xO, IH. lia.
Qed.

Lemma canonico_mantisa (m : positive) :
  Z.pos (digits2_pos m) = 53 -> 2 ^ 52 <= Z.pos m < 2 ^ 53.
Proof. intros H. pose proof (digits2_bounds m) as Hb. rewrite H in Hb. exact Hb. Qed.

Lemma canonico_numero (x : float) (n : Z) : canonico x n -> es_numero x.
Proof. intros (m & e & -> & _). discriminate. Qed.

Lemma canonico_positivo (x : float) (n : Z) : canonico x n -> 0 < n.
Proof.
  intros (m & e & -> & Hd & He & Hm).
  assert (0 < 2 ^ (- e)) by (apply Z.pow_pos_nonneg; lia). nia.
Qed.

Lemma canonico_normal (x : float) (n : Z) : canonico x n -> normal x (n * 2 ^ 200).
Proof.
  intros (m & e & -> & Hd & He & Hm). exists m, e. repeat split; try lia; try exact Hd.
  rewrite Hm, <- Z.mul_assoc, <- Z.pow_add_r by lia. f_equal. f_equal. lia.
Qed.

Lemma fle_normal (x y : float) (a b : Z) :
  normal x a -> normal y b -> (fle x y = true <-> a <= b).
Proof.
  intros (mx & ex & -> & Hdx & Hex & ->) (my & ey & -> & Hdy & Hey & ->).
  apply canonico_mantisa in Hdx, Hdy.
  unfold fle, SFleb. rewrite SFcompare_orden by discriminate.
  unfold lex_compare. cbn [orden fst snd]. rewrite Z.compare_refl.
  pose proof (pow2_pos (ex + 200) ltac:(lia)) as Px.
  pose proof (pow2_pos (ey + 200) ltac:(lia)) as Py.
  change (2 ^ 53) with (2 * 2 ^ 52) in *.
  destruct (Z.compare_spec ex ey) as [E|E|E].
  - subst ey.
    destruct (Z.compare_spec (Z.pos mx) (Z.pos my)) as [C|C|C];
      split; intros H; try reflexivity; try discriminate.
    + rewrite C. lia.
    + apply Z.mul_le_mono_nonneg_r; lia.
    + exfalso. apply Z.mul_le_mono_pos_r in H; lia.
  - split; [intros _|reflexivity].
    rewrite (pow2_split (ex + 200) (ey + 200)) by lia.
    pose proof (pow2_ge_2 (ey + 200 - (ex + 200)) ltac:(lia)) as HK.
    set (K := 2 ^ (ey + 200 - (ex + 200))) in *.
    assert (HmK : Z.pos mx <= Z.pos my * K) by nia.
    rewrite (Z.mul_comm (2 ^ (ex + 200)) K), Z.mul_assoc.
    apply Z.mul_le_mono_nonneg_r; lia.
  - split; [discriminate|intros H; exfalso].
    rewrite (pow2_split (ey + 200) (ex + 200)) in H by lia.
    pose proof (pow2_ge_2 (ex + 200 - (ey + 200)) ltac:(lia)) as HK.
    set (K := 2 ^ (ex + 200 - (ey + 200))) in *.
    assert (HmK : Z.pos my < Z.pos mx * K) by nia.
    rewrite (Z.mul_comm (2 ^ (ey + 200)) K), Z.mul_assoc in H.
    apply Z.mul_le_mono_pos_r in H; lia.
Qed.

(** On canonical numbers the order of binary64 is the order of the
    integers. *)
Lemma fle_canonico (x y : float) (a b : Z) :
  canonico x a -> canonico y b -> (fle x y = true <-> a <= b).
Proof.
  intros Hx Hy.
  rewrite (fle_normal _ _ _ _ (canonico_normal _ _ Hx) (canonico_normal _ _ Hy)).
  pose proof (pow2_pos 200 ltac:(lia)). split; intros H0; nia.
Qed.

Lemma canonico_unico (x y : float) (n : Z) : canonico x n -> canonico y n -> x = y.
Proof.
  intros (mx & ex & -> & Hdx & Hex & Hmx) (my & ey & -> & Hdy & Hey & Hmy).
  apply canonico_mantisa in Hdx, Hdy. change (2 ^ 53) with (2 * 2 ^ 52) in *.
  assert (Hn : 0 < n).
  { pose proof (pow2_pos (- ex) ltac:(lia)). nia. }
  assert (He : ex = ey).
  { destruct (Z.lt_trichotomy ex ey) as [H|[H|H]]; [exfalso|exact H|exfalso].
    - rewrite (pow2_split (- ey) (- ex)) in Hmx by lia.
      pose proof (pow2_ge_2 (- ex - - ey) ltac:(lia)).
      rewrite Z.mul_assoc, <- Hmy in Hmx. nia.
    - rewrite (pow2_split (- ex) (- ey)) in Hmy by lia.
      pose proof (pow2_ge_2 (- ey - - ex) ltac:(lia)).
      rewrite Z.mul_assoc, <- Hmx in Hmy. nia. }
  subst ey. f_equal. apply Pos2Z.inj. congruence.
Qed.

(** A mantissa of 53 bits is left as it is. *)
Lemma bra_canonico (m : positive) (e : Z) :
  Z.pos (digits2_pos m) = 53 -> -1074 <= e <= 971 ->
  binary_round_aux prec emax false (Z.pos m) e loc_Exact = S754_finite false m e.
Proof.
  intros Hd He. unfold binary_round_aux, shr_fexp.
  cbn [Zdigits2 shr_record_of_loc]. rewrite Hd.
  assert (Hf : fexp prec emax (53 + e) - e = 0).
  { unfold fexp, SpecFloat.emin, prec, emax. lia. }
  rewrite Hf. cbn [shr shr_m loc_of_shr_record round_nearest_even Zdigits2].
  rewrite Hd, Hf. cbn [shr shr_m].
  unfold prec, emax. destruct (e <=? 1024 - 53) eqn:E; [reflexivity|].
  apply Z.leb_gt in E. lia.
Qed.

Lemma float_of_Z_canonico (n : Z) :
  0 < n < dos53 -> canonico (float_of_Z n) n.
Proof.
  intros Hn. destruct n as [|p|p]; try lia.
  pose proof (digits2_bounds p) as Hb.
  set (d := Z.pos (digits2_pos p)) in *.
  assert (Hd : 1 <= d <= 53).
  { split; [subst d; lia|].
    destruct (Z_le_gt_dec d 53) as [H|H]; [exact H|exfalso].
    assert (2 ^ 53 <= 2 ^ (d - 1)) by (apply Z.pow_le_mono_r; lia).
    unfold dos53 in Hn. change (2 ^ 53) with 9007199254740992 in *. lia. }
  unfold float_of_Z, binary_normalize, binary_round.
  assert (Hf : fexp prec emax (Z.pos (digits2_pos p) + 0) = d - 53).
  { fold d. unfold fexp, SpecFloat.emin, prec, emax. lia. }
  rewrite Hf. unfold shl_align.
  destruct (d - 53 - 0) as [|k|k] eqn:Ek; try lia.
  - assert (d = 53) by lia.
    rewrite bra_canonico by (fold d; lia).
    exists p, 0. repeat split; try lia.
  - assert (Hk : Z.pos k = 53 - d) by lia.
    assert (Hm : Z.pos (digits2_pos (Pos.iter xO p k)) = 53).
    { apply digits2_unique; [|lia]. rewrite pos_iter_xO, Hk.
      assert (H0 : 0 < 2 ^ (53 - d)) by (apply Z.pow_pos_nonneg; lia).
      assert (H1 : 2 ^ (53 - 1) = 2 ^ (d - 1) * 2 ^ (53 - d)).
      { rewrite <- Z.pow_add_r by lia. f_equal. lia. }
      assert (H2 : 2 ^ 53 = 2 ^ d * 2 ^ (53 - d)).
      { rewrite <- Z.pow_add_r by lia. f_equal. lia. }
      rewrite H1, H2. nia. }
    rewrite (bra_canonico _ _ Hm) by lia.
    exists (Pos.iter xO p k), (d - 53). repeat split; try lia; try exact Hm.
    rewrite pos_iter_xO, Hk. f_equal. f_equal. lia.
Qed.

(** Shifting out zero bits loses nothing. *)
Lemma iter_pos_nat {A} (f : A -> A) (k : positive) (x : A) :
  SpecFloat.iter_pos f k x = Nat.iter (Pos.to_nat k) f x.
Proof.
  revert x. induction k as [k IH|k IH|]; intros x; cbn [SpecFloat.iter_pos].
  - rewrite !IH, Pos2Nat.inj_xI.
    replace (2 * Pos.to_nat k)%nat with (Pos.to_nat k + Pos.to_nat k)%nat by lia.
    rewrite Nat.iter_succ_r, Nat.iter_add. reflexivity.
  - rewrite !IH, Pos2Nat.inj_xO.
    replace (2 * Pos.to_nat k)%nat with (Pos.to_nat k + Pos.to_nat k)%nat by lia.
    rewrite Nat.iter_add. reflexivity.
  - reflexivity.
Qed.

Lemma shr_1_ceros (j : nat) (m : positive) :
  Nat.iter j shr_1 {| shr_m := Z.pos (Nat.iter j xO m); shr_r := false; shr_s := false |}
  = {| shr_m := Z.pos m; shr_r := false; shr_s := false |}.
Proof.
  induction j as [|j IH]; [reflexivity|].
  rewrite Nat.iter_succ_r. cbn [Nat.iter shr_1 orb]. exact IH.
Qed.

Lemma nat_iter_xO (j : nat) (m : positive) :
  Z.pos (Nat.iter j xO m) = Z.pos m * 2 ^ Z.of_nat j.
Proof.
  induction j as [|j IH]; [simpl; lia|].
  rewrite Nat.iter_succ, Pos2Z.inj_xO, IH, Nat2Z.inj_succ, Z.pow_succ_r by lia. lia.
Qed.

Lemma shr_exacto (k m' : positive) (M : positive) (e : Z) :
  Z.pos M = Z.pos m' * 2 ^ Z.pos k ->
  shr {| shr_m := Z.pos M; shr_r := false; shr_s := false |} e (Z.pos k)
  = ({| shr_m := Z.pos m'; shr_r := false; shr_s := false |}, e + Z.pos k).
Proof.
  intros HM. cbn [shr]. rewrite iter_pos_nat.
  assert (HM' : M = Nat.iter (Pos.to_nat k) xO m').
  { apply Pos2Z.inj. rewrite nat_iter_xO, positive_nat_Z. exact HM. }
  rewrite HM', shr_1_ceros. reflexivity.
Qed.

(** Rounding a positive integer multiple of a power of two that has at
    most 53 bits gives its canonical form. *)
Lemma binary_round_exacto (M : positive) (e n : Z) :
  Z.pos M = n * 2 ^ (- e) -> -52 <= e <= 0 -> 0 < n < dos53 ->
  canonico (binary_round prec emax false M e) n.
Proof.
  intros HM He Hn. destruct n as [|p|p]; try lia.
  pose proof (digits2_bounds p) as Hb.
  set (d := Z.pos (digits2_pos p)) in *.
  assert (Hd : 1 <= d <= 53).
  { split; [subst d; lia|].
    destruct (Z_le_gt_dec d 53) as [H|H]; [exact H|exfalso].
    assert (2 ^ 53 <= 2 ^ (d - 1)) by (apply Z.pow_le_mono_r; lia).
    unfold dos53 in Hn. change (2 ^ 53) with 9007199254740992 in *. lia. }
  assert (Pe : 0 < 2 ^ (- e)) by (apply Z.pow_pos_nonneg; lia).
  assert (HdM : Z.pos (digits2_pos M) = d - e).
  { apply digits2_unique; [|lia]. rewrite HM.
    replace (d - e - 1) with ((d - 1) + (- e)) by lia.
    replace (d - e) with (d + (- e)) by lia.
    rewrite !Z.pow_add_r by lia. nia. }
  unfold binary_round.
  assert (Hf : fexp prec emax (Z.pos (digits2_pos M) + e) = d - 53).
  { rewrite HdM. unfold fexp, SpecFloat.emin, prec, emax. lia. }
  rewrite Hf. unfold shl_align.
  destruct (d - 53 - e) as [|k|k] eqn:Ek.
  - (* already canonical *)
    rewrite bra_canonico by lia.
    exists M, e. repeat split; try lia.
  - (* [k] zero bits to shift out *)
    assert (Hk : Z.pos k = d - 53 - e) by lia.
    assert (Hexp : 2 ^ (- e) = 2 ^ (53 - d) * 2 ^ Z.pos k).
    { rewrite <- Z.pow_add_r by lia. f_equal. lia. }
    assert (P0 : 0 < 2 ^ (53 - d)) by (apply Z.pow_pos_nonneg; lia).
    destruct (Z.pos p * 2 ^ (53 - d)) as [|m'|m'] eqn:Em'; try lia.
    assert (HMk : Z.pos M = Z.pos m' * 2 ^ Z.pos k).
    { rewrite HM, Hexp, <- Em'. lia. }
    assert (Hm' : Z.pos (digits2_pos m') = 53).
    { apply digits2_unique; [|lia]. rewrite <- Em'.
      assert (H1 : 2 ^ (53 - 1) = 2 ^ (d - 1) * 2 ^ (53 - d)).
      { rewrite <- Z.pow_add_r by lia. f_equal. lia. }
      assert (H2 : 2 ^ 53 = 2 ^ d * 2 ^ (53 - d)).
      { rewrite <- Z.pow_add_r by lia. f_equal. lia. }
      rewrite H1, H2. nia. }
    unfold binary_round_aux, shr_fexp. cbn [Zdigits2 shr_record_of_loc].
    assert (Hf1 : fexp prec emax (Z.pos (digits2_pos M) + e) - e = Z.pos k).
    { rewrite Hf. lia. }
    rewrite Hf1, (shr_exacto k m' M e HMk).
    cbn [shr_m loc_of_shr_record round_nearest_even Zdigits2 shr_record_of_loc].
    assert (Hf2 : fexp prec emax (Z.pos (digits2_pos m') + (e + Z.pos k)) - (e + Z.pos k) = 0).
    { rewrite Hm'. unfold fexp, SpecFloat.emin, prec, emax. lia. }
    rewrite Hf2. cbn [shr shr_m].
    unfold prec, emax. destruct (e + Z.pos k <=? 1024 - 53) eqn:E;
      [|apply Z.leb_gt in E; lia].
    exists m', (e + Z.pos k). repeat split; try lia; try exact Hm'.
    rewrite <- Em'. f_equal. f_equal. lia.
  - (* [k] zero bits to shift in *)
    assert (Hk : Z.pos k = 53 - d + e) by lia.
    assert (Hm : Z.pos (digits2_pos (Pos.iter xO M k)) = 53).
    { apply digits2_unique; [|lia]. rewrite pos_iter_xO.
      pose proof (digits2_bounds M) as HbM. rewrite HdM in HbM.
      assert (P1 : 0 < 2 ^ Z.pos k) by (apply Z.pow_pos_nonneg; lia).
      assert (H1 : 2 ^ (53 - 1) = 2 ^ (d - e - 1) * 2 ^ Z.pos k).
      { rewrite <- Z.pow_add_r by lia. f_equal. lia. }
      assert (H2 : 2 ^ 53 = 2 ^ (d - e) * 2 ^ Z.pos k).
      { rewrite <- Z.pow_add_r by lia. f_equal. lia. }
      rewrite H1, H2. nia. }
    rewrite (bra_canonico _ _ Hm) by lia.
    exists (Pos.iter xO M k), (d - 53). repeat split; try lia; try exact Hm.
    rewrite pos_iter_xO, HM, <- Z.mul_assoc, <- Z.pow_add_r by lia.
    f_equal. f_equal. lia.
Qed.

Lemma float_of_Z_representa (n : Z) : 0 <= n < dos53 -> representa (float_of_Z n) n.
Proof.
  intros Hn. destruct (Z.eq_dec n 0) as [->|Hne].
  - left. split; reflexivity.
  - right. apply float_of_Z_canonico. lia.
Qed.

Lemma representa_no_negativo (x : float) (n : Z) : representa x n -> 0 <= n.
Proof. intros [[-> _]|H]; [lia|]. apply canonico_positivo in H. lia. Qed.

Lemma representa_numero (x : float) (n : Z) : representa x n -> es_numero x.
Proof. intros [[_ ->]|H]; [discriminate|exact (canonico_numero _ _ H)]. Qed.

Lemma representa_unico (x y : float) (n : Z) : representa x n -> representa y n -> x = y.
Proof.
  intros [[-> ->]|Hx] [[Hn ->]|Hy]; try reflexivity.
  - apply canonico_positivo in Hy. lia.
  - apply canonico_positivo in Hx. lia.
  - exact (canonico_unico _ _ _ Hx Hy).
Qed.

Lemma fle_representa (x y : float) (a b : Z) :
  representa x a -> representa y b -> (fle x y = true <-> a <= b).
Proof.
  intros [[-> ->]|Hx] [[-> ->]|Hy].
  - split; [lia|reflexivity].
  - pose proof (canonico_positivo _ _ Hy). destruct Hy as (my & ey & -> & _).
    split; [lia|reflexivity].
  - pose proof (canonico_positivo _ _ Hx). destruct Hx as (mx & ex & -> & _).
    split; [discriminate|lia].
  - apply fle_canonico; assumption.
Qed.

Lemma shl_align_fst (m : positive) (e e' : Z) :
  e' <= e -> Z.pos (fst (shl_align m e e')) = Z.pos m * 2 ^ (e - e').
Proof.
  intros H. unfold shl_align. destruct (e' - e) as [|k|k] eqn:E; try lia; cbn [fst].
  - replace (e - e') with 0 by lia. lia.
  - rewrite pos_iter_xO. f_equal. f_equal. lia.
Qed.

(** Additions below 2^53 are exact. *)
Lemma fadd_canonico (x y : float) (a b : Z) :
  canonico x a -> canonico y b -> a + b < dos53 -> canonico (fadd x y) (a + b).
Proof.
  intros Hx Hy Hab.
  pose proof (canonico_positivo _ _ Hx) as Pa. pose proof (canonico_positivo _ _ Hy) as Pb.
  destruct Hx as (mx & ex & -> & Hdx & Hex & Hmx).
  destruct Hy as (my & ey & -> & Hdy & Hey & Hmy).
  unfold fadd, SFadd. cbn [cond_Zopp].
  set (ez := Z.min ex ey).
  pose proof (shl_align_fst mx ex ez ltac:(lia)) as H1.
  pose proof (shl_align_fst my ey ez ltac:(lia)) as H2.
  destruct (Z.pos (fst (shl_align mx ex ez)) + Z.pos (fst (shl_align my ey ez)))
    as [|M|M] eqn:EM; try lia.
  cbn [binary_normalize]. apply binary_round_exacto; try lia.
  rewrite <- EM, H1, H2, Hmx, Hmy.
  rewrite <- !Z.mul_assoc, <- !Z.pow_add_r by lia.
  replace (- ex + (ex - ez)) with (- ez) by lia.
  replace (- ey + (ey - ez)) with (- ez) by lia. lia.
Qed.

Lemma fadd_representa (x y : float) (a b : Z) :
  representa x a -> representa y b -> a + b < dos53 -> representa (fadd x y) (a + b).
Proof.
  intros [[-> ->]|Hx] [[-> ->]|Hy] Hab.
  - left. split; reflexivity.
  - right. destruct Hy as (my & ey & -> & H). exists my, ey. split; [reflexivity|exact H].
  - right. rewrite Z.add_0_r. destruct Hx as (mx & ex & -> & H).
    exists mx, ex. split; [reflexivity|exact H].
  - right. apply fadd_canonico; assumption.
Qed.

Lemma py_sum_representa (ns : list Z) :
  Forall (fun n => 0 <= n) ns -> suma ns < dos53 ->
  representa (py_sum (map float_of_Z ns)) (suma ns).
Proof.
  unfold py_sum.
  enough (H : forall acc s, representa acc s -> Forall (fun n => 0 <= n) ns ->
                            s + suma ns < dos53 ->
                            representa (fold_left fadd (map float_of_Z ns) acc) (s + suma ns)).
  { intros Hns Hs. apply (H (float_of_Z 0) 0); try assumption.
    left. split; reflexivity. }
  induction ns as [|n ns IH]; intros acc s Hacc Hns Hs; simpl in *.
  - rewrite Z.add_0_r. exact Hacc.
  - inversion Hns as [|? ? Hn Hns']; subst.
    assert (Hsum : 0 <= suma ns).
    { clear -Hns'. induction Hns'; simpl; lia. }
    pose proof (representa_no_negativo _ _ Hacc) as Hs0.
    replace (s + (n + suma ns)) with ((s + n) + suma ns) by lia.
    apply IH; [|exact Hns'|lia].
    apply fadd_representa; [exact Hacc| |lia].
    apply float_of_Z_representa. lia.
Qed.

(** ** The quotient of two integers in binary64 *)

Lemma normaliza_normal (R E : Z) :
  2 ^ 52 <= R <= 2 ^ 53 -> -200 <= E <= 199 -> normal (normaliza R E) (R * 2 ^ (E + 200)).
Proof.
  intros HR HE. unfold normaliza. destruct (Z.eqb_spec R dos53) as [->|Hne].
  - exists 4503599627370496%positive, (E + 1). repeat split; try lia; try reflexivity.
    replace (E + 1 + 200) with (1 + (E + 200)) by lia.
    rewrite (Z.pow_add_r 2 1 (E + 200)) by lia. unfold dos53. lia.
  - change (2 ^ 52) with 4503599627370496 in HR.
    destruct R as [|Rp|Rp]; try lia. exists Rp, E. repeat split; try lia.
    apply digits2_unique; [|lia]. unfold dos53 in Hne.
    change (2 ^ 53) with 9007199254740992 in *.
    change (2 ^ (53 - 1)) with 4503599627370496. lia.
Qed.

Lemma shr_m_of_loc (m : Z) (l : location) : shr_m (shr_record_of_loc m l) = m.
Proof. destruct l as [|[]]; reflexivity. Qed.

Lemma loc_of_shr_of_loc (m : Z) (l : location) :
  loc_of_shr_record (shr_record_of_loc m l) = l.
Proof. destruct l as [|[]]; reflexivity. Qed.

Lemma shr_fexp_53 (q : positive) (e : Z) (l : location) :
  Z.pos (digits2_pos q) = 53 -> -1074 <= e ->
  shr_fexp prec emax (Z.pos q) e l = (shr_record_of_loc (Z.pos q) l, e).
Proof.
  intros Hd He. unfold shr_fexp. cbn [Zdigits2]. rewrite Hd.
  replace (fexp prec emax (53 + e) - e) with 0
    by (unfold fexp, SpecFloat.emin, prec, emax; lia).
  reflexivity.
Qed.

Lemma shr_fexp_54 (q : positive) (e : Z) (l : location) :
  Z.pos (digits2_pos q) = 54 -> -1074 <= e ->
  shr_fexp prec emax (Z.pos q) e l = (shr_1 (shr_record_of_loc (Z.pos q) l), e + 1).
Proof.
  intros Hd He. unfold shr_fexp. cbn [Zdigits2]. rewrite Hd.
  replace (fexp prec emax (54 + e) - e) with 1
    by (unfold fexp, SpecFloat.emin, prec, emax; lia).
  reflexivity.
Qed.

Lemma round_nearest_even_cotas (m : Z) (l : location) :
  m <= round_nearest_even m l <= m + 1.
Proof. destruct l as [|[]]; simpl; try lia. destruct (Z.even m); lia. Qed.

(** The second half of [binary_round_aux]: the rounded mantissa is
    renormalised. *)
Lemma bra_segunda (R e : Z) :
  2 ^ 52 <= R <= 2 ^ 53 -> -1074 <= e <= 970 ->
  (let '(mrs, e') := shr_fexp prec emax R e loc_Exact in
   match shr_m mrs with
   | Z0 => S754_zero false
   | Z.pos m => if e' <=? emax - prec then S754_finite false m e' else S754_infinity false
   | Z.neg _ => S754_nan
   end) = normaliza R e.
Proof.
  intros HR He. unfold normaliza. destruct (Z.eqb_spec R dos53) as [->|Hne].
  - unfold dos53. rewrite shr_fexp_54 by (try reflexivity; lia).
    cbn [shr_record_of_loc shr_1 shr_m orb].
    unfold prec, emax. destruct (Z.leb_spec (e + 1) (1024 - 53)); [reflexivity|lia].
  - change (2 ^ 52) with 4503599627370496 in HR. unfold dos53 in Hne.
    change (2 ^ 53) with 9007199254740992 in HR.
    destruct R as [|Rp|Rp]; try lia.
    rewrite shr_fexp_53; [|apply digits2_unique; [|lia]|lia].
    + cbn [shr_record_of_loc shr_m Z.to_pos].
      unfold prec, emax. destruct (Z.leb_spec e (1024 - 53)); [reflexivity|lia].
    + change (2 ^ 53) with 9007199254740992.
      change (2 ^ (53 - 1)) with 4503599627370496. lia.
Qed.

Lemma new_location_exacto (D r : Z) :
  new_location D r = loc_Exact <-> r = 0.
Proof.
  unfold new_location, new_location_even, new_location_odd.
  destruct (Z.even D), (Z.eqb_spec r 0); split; intros H;
    try reflexivity; try discriminate; try assumption; contradiction.
Qed.

(** Rounding a quotient of 53 or 54 bits. *)
Lemma bra_cociente (q : positive) (e D r : Z) :
  2 ^ 52 <= Z.pos q < 2 ^ 54 -> -1074 <= e <= 960 -> 0 <= r < D ->
  exists R Q j rj,
    binary_round_aux prec emax false (Z.pos q) e (new_location D r) = normaliza R (e + j)
    /\ 0 <= j <= 1
    /\ 2 ^ 52 <= Q < 2 ^ 53
    /\ Q <= R <= Q + 1
    /\ (rj = 0 -> R = Q)
    /\ 0 <= rj < 2 ^ j * D
    /\ Z.pos q * D + r = Q * (2 ^ j * D) + rj.
Proof.
  intros Hq He Hr.
  pose proof (new_location_exacto D r) as Hloc.
  set (l := new_location D r) in *.
  destruct (Z_lt_ge_dec (Z.pos q) (2 ^ 53)) as [Hlt|Hge].
  - exists (round_nearest_even (Z.pos q) l), (Z.pos q), 0, r.
    pose proof (round_nearest_even_cotas (Z.pos q) l) as HR.
    repeat split; try lia.
    + unfold binary_round_aux.
      rewrite shr_fexp_53; [|apply digits2_unique; [|lia]|lia].
      * rewrite shr_m_of_loc, loc_of_shr_of_loc, Z.add_0_r.
        apply bra_segunda; lia.
      * change (53 - 1) with 52. lia.
    + intros ->. destruct Hloc as [_ Hl]. rewrite (Hl eq_refl). reflexivity.
  - assert (Hd : Z.pos (digits2_pos q) = 54).
    { apply digits2_unique; [|lia]. change (54 - 1) with 53. lia. }
    change (2 ^ 1) with 2. change (2 ^ 54) with (2 * 2 ^ 53) in Hq.
    change (2 ^ 53) with (2 * 2 ^ 52) in *.
    unfold binary_round_aux. rewrite shr_fexp_54 by (try exact Hd; lia).
    destruct q as [p|p|]; [| |lia].
    + (* odd quotient *)
      set (mrs := shr_1 (shr_record_of_loc (Z.pos p~1) l)).
      assert (Hm : shr_m mrs = Z.pos p) by (subst mrs; destruct l as [|[]]; reflexivity).
      pose proof (round_nearest_even_cotas (Z.pos p) (loc_of_shr_record mrs)) as HR.
      exists (round_nearest_even (Z.pos p) (loc_of_shr_record mrs)), (Z.pos p), 1, (D + r).
      rewrite Hm. change (2 ^ 1) with 2.
      repeat split; try lia.
      apply bra_segunda; change (2 ^ 53) with (2 * 2 ^ 52); lia.
    + (* even quotient *)
      set (mrs := shr_1 (shr_record_of_loc (Z.pos p~0) l)).
      assert (Hm : shr_m mrs = Z.pos p) by (subst mrs; destruct l as [|[]]; reflexivity).
      pose proof (round_nearest_even_cotas (Z.pos p) (loc_of_shr_record mrs)) as HR.
      exists (round_nearest_even (Z.pos p) (loc_of_shr_record mrs)), (Z.pos p), 1, r.
      rewrite Hm. change (2 ^ 1) with 2.
      repeat split; try lia.
      * apply bra_segunda; change (2 ^ 53) with (2 * 2 ^ 52); lia.
      * intros ->. destruct Hloc as [_ Hl]. subst mrs. rewrite (Hl eq_refl). reflexivity.
Qed.

(** The quotient of two canonical numbers: a mantissa [R] at an exponent
    [E], where [R] is the integer quotient [Q] of the exact division at
    that exponent or the next integer, and [Q] itself when the division
    is exact. *)
Lemma fdiv_forma (x y : float) (S k : Z) :
  canonico x S -> canonico y k ->
  exists R E Q D r,
    normal (fdiv x y) (R * 2 ^ (E + 200))
    /\ -200 <= E <= 199
    /\ 2 ^ 52 <= Q
    /\ Q <= R <= Q + 1
    /\ (r = 0 -> R = Q)
    /\ 0 <= r < D
    /\ S * 2 ^ 200 * D = (Q * D + r) * 2 ^ (E + 200) * k.
Proof.
  intros (mx & ex & -> & Hdx & Hex & Hmx) (my & ey & -> & Hdy & Hey & Hmy).
  pose proof (canonico_mantisa _ Hdx) as Bx. pose proof (canonico_mantisa _ Hdy) as By.
  unfold fdiv, SFdiv, SFdiv_core_binary. cbv beta zeta. cbn [Zdigits2 xorb].
  rewrite Hdx, Hdy.
  replace (Z.min (fexp prec emax (53 + ex - (53 + ey))) (ex - ey)) with (ex - ey - 53)
    by (unfold fexp, SpecFloat.emin, prec, emax; lia).
  replace (ex - ey - (ex - ey - 53)) with 53 by lia. cbv iota.
  rewrite Z.shiftl_mul_pow2 by lia.
  pose proof (Z_div_mod (Z.pos mx * 2 ^ 53) (Z.pos my) ltac:(lia)) as Hdiv.
  destruct (Z.div_eucl (Z.pos mx * 2 ^ 53) (Z.pos my)) as [q r].
  destruct Hdiv as [HN Hr].
  assert (Hq : 2 ^ 52 <= q < 2 ^ 54).
  { change (2 ^ 54) with (2 * 2 ^ 53). change (2 ^ 53) with (2 * 2 ^ 52) in *.
    set (c := 2 ^ 52) in *. assert (0 < c) by (subst c; reflexivity). nia. }
  destruct q as [|qp|qp]; try (change (2 ^ 52) with 4503599627370496 in Hq; lia).
  destruct (bra_cociente qp (ex - ey - 53) (Z.pos my) r Hq ltac:(lia) Hr)
    as (R & Q & j & rj & Heq & Hj & HQ & HR & Hex0 & Hrj & Hfin).
  rewrite Heq.
  exists R, (ex - ey - 53 + j), Q, (2 ^ j * Z.pos my), rj.
  repeat split; try lia.
  - apply normaliza_normal; lia.
  - rewrite <- Hfin, (Z.mul_comm (Z.pos qp)), <- HN, Hmx, Hmy.
    replace (ex - ey - 53 + j + 200) with ((ex - ey + 147) + j) by lia.
    rewrite (Z.pow_add_r 2 (ex - ey + 147) j) by lia.
    assert (HP : 2 ^ (- ex) * 2 ^ 53 * 2 ^ (ex - ey + 147) = 2 ^ 200 * 2 ^ (- ey)).
    { rewrite <- !Z.pow_add_r by lia. f_equal. lia. }
    set (A := 2 ^ (- ex)) in *. set (B := 2 ^ (- ey)) in *.
    set (T := 2 ^ (ex - ey + 147)) in *. set (J := 2 ^ j) in *.
    replace (S * A * 2 ^ 53 * (T * J) * k) with (S * J * k * (A * 2 ^ 53 * T)) by ring.
    rewrite HP. ring.
Qed.

(** A normal number against the multiples of 2^E: it is one of them, or
    it lies below 2^52 of them. *)
Lemma normal_rejilla (x : float) (v E : Z) :
  normal x v -> -200 <= E <= 199 ->
  (exists A, v = A * 2 ^ (E + 200)) \/ v < 2 ^ 52 * 2 ^ (E + 200).
Proof.
  intros (m & e & -> & Hd & He & ->) HE. apply canonico_mantisa in Hd.
  destruct (Z_lt_ge_dec e E) as [Hlt|Hge].
  - right. rewrite (pow2_split (e + 200) (E + 200)) by lia.
    pose proof (pow2_ge_2 (E + 200 - (e + 200)) ltac:(lia)) as HK.
    pose proof (pow2_pos (e + 200) ltac:(lia)) as HP.
    set (K := 2 ^ (E + 200 - (e + 200))) in *. set (P := 2 ^ (e + 200)) in *.
    change (2 ^ 53) with (2 * 2 ^ 52) in Hd. set (c := 2 ^ 52) in *.
    assert (Hc : 0 < c) by (subst c; reflexivity).
    assert (H1 : Z.pos m * P < 2 * c * P) by (apply Z.mul_lt_mono_pos_r; lia).
    assert (H2 : 2 * (c * P) <= K * (c * P)) by (apply Z.mul_le_mono_nonneg_r; nia).
    nia.
  - left. exists (Z.pos m * 2 ^ (e - E)).
    rewrite <- Z.mul_assoc, <- Z.pow_add_r by lia. f_equal. f_equal. lia.
Qed.

Lemma fdiv_cota_inferior (x y xl : float) (S k lo : Z) :
  canonico x S -> canonico y k -> representa xl lo -> lo * k <= S ->
  fle xl (fdiv x y) = true.
Proof.
  intros Hx Hy Hl Hlo.
  pose proof (canonico_positivo _ _ Hy) as Hk.
  destruct (fdiv_forma x y S k Hx Hy)
    as (R & E & Q & D & r & Hn & HE & HQ & HR & _ & Hr & Heq).
  destruct Hl as [[-> ->]|Hl].
  { destruct Hn as (m & e & -> & _). reflexivity. }
  apply canonico_normal in Hl.
  apply (fle_normal _ _ _ _ Hl Hn).
  pose proof (pow2_pos (E + 200) ltac:(lia)) as HG. set (G := 2 ^ (E + 200)) in *.
  destruct (normal_rejilla _ _ E Hl HE) as [[A HA]|Hlt]; fold G in HA || fold G in Hlt.
  - assert (H1 : lo * 2 ^ 200 * D * k <= S * 2 ^ 200 * D).
    { replace (lo * 2 ^ 200 * D * k) with (lo * k * (2 ^ 200 * D)) by ring.
      replace (S * 2 ^ 200 * D) with (S * (2 ^ 200 * D)) by ring.
      apply Z.mul_le_mono_nonneg_r; [|exact Hlo].
      pose proof (pow2_pos 200 ltac:(lia)). nia. }
    rewrite Heq, HA in H1.
    assert (H2 : A * D <= Q * D + r).
    { apply (Z.mul_le_mono_pos_r _ _ (G * k)); [nia|].
      replace (A * D * (G * k)) with (A * G * D * k) by ring.
      replace ((Q * D + r) * (G * k)) with ((Q * D + r) * G * k) by ring. exact H1. }
    assert (H3 : A <= Q) by nia.
    rewrite HA. apply Z.mul_le_mono_nonneg_r; lia.
  - assert (H1 : 2 ^ 52 * G <= R * G) by (apply Z.mul_le_mono_nonneg_r; lia). lia.
Qed.

Lemma fdiv_cota_superior (x y xh : float) (S k hi : Z) :
  canonico x S -> canonico y k -> representa xh hi -> S <= hi * k ->
  fle (fdiv x y) xh = true.
Proof.
  intros Hx Hy Hh Hhi.
  pose proof (canonico_positivo _ _ Hy) as Hk. pose proof (canonico_positivo _ _ Hx) as HS.
  destruct (fdiv_forma x y S k Hx Hy)
    as (R & E & Q & D & r & Hn & HE & HQ & HR & Hex & Hr & Heq).
  destruct Hh as [[-> ->]|Hh]; [lia|].
  apply canonico_normal in Hh.
  apply (fle_normal _ _ _ _ Hn Hh).
  pose proof (pow2_pos (E + 200) ltac:(lia)) as HG. set (G := 2 ^ (E + 200)) in *.
  assert (H1 : S * 2 ^ 200 * D <= hi * 2 ^ 200 * D * k).
  { replace (hi * 2 ^ 200 * D * k) with (hi * k * (2 ^ 200 * D)) by ring.
    replace (S * 2 ^ 200 * D) with (S * (2 ^ 200 * D)) by ring.
    apply Z.mul_le_mono_nonneg_r; [|exact Hhi].
    pose proof (pow2_pos 200 ltac:(lia)). nia. }
  rewrite Heq in H1.
  assert (H2 : (Q * D + r) * G <= hi * 2 ^ 200 * D).
  { apply (Z.mul_le_mono_pos_r _ _ k); [lia|exact H1]. }
  destruct (normal_rejilla _ _ E Hh HE) as [[B HB]|Hlt]; fold G in HB || fold G in Hlt.
  - rewrite HB in H2 |- *.
    assert (H3 : Q * D + r <= B * D).
    { apply (Z.mul_le_mono_pos_r _ _ G); [lia|].
      replace (B * D * G) with (B * G * D) by ring. exact H2. }
    apply Z.mul_le_mono_nonneg_r; [lia|].
    destruct (Z.eq_dec r 0) as [Hr0|Hr0]; [rewrite (Hex Hr0); nia|].
    assert (Q < B) by nia. lia.
  - exfalso.
    assert (H3 : hi * 2 ^ 200 * D < 2 ^ 52 * G * D) by (apply Z.mul_lt_mono_pos_r; lia).
    assert (H4 : 2 ^ 52 * G * D <= Q * G * D).
    { apply Z.mul_le_mono_nonneg_r; [lia|]. apply Z.mul_le_mono_nonneg_r; lia. }
    assert (H5 : Q * G * D <= (Q * D + r) * G) by nia.
    lia.
Qed.

(** ** The values of a text whose tokens are integers *)

(** [float] of a numeral of an integer below 2^53 is [float] of the
    integer. *)
Lemma float_of_ratio_entero (n : Z) :
  0 <= n < dos53 -> float_of_ratio false n 1 = float_of_Z n.
Proof.
  intros Hn. destruct n as [|p|p]; [reflexivity| |lia].
  apply (representa_unico _ _ (Z.pos p)); [|apply float_of_Z_representa; exact Hn].
  right.
  pose proof (digits2_bounds p) as Hb.
  set (d := Z.pos (digits2_pos p)) in *.
  assert (Hd : 1 <= d <= 53).
  { split; [subst d; lia|].
    destruct (Z_le_gt_dec d 53) as [H|H]; [exact H|exfalso].
    assert (2 ^ 53 <= 2 ^ (d - 1)) by (apply Z.pow_le_mono_r; lia).
    unfold dos53 in Hn. change (2 ^ 53) with 9007199254740992 in *. lia. }
  unfold float_of_ratio, SFdiv_core_binary. cbv beta zeta. cbn [Zdigits2 digits2_pos].
  fold d.
  replace (Z.min (fexp prec emax (d + 0 - (1 + 0))) (0 - 0)) with (d - 54)
    by (unfold fexp, SpecFloat.emin, prec, emax; lia).
  replace (0 - 0 - (d - 54)) with (54 - d) by lia.
  destruct (54 - d) as [|k|k] eqn:Ek; try lia.
  rewrite Z.shiftl_mul_pow2 by lia.
  pose proof (Z_div_mod (Z.pos p * 2 ^ Z.pos k) 1 ltac:(lia)) as Hdiv.
  destruct (Z.div_eucl (Z.pos p * 2 ^ Z.pos k) 1) as [q r].
  destruct Hdiv as [HN Hr]. assert (r = 0) by lia. subst r.
  assert (Hq : q = Z.pos p * 2 ^ Z.pos k) by lia.
  assert (H1 : 2 ^ 53 = 2 ^ (d - 1) * 2 ^ Z.pos k).
  { rewrite <- Z.pow_add_r by lia. f_equal. lia. }
  assert (H2 : 2 ^ 54 = 2 ^ d * 2 ^ Z.pos k).
  { rewrite <- Z.pow_add_r by lia. f_equal. lia. }
  pose proof (pow2_pos (Z.pos k) ltac:(lia)) as HK.
  assert (Hq54 : 2 ^ 53 <= q < 2 ^ 54) by (rewrite H1, H2, Hq; nia).
  destruct q as [|qp|qp]; try lia.
  assert (Hdq : Z.pos (digits2_pos qp) = 54).
  { apply digits2_unique; [|lia]. change (54 - 1) with 53. exact Hq54. }
  change (new_location 1 0) with loc_Exact.
  unfold binary_round_aux. rewrite shr_fexp_54 by (try exact Hdq; lia).
  destruct qp as [qp|qp|].
  - exfalso. replace (Z.pos k) with (1 + (Z.pos k - 1)) in Hq by lia.
    rewrite Z.pow_add_r in Hq by lia. change (2 ^ 1) with 2 in Hq. lia.
  - cbn [shr_record_of_loc shr_1 shr_m orb loc_of_shr_record round_nearest_even].
    change (2 ^ 54) with (2 * 2 ^ 53) in Hq54.
    rewrite bra_segunda by (change (2 ^ 53) with (2 * 2 ^ 52) in *; lia).
    unfold normaliza. destruct (Z.eqb_spec (Z.pos qp) dos53) as [E|_].
    { unfold dos53 in E. change (2 ^ 53) with 9007199254740992 in Hq54. lia. }
    cbn [Z.to_pos]. exists qp, (d - 54 + 1). repeat split; try lia.
    + apply digits2_unique; [|lia]. change (53 - 1) with 52.
      change (2 ^ 53) with (2 * 2 ^ 52) in *. lia.
    + replace (- (d - 54 + 1)) with (Z.pos k - 1) by lia.
      replace (Z.pos k) with (1 + (Z.pos k - 1)) in Hq at 1 by lia.
      rewrite Z.pow_add_r in Hq by lia. change (2 ^ 1) with 2 in Hq. lia.
  - exfalso. change (2 ^ 53) with 9007199254740992 in Hq54. lia.
Qed.

Lemma take_while_todos (p : ascii -> bool) (l : list ascii) :
  forallb p l = true -> take_while p l = l /\ drop_while p l = [].
Proof.
  induction l as [|c l IH]; simpl; [split; reflexivity|].
  intros H. apply andb_prop in H as [Hc Hl]. rewrite Hc.
  destruct (IH Hl) as [-> ->]. split; reflexivity.
Qed.

(** [float] reads every numeral. *)
Lemma py_float_numeral (s : string) (n : Z) :
  entero_de s = Some n -> py_float s = Some (float_de_entero n).
Proof.
  unfold entero_de, py_float. intros H.
  destruct (forallb digit_char (chars s)) eqn:Hd; [|discriminate].
  destruct (list_empty (chars s)) eqn:He; [discriminate|]. simpl in H.
  injection H as <-.
  destruct (take_while_todos _ _ Hd) as [Ht Hw].
  destruct (chars s) as [|c l] eqn:Hl; [discriminate|].
  assert (Hc : digit_char c = true) by (simpl in Hd; apply andb_prop in Hd as [? _]; assumption).
  assert (Hs : match c :: l with
               | "-"%char :: t => (true, t)
               | "+"%char :: t => (false, t)
               | _ => (false, c :: l)
               end = (false, c :: l)).
  { destruct c as [[] [] [] [] [] [] [] []]; try reflexivity; discriminate. }
  rewrite Hs, Ht, Hw. reflexivity.
Qed.

Lemma aire_valores_numerales (matches : list string) (ns : list Z) :
  map entero_de (map (numeral Aire) matches) = map Some ns ->
  AirE.valores_de matches = map float_de_entero ns.
Proof.
  unfold AirE.valores_de.
  enough (H : forall acc,
              map entero_de (map (numeral Aire) matches) = map Some ns ->
              fold_left (fun valores m =>
                           match py_float (py_replace "." "" m) with
                           | Some valor => valores ++ [valor]
                           | None => valores
                           end) matches acc = acc ++ map float_de_entero ns)
    by (apply (H [])).
  revert ns. induction matches as [|m ms IH]; intros [|n ns] acc Hm; try discriminate.
  - simpl. rewrite app_nil_r. reflexivity.
  - simpl in Hm. injection Hm as Hm1 Hm2. cbn [fold_left].
    rewrite (py_float_numeral _ _ Hm1), (IH ns _ Hm2), <- app_assoc. reflexivity.
Qed.

Lemma essa_valores_numerales (matches : list string) (ns : list Z) :
  map entero_de (map (numeral Essa) matches) = map Some ns ->
  ESSA.valores_de matches = Ok (map float_de_entero ns).
Proof.
  revert ns. induction matches as [|m ms IH]; intros [|n ns] Hm; try discriminate.
  - reflexivity.
  - simpl in Hm. injection Hm as Hm1 Hm2.
    cbn [ESSA.valores_de]. unfold float_.
    rewrite (py_float_numeral _ _ Hm1), (IH ns Hm2). reflexivity.
Qed.

(** The values of a text are [float] of the integers of its numerals. *)
Lemma valores_numerales (f : familia) (texto : string) (ns : list Z) :
  map entero_de (numerales f texto) = map Some ns ->
  valores_del_texto f texto = Ok (map float_de_entero ns).
Proof.
  intros Hm. destruct f; simpl.
  - f_equal. exact (aire_valores_numerales _ _ Hm).
  - exact (essa_valores_numerales _ _ Hm).
Qed.

(** Below 2^53 they are the integers themselves. *)
Lemma valores_enteros (ns : list Z) :
  Forall (fun n => 0 <= n < dos53) ns -> map float_de_entero ns = map float_of_Z ns.
Proof.
  induction 1 as [|n ns Hn _ IH]; [reflexivity|].
  cbn [map]. rewrite IH. unfold float_de_entero.
  rewrite (float_of_ratio_entero n Hn). reflexivity.
Qed.

(** ** The mean between the minimum and the maximum *)

Lemma suma_cotas (lo hi : Z) (ns : list Z) :
  Forall (fun n => lo <= n <= hi) ns ->
  lo * Z.of_nat (length ns) <= suma ns <= hi * Z.of_nat (length ns).
Proof.
  induction 1 as [|n ns Hn _ IH]; [simpl; lia|].
  cbn [length suma fold_right]. fold (suma ns). lia.
Qed.

Lemma elemento_bajo_suma (ns : list Z) (n : Z) :
  Forall (fun n => 0 <= n) ns -> In n ns -> 0 <= n <= suma ns.
Proof.
  induction 1 as [|m ns Hm Hns IH]; intros Hin; [destruct Hin|].
  assert (Hsum : 0 <= suma ns) by (clear -Hns; induction Hns; simpl; lia).
  cbn [suma fold_right]. fold (suma ns).
  destruct Hin as [->|Hin]; [lia|]. specialize (IH Hin). lia.
Qed.

(** When the values are integers that add up to less than 2^53, the
    sum is exact, and the quotient, rounded once, stays between the
    minimum and the maximum, which are numbers of binary64. *)
Lemma promedio_entre (ns : list Z) (v : float) (vs : list float) :
  v :: vs = map float_of_Z ns ->
  Forall (fun n => 0 <= n) ns ->
  suma ns < dos53 ->
  Z.of_nat (length ns) < dos53 ->
  let promedio :=
    fdiv (py_sum (v :: vs)) (float_of_Z (Z.of_nat (length (v :: vs)))) in
  fle (py_min v vs) promedio = true /\ fle promedio (py_max v vs) = true.
Proof.
  intros Heq Hns Hs Hl promedio.
  assert (Hrep : forall n, In n ns -> representa (float_of_Z n) n).
  { intros n Hin. apply float_of_Z_representa.
    pose proof (elemento_bajo_suma ns n Hns Hin). lia. }
  assert (Hnum : Forall es_numero (v :: vs)).
  { rewrite Heq. apply Forall_forall. intros x Hx.
    apply list_elem_of_In, in_map_iff in Hx as (n & <- & Hin).
    exact (representa_numero _ _ (Hrep n Hin)). }
  destruct (py_min_spec vs v Hnum) as [Hmin_in Hmin_le].
  destruct (py_max_spec vs v Hnum) as [Hmax_in Hmax_le].
  rewrite Heq in Hmin_in, Hmax_in.
  apply list_elem_of_In, in_map_iff in Hmin_in as (lo & Hlo & Hlo_in).
  apply list_elem_of_In, in_map_iff in Hmax_in as (hi & Hhi & Hhi_in).
  assert (Hcotas : Forall (fun n => lo <= n <= hi) ns).
  { apply Forall_forall. intros n Hn. apply list_elem_of_In in Hn.
    assert (Hv : float_of_Z n ∈ v :: vs).
    { rewrite Heq. apply list_elem_of_In, in_map, Hn. }
    split.
    - apply (fle_representa _ _ _ _ (Hrep lo Hlo_in) (Hrep n Hn)).
      rewrite Hlo. apply Hmin_le, Hv.
    - apply (fle_representa _ _ _ _ (Hrep n Hn) (Hrep hi Hhi_in)).
      rewrite Hhi. apply Hmax_le, Hv. }
  apply suma_cotas in Hcotas.
  assert (Hlen : length (v :: vs) = length ns) by (rewrite Heq, length_map; reflexivity).
  assert (Hk : 0 < Z.of_nat (length ns)) by (rewrite <- Hlen; simpl; lia).
  pose proof (float_of_Z_canonico _ (conj Hk Hl)) as Hy.
  pose proof (py_sum_representa ns Hns Hs) as Hx. rewrite <- Heq in Hx.
  pose proof (Hrep lo Hlo_in) as Rlo. pose proof (Hrep hi Hhi_in) as Rhi.
  rewrite Hlo in Rlo. rewrite Hhi in Rhi.
  subst promedio. rewrite Hlen.
  destruct Hx as [[H0 ->]|Hx].
  - assert (Hz : representa (fdiv (S754_zero false) (float_of_Z (Z.of_nat (length ns)))) 0).
    { left. split; [reflexivity|]. destruct Hy as (m & e & -> & _). reflexivity. }
    pose proof (representa_no_negativo _ _ Rlo). pose proof (representa_no_negativo _ _ Rhi).
    split.
    + apply (fle_representa _ _ _ _ Rlo Hz). nia.
    + apply (fle_representa _ _ _ _ Hz Rhi). lia.
  - split.
    + apply (fdiv_cota_inferior _ _ _ _ _ lo Hx Hy Rlo). lia.
    + apply (fdiv_cota_superior _ _ _ _ _ hi Hx Hy Rhi). lia.
Qed.

End Enteros.

(** ** The characters that a match consumes *)

Lemma avanza_refl (P : ascii -> bool) (st : mstate) : avanza P st st.
Proof. exists []. repeat split; simpl; lia. Qed.

Lemma avanza_trans (P : ascii -> bool) (st1 st2 st3 : mstate) :
  avanza P st1 st2 -> avanza P st2 st3 -> avanza P st1 st3.
Proof.
  intros (w1 & H1 & H2 & H3 & H4) (w2 & G1 & G2 & G3 & G4).
  exists (w1 ++ w2). repeat split.
  - rewrite H1, G1, app_assoc. reflexivity.
  - rewrite length_app. lia.
  - rewrite forallb_app, H3, G3. reflexivity.
  - congruence.
Qed.

Lemma m_char_inv (p : ascii -> bool) (k : cont) (st res : mstate) :
  m_char p k st = Some res ->
  exists c r, rest st = c :: r /\ p c = true
              /\ k {| pos := S (pos st); rest := r; caps := caps st |} = Some res.
Proof.
  unfold m_char. destruct (rest st) as [|c r]; [discriminate|].
  destruct (p c) eqn:E; [|discriminate]. eauto.
Qed.

Lemma m_char_consume (P p : ascii -> bool) :
  (forall c, p c = true -> P c = true) -> consume P (m_char p).
Proof.
  intros HpP k st res H. apply m_char_inv in H as (c & r & Hr & Hc & Hk).
  eexists. split; [|exact Hk]. exists [c]. simpl. rewrite (HpP c Hc).
  repeat split; [exact Hr | lia].
Qed.

Lemma m_times_consume (P : ascii -> bool) (n : nat) (step : matcher) :
  consume P step -> consume P (m_times n step).
Proof.
  intros Hstep. induction n as [|n IH]; intros k st res H; simpl in H.
  - exists st. split; [apply avanza_refl | exact H].
  - apply Hstep in H as (st1 & H1 & H). apply IH in H as (st2 & H2 & H).
    exists st2. split; [exact (avanza_trans _ _ _ _ H1 H2) | exact H].
Qed.

Lemma m_upto_consume (P : ascii -> bool) (greedy : bool) (n : nat) (step : matcher) :
  consume P step -> consume P (m_upto greedy n step).
Proof.
  intros Hstep. induction n as [|n IH]; intros k st res H; simpl in H.
  - exists st. split; [apply avanza_refl | exact H].
  - assert (Hmore : forall res,
      step (fun st' => if (pos st <? pos st')%nat then m_upto greedy n step k st' else None) st
      = Some res -> exists st', avanza P st st' /\ k st' = Some res).
    { intros res' H'. apply Hstep in H' as (st1 & H1 & H').
      destruct (pos st <? pos st1)%nat; [|discriminate].
      apply IH in H' as (st2 & H2 & H'). exists st2.
      split; [exact (avanza_trans _ _ _ _ H1 H2) | exact H']. }
    assert (Hk : forall res, k st = Some res -> exists st', avanza P st st' /\ k st' = Some res).
    { intros res' H'. exists st. split; [apply avanza_refl | exact H']. }
    destruct greedy.
    + destruct (step _ st) as [r|] eqn:E; [injection H as <-; apply Hmore; reflexivity | apply Hk, H].
    + destruct (k st) as [r|] eqn:E; [injection H as <-; apply Hk; reflexivity | apply Hmore, H].
Qed.

Lemma exec_consume (P : ascii -> bool) (fl : flags) (r : regex) :
  solo P fl r -> consume P (exec fl r).
Proof.
  induction r as [| c | | neg items | a IHa b IHb | a IHa b IHb
                 | lo hi greedy a IHa | i a IHa | a IHa | |];
    intros Hs k st res H; cbn [exec solo] in *.
  - exists st. split; [apply avanza_refl | exact H].
  - exact (m_char_consume P _ Hs k st res H).
  - exact (m_char_consume P _ Hs k st res H).
  - exact (m_char_consume P _ Hs k st res H).
  - destruct Hs as [Ha Hb]. apply (IHa Ha) in H as (st1 & H1 & H).
    apply (IHb Hb) in H as (st2 & H2 & H). exists st2.
    split; [exact (avanza_trans _ _ _ _ H1 H2) | exact H].
  - destruct Hs as [Ha Hb]. destruct (exec fl a k st) as [r|] eqn:E.
    + injection H as <-. exact (IHa Ha k st r E).
    + exact (IHb Hb k st res H).
  - apply (m_times_consume P lo _ (IHa Hs)) in H as (st1 & H1 & H).
    apply (m_upto_consume P greedy _ _ (IHa Hs)) in H as (st2 & H2 & H).
    exists st2. split; [exact (avanza_trans _ _ _ _ H1 H2) | exact H].
  - apply (IHa Hs) in H as (st1 & H1 & H). exists (set_cap i st st1).
    split; [|exact H]. destruct H1 as (w & G1 & G2 & G3 & G4).
    exists w. unfold set_cap. cbn [rest pos caps]. repeat split; try assumption.
    rewrite length_insert. exact G4.
  - destruct (exec fl a Some st) as [st1|] eqn:E; [|discriminate].
    apply (IHa Hs) in E as (st2 & H2 & [= ->]).
    eexists. split; [|exact H]. destruct H2 as (w & G1 & G2 & G3 & G4).
    exists []. cbn [rest pos caps]. repeat split; simpl; lia.
  - destruct (pos st =? 0)%nat; [|discriminate].
    exists st. split; [apply avanza_refl | exact H].
  - exists st. split; [apply avanza_refl|].
    destruct (rest st) as [|c [|c' r]]; try discriminate; [exact H|].
    destruct (ascii_dec c newline); [exact H | discriminate].
Qed.

Lemma solo_todo (fl : flags) (r : regex) : solo (fun _ => true) fl r.
Proof. induction r; simpl; auto. Qed.

(** An implication between classes of characters, decided on the 256
    characters. *)
Lemma por_casos (p q : ascii -> bool) :
  forallb (fun n => implb (p (ascii_of_nat n)) (q (ascii_of_nat n))) (seq 0 256) = true ->
  forall x, p x = true -> q x = true.
Proof.
  intros H x Hp. rewrite forallb_forall in H.
  specialize (H (nat_of_ascii x)). rewrite ascii_nat_embedding, Hp in H.
  apply H, in_seq. pose proof (nat_ascii_bounded x). lia.
Qed.

(** ** Texts without a run of seven digits *)

Lemma falla_en_sufijo (k : cont) (l l' : list ascii) :
  falla_en k l -> l' `suffix_of` l -> falla_en k l'.
Proof. intros H Hl st Hst. apply H. etransitivity; eassumption. Qed.

Lemma m_char_pasa (p : ascii -> bool) : pasa_por_k (m_char p).
Proof.
  intros k st H. unfold m_char. destruct (rest st) as [|c r] eqn:E; [reflexivity|].
  destruct (p c); [|reflexivity]. apply H. simpl. apply suffix_cons_r.
  reflexivity.
Qed.

Lemma m_times_pasa (n : nat) (step : matcher) :
  pasa_por_k step -> pasa_por_k (m_times n step).
Proof.
  intros Hstep. induction n as [|n IH]; intros k st H; simpl; [apply H; reflexivity|].
  apply Hstep. intros st' Hst'. apply IH. eapply falla_en_sufijo; eassumption.
Qed.

Lemma m_upto_pasa (greedy : bool) (n : nat) (step : matcher) :
  pasa_por_k step -> pasa_por_k (m_upto greedy n step).
Proof.
  intros Hstep. induction n as [|n IH]; intros k st H; simpl; [apply H; reflexivity|].
  assert (Hk : k st = None) by (apply H; reflexivity).
  assert (Hmore :
    step (fun st' => if (pos st <? pos st')%nat then m_upto greedy n step k st' else None) st
    = None).
  { apply Hstep. intros st' Hst'. destruct (pos st <? pos st')%nat; [|reflexivity].
    apply IH. eapply falla_en_sufijo; eassumption. }
  rewrite Hmore, Hk. destruct greedy; reflexivity.
Qed.

(** Every regular expression succeeds through its continuation only. *)
Lemma exec_pasa (fl : flags) (r : regex) : pasa_por_k (exec fl r).
Proof.
  induction r as [| c | | neg items | a IHa b IHb | a IHa b IHb
                 | lo hi greedy a IHa | i a IHa | a IHa | |];
    intros k st H; cbn [exec].
  - apply H. reflexivity.
  - apply m_char_pasa, H.
  - apply m_char_pasa, H.
  - apply m_char_pasa, H.
  - apply IHa. intros st' Hst'. apply IHb. eapply falla_en_sufijo; eassumption.
  - rewrite (IHa k st H). apply IHb, H.
  - apply (m_times_pasa lo _ IHa). intros st1 Hst1.
    apply (m_upto_pasa greedy _ _ IHa). eapply falla_en_sufijo; eassumption.
  - apply IHa. intros st' Hst'. apply H. exact Hst'.
  - destruct (exec fl a Some st); [|reflexivity]. apply H. reflexivity.
  - destruct (pos st =? 0)%nat; [apply H|]; reflexivity.
  - destruct (rest st) as [|c [|c' r]] eqn:E; try reflexivity.
    + apply H. rewrite E. reflexivity.
    + destruct (ascii_dec c newline); [apply H; rewrite E|]; reflexivity.
Qed.

(** [n] characters of a class in a row need a run of that length. *)
Lemma m_times_racha (p : ascii -> bool) (n : nat) (k : cont) (st : mstate) :
  (length (take_while p (rest st)) < n)%nat -> m_times n (m_char p) k st = None.
Proof.
  revert st. induction n as [|n IH]; intros st H; [lia|].
  cbn [m_times]. unfold m_char at 1. destruct (rest st) as [|c r] eqn:E; [reflexivity|].
  simpl in H. destruct (p c); [|reflexivity]. apply IH. simpl in *. lia.
Qed.

Lemma sin_racha_sufijo (n : nat) (l l' : list ascii) :
  sin_racha n l = true -> l' `suffix_of` l ->
  (length (take_while digit_char l') < n)%nat.
Proof.
  revert l'. induction l as [|c l IH]; intros l' H Hl'.
  - apply suffix_nil_inv in Hl' as ->. simpl in *. apply andb_prop in H as [H _].
    apply Nat.ltb_lt in H. exact H.
  - cbn [sin_racha] in H. apply andb_prop in H as [H0 H1].
    apply Nat.ltb_lt in H0. destruct l' as [|x l1]; [simpl; lia|].
    apply suffix_cons_inv in Hl' as [Heq | Hl']; [rewrite Heq; exact H0 | apply IH; assumption].
Qed.

(** The pattern of the tokens, family by family: the head, seven digits,
    more digits, and a tail of digits and separators; the capture spans
    all but the head. *)
Lemma patron_de_tokens_cola (f : familia) :
  exists cola : regex,
    snd (re_compile (patron_de_tokens f)) = 1
    /\ solo (de_token f) no_flags cola
    /\ forall fl k st,
      exec fl (fst (re_compile (patron_de_tokens f))) k st
      = cabeza_de_token f fl
          (fun st1 =>
             m_times 7 (m_char (set_ok fl false [CCat Digit]))
               (fun st2 =>
                  m_upto true (length (rest st2)) (m_char (set_ok fl false [CCat Digit]))
                    (exec fl cola (fun st' => k (set_cap 1 st1 st'))) st2) st1) st.
Proof.
  destruct f.
  - exists (Rep 0 None true
              (Cat (Lit ".") (Rep 3 (Some 3) true (Set_ false [CCat Digit])))).
    split; [reflexivity|]. split; [|reflexivity].
    cbn [solo]. split; apply por_casos; vm_compute; reflexivity.
  - exists (Rep 0 None true (Set_ false [CCat Digit; CLit ","])).
    split; [reflexivity|]. split; [|reflexivity].
    cbn [solo]. apply por_casos; vm_compute; reflexivity.
Qed.

Lemma cabeza_de_token_pasa (f : familia) (fl : flags) : pasa_por_k (cabeza_de_token f fl).
Proof.
  destruct f; unfold cabeza_de_token.
  - apply exec_pasa.
  - intros k st H. apply exec_pasa. intros st' Hst'. apply exec_pasa.
    eapply falla_en_sufijo; eassumption.
Qed.

Lemma digito_sin_flags (c : ascii) : set_ok no_flags false [CCat Digit] c = digit_char c.
Proof. unfold set_ok, digit_char. simpl. rewrite orb_false_r. reflexivity. Qed.

Lemma take_while_ext (p q : ascii -> bool) (l : list ascii) :
  (forall c, p c = q c) -> take_while p l = take_while q l.
Proof. intros H. induction l as [|c l IH]; simpl; [|rewrite H, IH]; reflexivity. Qed.

(** Where no seven digits stand in a row, the pattern of the tokens has
    no match at any position. *)
Lemma sin_tokens_en (f : familia) (l l' : list ascii) (p : nat) :
  sin_racha 7 l = true -> l' `suffix_of` l ->
  match_at no_flags (re_compile (patron_de_tokens f)) p l' = None.
Proof.
  intros Hl Hl'. destruct (patron_de_tokens_cola f) as (cola & Hn & _ & Hexec).
  unfold match_at. rewrite Hexec.
  rewrite (cabeza_de_token_pasa f no_flags); [reflexivity|].
  intros st1 Hst1. apply m_times_racha.
  rewrite (take_while_ext _ _ _ digito_sin_flags).
  apply (sin_racha_sufijo 7 l); [exact Hl|].
  etransitivity; [exact Hst1 | exact Hl'].
Qed.

Lemma scan_sin_coincidencias (fl : flags) (re : regex * nat) (l : list ascii) :
  (forall l' p, l' `suffix_of` l -> match_at fl re p l' = None) ->
  forall p skip, scan fl re p skip l = [].
Proof.
  induction l as [|c l IH]; intros H p skip.
  - destruct skip; simpl; [|reflexivity]. rewrite H; reflexivity.
  - assert (Hl : forall l' p, l' `suffix_of` l -> match_at fl re p l' = None).
    { intros l' q Hl'. apply H. apply suffix_cons_r, Hl'. }
    destruct skip; cbn [scan]; [|apply IH, Hl].
    rewrite H by reflexivity. apply IH, Hl.
Qed.

(** A text without seven digits in a row has no monetary-shaped token. *)
Lemma tokens_sin_racha (f : familia) (texto : string) :
  sin_racha 7 (chars texto) = true -> tokens f texto = [].
Proof.
  intros H.
  assert (Hscan : re_finditer (patron_de_tokens f) texto no_flags = []).
  { unfold re_finditer. apply scan_sin_coincidencias.
    intros l' p Hl'. apply (sin_tokens_en f (chars texto)); assumption. }
  destruct f; simpl in *; [unfold AirE.tokens | unfold ESSA.tokens];
    unfold re_findall; rewrite Hscan; reflexivity.
Qed.

(** ** The tokens are numerals *)

Lemma cabeza_de_token_consume (f : familia) (fl : flags) :
  consume (fun _ => true) (cabeza_de_token f fl).
Proof.
  destruct f; unfold cabeza_de_token.
  - apply exec_consume, solo_todo.
  - intros k st res H.
    apply (exec_consume _ _ _ (solo_todo _ _)) in H as (st1 & H1 & H).
    apply (exec_consume _ _ _ (solo_todo _ _)) in H as (st2 & H2 & H).
    exists st2. split; [exact (avanza_trans _ _ _ _ H1 H2) | exact H].
Qed.

Lemma digito_de_token (f : familia) (c : ascii) :
  set_ok no_flags false [CCat Digit] c = true -> de_token f c = true.
Proof. rewrite digito_sin_flags. unfold de_token. intros ->. reflexivity. Qed.

(** The capture of a match of the pattern of the tokens: a digit, then
    digits and separators. *)
Lemma token_en (f : familia) (p : nat) (l : list ascii) (m : match_obj) :
  match_at no_flags (re_compile (patron_de_tokens f)) p l = Some m ->
  exists c w, digit_char c = true
              /\ forallb (de_token f) w = true
              /\ group m 1 = str (c :: w).
Proof.
  destruct (patron_de_tokens_cola f) as (cola & Hn & Hcola & Hexec).
  unfold match_at. rewrite Hexec, Hn.
  destruct (cabeza_de_token f no_flags _ _) as [st'|] eqn:E; [|discriminate].
  intros [= <-].
  apply cabeza_de_token_consume in E as (st1 & (w0 & _ & _ & _ & L1) & E).
  cbn [m_times] in E. apply m_char_inv in E as (c & r & Hr & Hc & E).
  rewrite digito_sin_flags in Hc.
  apply (m_times_consume (de_token f) 6 _ (m_char_consume _ _ (digito_de_token f))) in E
    as (st2 & H2 & E).
  apply (m_upto_consume (de_token f) true _ _ (m_char_consume _ _ (digito_de_token f))) in E
    as (st3 & H3 & E).
  apply (exec_consume (de_token f) no_flags cola Hcola) in E as (st4 & H4 & [= <-]).
  destruct (avanza_trans _ _ _ _ (avanza_trans _ _ _ _ H2 H3) H4)
    as (w & G1 & G2 & G3 & G4).
  cbn [rest pos caps] in G1, G2, G4.
  exists c, w. split; [exact Hc|]. split; [exact G3|].
  unfold group, set_cap. cbn [m_groups caps pos rest].
  rewrite list_lookup_insert_ne by discriminate.
  rewrite list_lookup_insert_eq by (rewrite G4, L1; cbn [caps]; rewrite length_replicate; lia).
  rewrite Hr, G1, G2.
  replace (S (pos st1) + length w - pos st1) with (S (length w)) by lia.
  cbn [take]. rewrite take_app_length. reflexivity.
Qed.

Lemma scan_match_at (fl : flags) (re : regex * nat) (l : list ascii) :
  forall p skip m, In m (scan fl re p skip l) ->
                   exists p' l', match_at fl re p' l' = Some m.
Proof.
  induction l as [|c l IH]; intros p skip m Hm.
  - destruct skip; cbn [scan] in Hm; [|destruct Hm].
    destruct (match_at fl re p []) as [m'|] eqn:E; [|destruct Hm].
    destruct Hm as [<-|[]]. eauto.
  - destruct skip; cbn [scan] in Hm; [|exact (IH _ _ _ Hm)].
    destruct (match_at fl re p (c :: l)) as [m'|] eqn:E; [|exact (IH _ _ _ Hm)].
    destruct Hm as [<-|Hm]; [eauto | exact (IH _ _ _ Hm)].
Qed.

(** Removing a character: [s.replace(c, '')]. *)
Lemma replace_from_vacio (c0 : ascii) (l : list ascii) :
  replace_from [c0] [] 0 l = List.filter (fun c => negb (bool_decide (c = c0))) l.
Proof.
  induction l as [|c l IH]; [reflexivity|].
  cbn [replace_from starts_with List.filter length Nat.sub app].
  destruct (ascii_dec c0 c) as [<-|Hne].
  - rewrite bool_decide_eq_true_2 by reflexivity. exact IH.
  - rewrite bool_decide_eq_false_2 by congruence. cbn [negb]. rewrite IH. reflexivity.
Qed.

Lemma numeral_sin_separador (f : familia) (l : list ascii) :
  numeral f (str l) = str (List.filter (fun c => negb (bool_decide (c = separador f))) l).
Proof.
  destruct f; unfold numeral, py_replace, chars, str;
    rewrite list_ascii_of_string_of_list_ascii; cbn [list_ascii_of_string];
    rewrite replace_from_vacio; reflexivity.
Qed.

(** The numeral of a token is a numeral: digits, and one at least. *)
Lemma numeral_de_token (f : familia) (c : ascii) (w : list ascii) :
  digit_char c = true -> forallb (de_token f) w = true ->
  exists n, entero_de (numeral f (str (c :: w))) = Some n.
Proof.
  intros Hc Hw. rewrite numeral_sin_separador. unfold entero_de, chars, str.
  rewrite list_ascii_of_string_of_list_ascii.
  assert (Hsep : bool_decide (c = separador f) = false).
  { apply bool_decide_eq_false_2. intros ->. destruct f; discriminate. }
  cbn [List.filter]. rewrite Hsep. cbn [negb forallb list_empty]. rewrite Hc.
  assert (Hd : forallb digit_char
                 (List.filter (fun c => negb (bool_decide (c = separador f))) w) = true).
  { apply forallb_forall. intros x Hx. apply filter_In in Hx as [Hx Hne].
    rewrite forallb_forall in Hw. specialize (Hw x Hx). unfold de_token in Hw.
    destruct (bool_decide (x = separador f)); [discriminate|].
    rewrite orb_false_r in Hw. exact Hw. }
  rewrite Hd. eauto.
Qed.

(** Every token of a text has a numeral of digits, which [float] reads:
    [enteros] has the integer of each token. *)
Lemma numerales_enteros (f : familia) (texto : string) :
  map entero_de (numerales f texto) = map Some (enteros f texto).
Proof.
  assert (H : Forall (fun s => exists n, entero_de s = Some n) (numerales f texto)).
  { apply List.Forall_forall. intros s Hs. unfold numerales in Hs.
    apply in_map_iff in Hs as (tok & <- & Htok).
    assert (Htok' : In tok (re_findall (patron_de_tokens f) texto no_flags))
      by (destruct f; exact Htok).
    unfold re_findall in Htok'. apply in_map_iff in Htok' as (m & <- & Hm).
    destruct (patron_de_tokens_cola f) as (_ & -> & _). cbn [Nat.min].
    apply scan_match_at in Hm as (p & l & Hm).
    apply token_en in Hm as (c & w & Hc & Hw & ->).
    exact (numeral_de_token f c w Hc Hw). }
  unfold enteros. induction H as [|s l (n & Hn) _ IH]; [reflexivity|].
  cbn [map omap list_omap]. rewrite Hn. cbn [map]. rewrite IH. reflexivity.
Qed.

(** ** Minimum, mean and maximum (C10) *)

(** The integers of numerals are not negative. *)
Lemma entero_no_negativo (l : list string) (ns : list Z) :
  map entero_de l = map Some ns -> Forall (fun n => (0 <= n)%Z) ns.
Proof.
  revert ns. induction l as [|s l IH]; intros [|n ns] H; try discriminate; constructor.
  - injection H as H _. unfold entero_de in H.
    destruct (forallb digit_char (chars s)) eqn:Hd; [|discriminate].
    destruct (list_empty (chars s)); [discriminate|]. injection H as <-.
    exact (digits_value_nonneg _ Hd).
  - injection H as _ H. exact (IH ns H).
Qed.

(** C10, as stated, fails: three tokens 7205759403792794 have the
    maximum 7205759403792794, and their mean, the binary64 sum
    21617278211378384 over 3, is 7205759403792795, above the maximum.
    (The exact sum, 21617278211378382, is no number of binary64 and
    rounds to the same sum, so that a compensated [sum] changes
    nothing here.) *)
Lemma C10_promedio_sobre_el_maximo :
  let texto := "7205759403792794 7205759403792794 7205759403792794" in
  let x := float_of_Z 7205759403792794 in
  exists t,
    totales Essa texto = Ok t
    /\ t !! "valores_encontrados" = Some (VFloats [x; x; x])
    /\ t !! "valor_maximo" = Some (VFloat x)
    /\ t !! "promedio_valores" = Some (VFloat (float_of_Z 7205759403792795))
    /\ fle (float_of_Z 7205759403792795) x = false.
Proof.
  intros texto x.
  exists (con_estadisticas x [x; x] ∅).
  split; [reflexivity|]. repeat split; reflexivity.
Qed.

(** C10 (amended): when the statistics are there, the values found are
    [float] of the integers of the tokens; the minimum and the maximum are
    items of the list of values, every value lies between them in the
    order of binary64, and the mean is the binary64 quotient of the sum of
    the values, added from the left, by their number.  The mean lies
    between the minimum and the maximum when the integers of the tokens,
    fewer than 2^53 of them, add up to less than 2^53: the values are then
    the integers themselves and their sum is exact. *)
Theorem C10_minimo_y_maximo (f : familia) (texto : string) (t : gmap string value)
    (valores : list float) :
  totales f texto = Ok t ->
  t !! "valores_encontrados" = Some (VFloats valores) ->
  exists minimo maximo promedio,
    t !! "valor_minimo" = Some (VFloat minimo)
    /\ t !! "valor_maximo" = Some (VFloat maximo)
    /\ t !! "promedio_valores" = Some (VFloat promedio)
    /\ promedio = fdiv (py_sum valores) (float_of_Z (Z.of_nat (length valores)))
    /\ valores = map float_de_entero (enteros f texto)
    /\ minimo ∈ valores
    /\ maximo ∈ valores
    /\ (forall v, v ∈ valores -> fle minimo v = true /\ fle v maximo = true)
    /\ ((suma (enteros f texto) < dos53)%Z ->
        (Z.of_nat (length (enteros f texto)) < dos53)%Z ->
        valores = map float_of_Z (enteros f texto)
        /\ fle minimo promedio = true
        /\ fle promedio maximo = true).
Proof.
  intros Ht Hvalores.
  destruct (totales_estadisticas f texto t valores Ht Hvalores)
    as (v & vs & -> & Hval & Hnum & Hmax & Hmin & Hprom).
  destruct (py_max_spec vs v Hnum) as [Hmax_in Hmax_le].
  destruct (py_min_spec vs v Hnum) as [Hmin_in Hmin_le].
  pose proof (numerales_enteros f texto) as Hns.
  rewrite (valores_numerales f texto _ Hns) in Hval. injection Hval as Hval.
  symmetry in Hval.
  exists (py_min v vs), (py_max v vs),
    (fdiv (py_sum (v :: vs)) (float_of_Z (Z.of_nat (length (v :: vs))))).
  split; [exact Hmin|]. split; [exact Hmax|]. split; [exact Hprom|].
  split; [reflexivity|]. split; [exact Hval|].
  split; [exact Hmin_in|]. split; [exact Hmax_in|].
  split; [intros x Hx; split; [apply Hmin_le | apply Hmax_le]; exact Hx|].
  intros Hsuma Hlen.
  pose proof (entero_no_negativo _ _ Hns) as Hpos.
  assert (Hcota : Forall (fun n => (0 <= n < dos53)%Z) (enteros f texto)).
  { apply List.Forall_forall. intros n Hn.
    pose proof (elemento_bajo_suma _ n Hpos Hn). lia. }
  rewrite (valores_enteros _ Hcota) in Hval.
  split; [exact Hval|]. exact (promedio_entre _ v vs Hval Hpos Hsuma Hlen).
Qed.

Lemma C10_minimo_y_maximo_testigo :
  let texto := "total 1234567 y 9999999, luego 123456 y 5000000" in
  let ns := [1234567; 9999999; 5000000]%Z in
  let valores := map float_of_Z ns in
  exists t,
    totales Aire texto = Ok t
    /\ t !! "valores_encontrados" = Some (VFloats valores)
    /\ enteros Aire texto = ns
    /\ exists minimo maximo promedio,
         t !! "valor_minimo" = Some (VFloat minimo)
         /\ t !! "valor_maximo" = Some (VFloat maximo)
         /\ t !! "promedio_valores" = Some (VFloat promedio)
         /\ minimo ∈ valores
         /\ maximo ∈ valores
         /\ fle minimo promedio = true
         /\ fle promedio maximo = true.
Proof.
  intros texto ns valores.
  exists (AirE.estadisticas valores ∅).
  assert (Ht : totales Aire texto = Ok (AirE.estadisticas valores ∅)) by reflexivity.
  assert (Hvalores :
    AirE.estadisticas valores ∅ !! "valores_encontrados" = Some (VFloats valores))
    by reflexivity.
  assert (Hns : enteros Aire texto = ns) by reflexivity.
  split; [exact Ht|]. split; [exact Hvalores|]. split; [exact Hns|].
  destruct (C10_minimo_y_maximo Aire texto _ valores Ht Hvalores)
    as (minimo & maximo & promedio & H1 & H2 & H3 & _ & _ & H5 & H6 & _ & H8).
  rewrite Hns in H8. destruct (H8 eq_refl eq_refl) as (_ & H9 & H10).
  exists minimo, maximo, promedio. repeat split; assumption.
Defined.

(** ** The two tokens of the specification (C6) *)

Lemma dos_numerales (f : familia) (texto : string) (a b : string) :
  Permutation (numerales f texto) [a; b] ->
  exists m1 m2,
    tokens f texto = [m1; m2]
    /\ (numeral f m1 = a /\ numeral f m2 = b \/ numeral f m1 = b /\ numeral f m2 = a).
Proof.
  intros H. apply Permutation_sym, Permutation_length_2_inv in H.
  unfold numerales in H.
  destruct (tokens f texto) as [|m1 [|m2 [|m3 l]]]; simpl in H;
    try (destruct H; discriminate).
  exists m1, m2. split; [reflexivity|].
  destruct H as [H|H]; injection H as H1 H2; auto.
Qed.

Lemma totales_aire_de_dos (texto m1 m2 a b : string) (x y : float) (t : gmap string value) :
  AirE.extraer_totales texto = Ok t ->
  AirE.tokens texto = [m1; m2] ->
  py_replace "." "" m1 = a -> py_replace "." "" m2 = b ->
  py_float a = Some x -> py_float b = Some y ->
  exists base, t = con_estadisticas x [y] base.
Proof.
  intros Ht Htok H1 H2 Hx Hy.
  apply aire_totales_forma in Ht as (base & _ & ->). exists base.
  rewrite Htok. cbn [list_empty]. unfold AirE.valores_de. cbn [fold_left].
  rewrite H1, H2, Hx, Hy. reflexivity.
Qed.

Lemma totales_essa_de_dos (texto m1 m2 a b : string) (x y : float) :
  ESSA.tokens texto = [m1; m2] ->
  py_replace "," "" m1 = a -> py_replace "," "" m2 = b ->
  py_float a = Some x -> py_float b = Some y ->
  ESSA.extraer_totales texto = Ok (con_estadisticas x [y] ∅).
Proof.
  intros Htok H1 H2 Hx Hy. unfold ESSA.extraer_totales.
  rewrite Htok. cbn [list_empty ESSA.valores_de]. unfold float_.
  rewrite H1, H2, Hx, Hy. reflexivity.
Qed.

Lemma totales_sin_tokens (f : familia) (texto : string) (t : gmap string value) :
  totales f texto = Ok t -> tokens f texto = [] ->
  Forall (fun k => t !! k = None) claves_estadisticas.
Proof.
  intros Ht Htokens. destruct f; simpl in Ht.
  - apply aire_totales_forma in Ht as (base & Hbase & ->).
    change (AirE.tokens texto) with (tokens Aire texto). rewrite Htokens. exact Hbase.
  - apply essa_totales_forma in Ht.
    change (ESSA.tokens texto) with (tokens Essa texto) in Ht. rewrite Htokens in Ht.
    simpl in Ht. subst t. repeat constructor; apply lookup_empty.
Qed.

Lemma lit_ok_igual (c x : ascii) : lit_ok no_flags c x = true -> x = c.
Proof.
  unfold lit_ok, fold_case, code. cbn [ignorecase no_flags]. intros H.
  apply N.eqb_eq in H.
  rewrite <- (ascii_N_embedding x), <- (ascii_N_embedding c). congruence.
Qed.

(** A word of literals consumes itself. *)
Lemma exec_literales (w : list ascii) (c : ascii) (k : cont) (st res : mstate) :
  exec no_flags (literales c w) k st = Some res ->
  exists r, rest st = c :: w ++ r
            /\ k {| pos := pos st + S (length w); rest := r; caps := caps st |} = Some res.
Proof.
  revert c st. induction w as [|d w IH]; intros c st H; cbn [literales exec] in H.
  - apply m_char_inv in H as (x & r & Hr & Hx & H). apply lit_ok_igual in Hx as ->.
    exists r. split; [exact Hr|]. rewrite Nat.add_1_r. exact H.
  - apply m_char_inv in H as (x & r & Hr & Hx & H). apply lit_ok_igual in Hx as ->.
    apply IH in H as (r' & Hr' & H). cbn [rest pos caps] in Hr', H.
    exists r'. split; [rewrite Hr, Hr'; reflexivity|].
    cbn [length]. replace (pos st + S (S (length w))) with (S (pos st) + S (length w)) by lia.
    exact H.
Qed.

(** The total of the known invoice is captured as it is written. *)
Lemma total_general_captura (p : nat) (l : list ascii) (m : match_obj) :
  match_at no_flags (re_compile AirE.patron_total_general) p l = Some m ->
  group m 1 = "341.754.770".
Proof.
  change (re_compile AirE.patron_total_general)
    with (Cat (Rep 0 (Some 1) true (Lit "$"))
            (Grp 1 (literales "3" (chars "41.754.770"))), 1).
  unfold match_at. cbn [fst snd].
  destruct (exec no_flags _ Some _) as [st'|] eqn:E; [|discriminate].
  intros [= <-]. cbn [exec] in E.
  change (m_times 0 (exec no_flags (Lit "$"))
            (fun st1 => m_upto true (1 - 0) (exec no_flags (Lit "$"))
               (exec no_flags (Grp 1 (literales "3" (chars "41.754.770"))) Some) st1)
            {| pos := p; rest := l; caps := replicate 2 None |} = Some st') in E.
  cbn [m_times] in E.
  apply (m_upto_consume (fun _ => true) true _ _
           (exec_consume _ _ (Lit "$") (solo_todo _ _))) in E
    as (st1 & (w0 & _ & _ & _ & L1) & E).
  cbn [exec] in E. apply exec_literales in E as (r & Hr & [= <-]).
  unfold group, set_cap. cbn [m_groups caps pos rest].
  rewrite list_lookup_insert_ne by discriminate.
  rewrite list_lookup_insert_eq by (rewrite L1; cbn [caps]; rewrite length_replicate; lia).
  rewrite Hr.
  replace (pos st1 + 11 - pos st1) with 11 by lia.
  reflexivity.
Qed.

(** [float] never refuses the total of the known invoice. *)
Lemma total_general_numero (texto : string) :
  re_findall AirE.patron_total_general texto no_flags <> [] ->
  py_float (py_replace "." ""
              (first_of (re_findall AirE.patron_total_general texto no_flags)))
  = Some (float_of_Z 341754770).
Proof.
  intros Hne.
  assert (Hin : forall s, In s (re_findall AirE.patron_total_general texto no_flags) ->
                          s = "341.754.770").
  { intros s Hin. unfold re_findall in Hin. apply in_map_iff in Hin as (m & <- & Hin).
    apply scan_match_at in Hin as (p & l & Hin).
    exact (total_general_captura p l m Hin). }
  destruct (re_findall AirE.patron_total_general texto no_flags) as [|x l];
    [congruence|].
  cbn [first_of hd]. rewrite (Hin x) by (left; reflexivity). reflexivity.
Qed.

(** air-e's totals raise only when [float] refuses the amount after
    "Total a pagar mes". *)
Lemma aire_totales_excepcion (texto : string) (e : exn) :
  AirE.extraer_totales texto = Raise e -> total_rechazado texto.
Proof.
  unfold AirE.extraer_totales, total_rechazado, if_match_r, float_. intros H.
  pose proof (total_general_numero texto) as Hg.
  destruct (re_search AirE.patron_total_pagar texto IGNORECASE) as [m|].
  - destruct (py_float (AirE.sin_separadores (group m 1))) eqn:E1; [|eauto].
    exfalso. rewrite !bind_Ok_l in H.
    destruct (re_findall AirE.patron_total_general texto no_flags) as [|x l] eqn:Em;
      [discriminate|].
    cbn [list_empty] in H. rewrite Hg in H by discriminate. discriminate.
  - exfalso. rewrite !bind_Ok_l in H.
    destruct (re_findall AirE.patron_total_general texto no_flags) as [|x l] eqn:Em;
      [discriminate|].
    cbn [list_empty] in H. rewrite Hg in H by discriminate. discriminate.
Qed.

(** C6: when the tokens found in the text have the numerals "1234567" and
    "9999999", one token each, the totals hold the maximum 9999999, the
    minimum 1234567 and the mean 5617283; the ESSA totals are always
    returned, the air-e ones unless [float] refuses the amount after
    "Total a pagar mes" (the exception of C2).  A text in which no seven
    digits stand in a row, such as "123456", has no token and no
    statistics. *)
Theorem C6_totales_de_dos_tokens (f : familia) (texto : string) :
  Permutation (numerales f texto) ["1234567"; "9999999"] ->
  match totales f texto with
  | Ok t =>
      t !! "valor_maximo" = Some (VFloat (float_of_Z 9999999))
      /\ t !! "valor_minimo" = Some (VFloat (float_of_Z 1234567))
      /\ t !! "promedio_valores" = Some (VFloat (float_of_Z 5617283))
  | Raise _ => f = Aire /\ total_rechazado texto
  end
  /\ (forall corto,
        sin_racha 7 (chars corto) = true ->
        tokens f corto = []
        /\ forall t, totales f corto = Ok t ->
                     Forall (fun k => t !! k = None) claves_estadisticas)
  /\ sin_racha 7 (chars "123456") = true
  /\ totales f "123456" = Ok ∅.
Proof.
  intros Hperm. split; [|split; [|destruct f; split; reflexivity]].
  - destruct (dos_numerales f texto _ _ Hperm) as (m1 & m2 & Htok & Hnum).
    assert (Hx : py_float "1234567" = Some (float_of_Z 1234567)) by reflexivity.
    assert (Hy : py_float "9999999" = Some (float_of_Z 9999999)) by reflexivity.
    destruct f; simpl in Htok, Hnum.
    + destruct (totales Aire texto) as [t|e] eqn:E;
        [|split; [reflexivity|exact (aire_totales_excepcion texto e E)]].
      simpl in E.
      destruct Hnum as [[H1 H2] | [H1 H2]].
      * destruct (totales_aire_de_dos texto m1 m2 _ _ _ _ t E Htok H1 H2 Hx Hy)
          as (base & ->).
        destruct (estadisticas_campos (float_of_Z 1234567) [float_of_Z 9999999] base)
          as (_ & -> & -> & ->).
        repeat split; reflexivity.
      * destruct (totales_aire_de_dos texto m1 m2 _ _ _ _ t E Htok H1 H2 Hy Hx)
          as (base & ->).
        destruct (estadisticas_campos (float_of_Z 9999999) [float_of_Z 1234567] base)
          as (_ & -> & -> & ->).
        repeat split; reflexivity.
    + change (totales Essa texto) with (ESSA.extraer_totales texto).
      destruct Hnum as [[H1 H2] | [H1 H2]].
      * rewrite (totales_essa_de_dos texto m1 m2 _ _ _ _ Htok H1 H2 Hx Hy).
        repeat split; reflexivity.
      * rewrite (totales_essa_de_dos texto m1 m2 _ _ _ _ Htok H1 H2 Hy Hx).
        repeat split; reflexivity.
  - intros corto Hcorto. pose proof (tokens_sin_racha f corto Hcorto) as Htokens.
    split; [exact Htokens|]. intros t Ht. exact (totales_sin_tokens f corto t Ht Htokens).
Qed.

Lemma C6_totales_de_dos_tokens_testigo :
  let texto := "saldo 1234567, y 123456; total $ 9999999" in
  Permutation (numerales Essa texto) ["1234567"; "9999999"]
  /\ tokens Essa texto = ["1234567,"; "9999999"]
  /\ match totales Essa texto with
     | Ok t =>
         t !! "valor_maximo" = Some (VFloat (float_of_Z 9999999))
         /\ t !! "valor_minimo" = Some (VFloat (float_of_Z 1234567))
         /\ t !! "promedio_valores" = Some (VFloat (float_of_Z 5617283))
     | Raise _ => Essa = Aire /\ total_rechazado texto
     end.
Proof.
  intros texto.
  assert (Hperm : Permutation (numerales Essa texto) ["1234567"; "9999999"])
    by (vm_compute; apply Permutation_refl).
  exact (conj Hperm (conj eq_refl (proj1 (C6_totales_de_dos_tokens Essa texto Hperm)))).
Defined.

(** ** The keys of the result (C4) *)

Lemma aire_todos_forma (texto : string) (datos : gmap string section) :
  AirE.extraer_todos_los_datos texto = Ok datos ->
  dom datos = secciones Aire
  /\ exists t, AirE.extraer_totales texto = Ok t /\ datos !! "totales" = Some (Fields t).
Proof.
  unfold AirE.extraer_todos_los_datos. intros H.
  repeat (apply bind_Ok in H as (? & ? & H)). injection H as <-. split.
  - rewrite !dom_insert_L, dom_empty_L. unfold secciones. set_solver.
  - eexists. split; [eassumption|].
    rewrite lookup_insert_ne by discriminate. apply lookup_insert_eq.
Qed.

Lemma essa_todos_forma (texto : string) (datos : gmap string section) :
  ESSA.extraer_todos_los_datos texto = Ok datos ->
  dom datos = secciones Essa
  /\ exists t, ESSA.extraer_totales texto = Ok t /\ datos !! "totales" = Some (Fields t).
Proof.
  unfold ESSA.extraer_todos_los_datos. intros H.
  repeat (apply bind_Ok in H as (? & ? & H)). injection H as <-. split.
  - rewrite !dom_insert_L, dom_empty_L. unfold secciones. set_solver.
  - eexists. split; [eassumption|].
    rewrite lookup_insert_ne by discriminate. apply lookup_insert_eq.
Qed.

(** C4, as stated, fails: the ESSA result for the empty text has the key
    "totales", and under it (as under eight other keys) a section without
    any field. *)
Lemma C4_seccion_vacia_presente :
  exists datos,
    extraer_todos Essa "" = Ok datos
    /\ datos !! "totales" = Some (Fields ∅)
    /\ section_empty (Fields ∅) = true
    /\ tokens Essa "" = [].
Proof.
  exists (datos_sin_coincidencias Essa). repeat split; reflexivity.
Qed.

(** C4 (amended): the result of an extraction has every section of the
    family as a key, whether the section has fields or not; when the text
    has no monetary-shaped token, the section of totals has none of the
    four statistics. *)
Theorem C4_claves_del_resultado (f : familia) (texto : string)
    (datos : gmap string section) :
  extraer_todos f texto = Ok datos ->
  dom datos = secciones f
  /\ (tokens f texto = [] ->
      exists t,
        datos !! "totales" = Some (Fields t)
        /\ Forall (fun k => t !! k = None) claves_estadisticas).
Proof.
  intros Hdatos.
  assert (H : dom datos = secciones f
              /\ exists t, totales f texto = Ok t /\ datos !! "totales" = Some (Fields t)).
  { destruct f; simpl in Hdatos;
      [apply aire_todos_forma | apply essa_todos_forma]; exact Hdatos. }
  destruct H as (Hdom & t & Ht & Hlookup).
  split; [exact Hdom|]. intros Htokens. exists t. split; [exact Hlookup|].
  exact (totales_sin_tokens f texto t Ht Htokens).
Qed.

Lemma C4_claves_del_resultado_testigo :
  let texto := "NIC: 12345" in
  exists datos,
    extraer_todos Aire texto = Ok datos
    /\ datos !! "informacion_general" = Some (Fields {[ "nic" := VStr "12345" ]})
    /\ dom datos = secciones Aire
    /\ (tokens Aire texto = [] ->
        exists t,
          datos !! "totales" = Some (Fields t)
          /\ Forall (fun k => t !! k = None) claves_estadisticas).
Proof.
  intros texto.
  exists (<["informacion_general" := Fields {[ "nic" := VStr "12345" ]}]>
            (datos_sin_coincidencias Aire)).
  assert (Hdatos :
    extraer_todos Aire texto
    = Ok (<["informacion_general" := Fields {[ "nic" := VStr "12345" ]}]>
            (datos_sin_coincidencias Aire))) by reflexivity.
  exact (conj Hdatos (conj eq_refl (C4_claves_del_resultado Aire texto _ Hdatos))).
Defined.

(** ** What a group captures *)

Lemma m_times_sigue (R : mstate -> mstate -> Prop) (n : nat) (step : matcher) :
  (forall st, R st st) -> (forall a b c, R a b -> R b c -> R a c) ->
  sigue R step -> sigue R (m_times n step).
Proof.
  intros Hrefl Htrans Hstep. induction n as [|n IH]; intros k st res H; simpl in H.
  - exists st. split; [apply Hrefl | exact H].
  - apply Hstep in H as (st1 & H1 & H). apply IH in H as (st2 & H2 & H).
    exists st2. split; [exact (Htrans _ _ _ H1 H2) | exact H].
Qed.

Lemma m_upto_sigue (R : mstate -> mstate -> Prop) (greedy : bool) (n : nat)
    (step : matcher) :
  (forall st, R st st) -> (forall a b c, R a b -> R b c -> R a c) ->
  sigue R step -> sigue R (m_upto greedy n step).
Proof.
  intros Hrefl Htrans Hstep. induction n as [|n IH]; intros k st res H; simpl in H.
  - exists st. split; [apply Hrefl | exact H].
  - assert (Hmore : forall res,
      step (fun st' => if (pos st <? pos st')%nat then m_upto greedy n step k st' else None) st
      = Some res -> exists st', R st st' /\ k st' = Some res).
    { intros res' H'. apply Hstep in H' as (st1 & H1 & H').
      destruct (pos st <? pos st1)%nat; [|discriminate].
      apply IH in H' as (st2 & H2 & H'). exists st2.
      split; [exact (Htrans _ _ _ H1 H2) | exact H']. }
    assert (Hk : forall res, k st = Some res -> exists st', R st st' /\ k st' = Some res).
    { intros res' H'. exists st. split; [apply Hrefl | exact H']. }
    destruct greedy.
    + destruct (step _ st) as [r|] eqn:E;
        [injection H as <-; apply Hmore; reflexivity | apply Hk, H].
    + destruct (k st) as [r|] eqn:E;
        [injection H as <-; apply Hk; reflexivity | apply Hmore, H].
Qed.

Lemma traza_refl (P : ascii -> bool) (i : nat) (fl : flags) (r : regex) (st : mstate) :
  traza P i fl r st st.
Proof. split; [intros; apply avanza_refl | auto]. Qed.

Lemma traza_trans (P : ascii -> bool) (i : nat) (fl : flags) (r : regex)
    (a b c : mstate) :
  traza P i fl r a b -> traza P i fl r b c -> traza P i fl r a c.
Proof.
  intros [H1 H2] [G1 G2]. split.
  - intros Q HQ. exact (avanza_trans _ _ _ _ (H1 Q HQ) (G1 Q HQ)).
  - auto.
Qed.

Lemma traza_m_char (P : ascii -> bool) (i : nat) (p : ascii -> bool) (k : cont)
    (st res : mstate) :
  m_char p k st = Some res ->
  exists st', k st' = Some res
              /\ (forall Q : ascii -> bool, (forall x, p x = true -> Q x = true) ->
                                            avanza Q st st')
              /\ (captura_en P i st -> captura_en P i st').
Proof.
  intros H. apply m_char_inv in H as (c & r & Hr & Hc & Hk).
  eexists. split; [exact Hk|]. split.
  - intros Q HQ. exists [c]. simpl. rewrite (HQ c Hc). repeat split; [exact Hr | lia].
  - intros Hcap. exact Hcap.
Qed.

Lemma exec_traza (P : ascii -> bool) (i : nat) (fl : flags) (r : regex) :
  sigue (traza P i fl r) (exec fl r).
Proof.
  induction r as [| c | | neg items | a IHa b IHb | a IHa b IHb
                 | lo hi greedy a IHa | j a IHa | a IHa | |];
    intros k st res H; cbn [exec] in H.
  - exists st. split; [apply traza_refl | exact H].
  - apply (traza_m_char P i) in H as (st' & Hk & Ha & Hc). exists st'.
    split; [|exact Hk]. split; [intros Q HQ; apply Ha, HQ | intros _; exact Hc].
  - apply (traza_m_char P i) in H as (st' & Hk & Ha & Hc). exists st'.
    split; [|exact Hk]. split; [intros Q HQ; apply Ha, HQ | intros _; exact Hc].
  - apply (traza_m_char P i) in H as (st' & Hk & Ha & Hc). exists st'.
    split; [|exact Hk]. split; [intros Q HQ; apply Ha, HQ | intros _; exact Hc].
  - apply IHa in H as (st1 & [A1 C1] & H). apply IHb in H as (st2 & [A2 C2] & H).
    exists st2. split; [|exact H]. split.
    + intros Q [Qa Qb]. exact (avanza_trans _ _ _ _ (A1 Q Qa) (A2 Q Qb)).
    + intros [Ga Gb] Hc. auto.
  - destruct (exec fl a k st) as [r|] eqn:E.
    + injection H as <-. apply IHa in E as (st1 & [A1 C1] & E). exists st1.
      split; [|exact E]. split; [intros Q [Qa _]; auto | intros [Ga _]; auto].
    + apply IHb in H as (st1 & [A1 C1] & E'). exists st1.
      split; [|exact E']. split; [intros Q [_ Qb]; auto | intros [_ Gb]; auto].
  - apply (m_times_sigue _ lo _ (traza_refl P i fl a) (traza_trans P i fl a) IHa) in H
      as (st1 & H1 & H).
    apply (m_upto_sigue _ greedy _ _ (traza_refl P i fl a) (traza_trans P i fl a) IHa) in H
      as (st2 & H2 & H).
    exists st2. split; [exact (traza_trans _ _ _ _ _ _ _ H1 H2) | exact H].
  - apply IHa in H as (st1 & [A1 C1] & H). exists (set_cap j st st1).
    split; [|exact H].
    assert (Hav : forall Q, solo Q fl a -> avanza Q st (set_cap j st st1)).
    { intros Q HQ. destruct (A1 Q HQ) as (w & G1 & G2 & G3 & G4).
      exists w. unfold set_cap. cbn [rest pos caps]. repeat split; try assumption.
      rewrite length_insert. exact G4. }
    split; [exact Hav|].
    intros [Gj Ga] Hc s Hs. unfold set_cap in Hs. cbn [caps] in Hs.
    destruct (Nat.eq_dec j i) as [->|Hne].
    + destruct (Nat.lt_ge_cases i (length (caps st1))) as [Hlt|Hge].
      * rewrite list_lookup_insert_eq in Hs by exact Hlt. injection Hs as <-.
        destruct (A1 P (Gj eq_refl)) as (w & G1 & G2 & G3 & _).
        rewrite G1, G2. replace (pos st + length w - pos st) with (length w) by lia.
        rewrite take_app_length. unfold chars, str.
        rewrite list_ascii_of_string_of_list_ascii. exact G3.
      * rewrite list_insert_ge in Hs by exact Hge. exact (C1 Ga Hc s Hs).
    + rewrite list_lookup_insert_ne in Hs by exact Hne. exact (C1 Ga Hc s Hs).
  - destruct (exec fl a Some st) as [st1|] eqn:E; [|discriminate].
    apply IHa in E as (st2 & [A2 C2] & [= ->]).
    eexists. split; [|exact H]. split.
    + intros Q _. destruct (A2 _ (solo_todo fl a)) as (w & G1 & G2 & G3 & G4).
      exists []. cbn [rest pos caps]. repeat split; simpl; lia.
    + intros Ga Hc. exact (C2 Ga Hc).
  - destruct (pos st =? 0)%nat; [|discriminate].
    exists st. split; [apply traza_refl | exact H].
  - exists st. split; [apply traza_refl|].
    destruct (rest st) as [|c [|c' r]]; try discriminate; [exact H|].
    destruct (ascii_dec c newline); [exact H | discriminate].
Qed.

(** The groups of a match have the characters that their expressions
    accept. *)
Lemma grupo_de_clase (P : ascii -> bool) (fl : flags) (re : regex * nat) (i : nat)
    (p : nat) (l : list ascii) (m : match_obj) :
  grupo_solo P fl i (fst re) -> i <> 0 ->
  match_at fl re p l = Some m ->
  forallb P (chars (group m i)) = true.
Proof.
  intros Hg Hi. unfold match_at.
  destruct (exec fl (fst re) Some _) as [st'|] eqn:E; [|discriminate].
  intros [= <-]. apply (exec_traza P i) in E as (st1 & [_ Hc] & [= ->]).
  unfold group. cbn [m_groups].
  rewrite list_lookup_insert_ne by (intros H; apply Hi; symmetry; exact H).
  destruct (caps st' !! i) as [[s|]|] eqn:Es; try reflexivity.
  apply (Hc Hg); [|exact Es].
  intros s' Hs'. cbn [caps] in Hs'. apply lookup_replicate in Hs' as [[=] _].
Qed.

Lemma search_from_match_at (fl : flags) (re : regex * nat) (l : list ascii) :
  forall p m, search_from fl re p l = Some m ->
              exists p' l', match_at fl re p' l' = Some m.
Proof.
  induction l as [|c l IH]; intros p m H; cbn [search_from] in H.
  - destruct (match_at fl re p []) as [m'|] eqn:E; [|discriminate].
    injection H as <-. eauto.
  - destruct (match_at fl re p (c :: l)) as [m'|] eqn:E.
    + injection H as <-. eauto.
    + exact (IH _ _ H).
Qed.

Lemma re_search_clase (P : ascii -> bool) (fl : flags) (patron texto : string) (i : nat)
    (m : match_obj) :
  grupo_solo P fl i (fst (re_compile patron)) -> i <> 0 ->
  re_search patron texto fl = Some m ->
  forallb P (chars (group m i)) = true.
Proof.
  intros Hg Hi H. apply search_from_match_at in H as (p & l & H).
  exact (grupo_de_clase P fl _ i p l m Hg Hi H).
Qed.

Lemma re_finditer_clase (P : ascii -> bool) (fl : flags) (patron texto : string) (i : nat)
    (m : match_obj) :
  grupo_solo P fl i (fst (re_compile patron)) -> i <> 0 ->
  In m (re_finditer patron texto fl) ->
  forallb P (chars (group m i)) = true.
Proof.
  intros Hg Hi H. apply scan_match_at in H as (p & l & H).
  exact (grupo_de_clase P fl _ i p l m Hg Hi H).
Qed.

(** Decides that the groups [i] of a pattern accept a class only. *)
Ltac clase_de_grupo :=
  match goal with
  | |- grupo_solo ?P ?fl ?i (fst (re_compile ?pat)) =>
      let r := eval vm_compute in (fst (re_compile pat)) in
      change (grupo_solo P fl i r);
      cbn [grupo_solo solo];
      repeat match goal with
             | |- _ /\ _ => split
             | |- True => exact I
             | |- _ = _ -> _ => let H := fresh in intros H; try discriminate H; clear H
             | |- forall x, _ = true -> _ = true => apply por_casos; vm_compute; reflexivity
             end
  end.

Lemma re_findall_clase (P : ascii -> bool) (fl : flags) (patron texto : string) (s : string) :
  snd (re_compile patron) = 1 ->
  grupo_solo P fl 1 (fst (re_compile patron)) ->
  In s (re_findall patron texto fl) ->
  forallb P (chars s) = true.
Proof.
  intros Hn Hg H. unfold re_findall in H. apply in_map_iff in H as (m & <- & Hm).
  rewrite Hn. cbn [Nat.min].
  exact (re_finditer_clase P fl patron texto 1 m Hg ltac:(discriminate) Hm).
Qed.

(** ** The amounts are read from their digits *)

Lemma filter_filter_digitos (l : list ascii) (c0 : ascii) :
  digit_char c0 = false ->
  List.filter digit_char (List.filter (fun c => negb (bool_decide (c = c0))) l)
  = List.filter digit_char l.
Proof.
  intros H0. induction l as [|c l IH]; [reflexivity|]. cbn [List.filter].
  destruct (bool_decide_reflect (c = c0)) as [->|Hne]; cbn [negb].
  - rewrite H0. exact IH.
  - cbn [List.filter]. rewrite IH. reflexivity.
Qed.

Lemma py_replace_vacio (c0 : ascii) (s : string) :
  chars (py_replace (String c0 "") "" s)
  = List.filter (fun c => negb (bool_decide (c = c0))) (chars s).
Proof.
  unfold py_replace, chars, str. rewrite list_ascii_of_string_of_list_ascii.
  cbn [list_ascii_of_string]. apply replace_from_vacio.
Qed.

Lemma filter_todos (p : ascii -> bool) (l : list ascii) :
  forallb p l = true -> List.filter p l = l.
Proof.
  induction l as [|c l IH]; [reflexivity|]. cbn [forallb List.filter].
  intros H. apply andb_prop in H as [-> Hl]. rewrite (IH Hl). reflexivity.
Qed.

(** Without its separator a string of digits and separators is the
    string of its digits. *)
Lemma sin_separador_digitos (c0 : ascii) (l : list ascii) :
  digit_char c0 = false ->
  forallb (fun c => digit_char c || bool_decide (c = c0)) l = true ->
  List.filter (fun c => negb (bool_decide (c = c0))) l = List.filter digit_char l.
Proof.
  intros H0. induction l as [|c l IH]; [reflexivity|]. cbn [forallb List.filter].
  intros H. apply andb_prop in H as [Hc Hl]. rewrite (IH Hl).
  destruct (bool_decide_reflect (c = c0)) as [->|Hne]; cbn [negb].
  - rewrite H0. reflexivity.
  - rewrite orb_false_r in Hc. rewrite Hc. reflexivity.
Qed.

Lemma py_float_digitos (s : string) :
  forallb digit_char (chars s) = true -> py_float s = float_de_digitos (chars s).
Proof.
  intros Hd. destruct (chars s) as [|c l] eqn:E.
  - unfold py_float. rewrite E. reflexivity.
  - cbn [float_de_digitos]. rewrite <- E. apply py_float_numeral.
    unfold entero_de. rewrite E in *. rewrite Hd. reflexivity.
Qed.

(** air-e: the amount of a capture of digits, commas and points. *)
Lemma monto_aire (s : string) :
  forallb de_monto (chars s) = true ->
  py_float (AirE.sin_separadores s) = float_de_digitos (digitos s).
Proof.
  intros H. unfold AirE.sin_separadores, digitos.
  assert (Hc : chars (py_replace "." "" (py_replace "," "" s)) = List.filter digit_char (chars s)).
  { rewrite (py_replace_vacio "."), (py_replace_vacio ",").
    induction (chars s) as [|c l IH]; [reflexivity|].
    cbn [forallb] in H. apply andb_prop in H as [Hc Hl]. cbn [List.filter].
    unfold de_monto in Hc.
    destruct (bool_decide_reflect (c = ","%char)) as [->|Hn1]; cbn [negb].
    - rewrite (IH Hl). reflexivity.
    - cbn [List.filter].
      destruct (bool_decide_reflect (c = "."%char)) as [->|Hn2]; cbn [negb].
      + rewrite (IH Hl). reflexivity.
      + rewrite !orb_false_r in Hc. rewrite Hc, (IH Hl). reflexivity. }
  rewrite py_float_digitos; rewrite Hc; [reflexivity|].
  apply forallb_forall. intros x Hx. apply filter_In in Hx as [_ Hx]. exact Hx.
Qed.

(** ESSA: the amount of a capture of digits and commas. *)
Lemma monto_essa (s : string) :
  forallb (de_token Essa) (chars s) = true ->
  py_float (py_replace "," "" s) = float_de_digitos (digitos s).
Proof.
  intros H. unfold digitos.
  assert (Hc : chars (py_replace "," "" s) = List.filter digit_char (chars s)).
  { rewrite (py_replace_vacio ","). apply sin_separador_digitos; [reflexivity|exact H]. }
  rewrite py_float_digitos; rewrite Hc; [reflexivity|].
  apply forallb_forall. intros x Hx. apply filter_In in Hx as [_ Hx]. exact Hx.
Qed.

Lemma last_of_in (l : list string) : l <> [] -> In (last_of l) l.
Proof.
  unfold last_of. induction l as [|a [|b l] IH]; intros H; [congruence|left; reflexivity|].
  right. apply IH. discriminate.
Qed.

Lemma valor_total_digitos (f : familia) (texto : string) :
  ocurrencias_total f texto <> [] ->
  valor_total f (last_of (ocurrencias_total f texto))
  = float_de_digitos (digitos (last_of (ocurrencias_total f texto))).
Proof.
  intros Hne. pose proof (last_of_in _ Hne) as Hin. destruct f; cbn [valor_total].
  - apply monto_aire.
    apply (re_findall_clase de_monto IGNORECASE AirE.patron_total texto); [reflexivity| |exact Hin].
    clase_de_grupo.
  - apply monto_essa.
    apply (re_findall_clase (de_token Essa) IGNORECASE ESSA.patron_total texto);
      [reflexivity| |exact Hin].
    clase_de_grupo.
Qed.

(** X1: when the text has an amount after "TOTAL A PAGAR", the total to
    pay is the integer that the digits of the last capture spell, its
    commas and points dropped (also a decimal one); when that capture has
    no digit the method raises [ValueError]. *)
Theorem total_pagar_de_los_digitos (f : familia) (texto : string) :
  ocurrencias_total f texto <> [] ->
  match digitos (last_of (ocurrencias_total f texto)) with
  | [] => informacion_general f texto = Raise ValueError
  | d =>
      exists info,
        informacion_general f texto = Ok info
        /\ info !! "total_pagar" = Some (VFloat (float_de_entero (digits_value d)))
  end.
Proof.
  intros Hne. pose proof (valor_total_digitos f texto Hne) as Hv.
  destruct f; cbn [valor_total informacion_general ocurrencias_total] in *.
  - pose proof (total_pagar_aire texto Hne) as H. rewrite Hv in H.
    destruct (digitos _) as [|c d]; exact H.
  - pose proof (total_pagar_essa texto Hne) as H. rewrite Hv in H.
    destruct (digitos _) as [|c d]; exact H.
Qed.

Lemma total_pagar_de_los_digitos_testigo :
  let texto := "TOTAL A PAGAR $1.234,50" in
  ocurrencias_total Aire texto = ["1.234,50"]
  /\ exists info,
       informacion_general Aire texto = Ok info
       /\ info !! "total_pagar" = Some (VFloat (float_of_Z 123450)).
Proof.
  intros texto.
  assert (Hhay : ocurrencias_total Aire texto <> []) by (vm_compute; discriminate).
  split; [reflexivity|].
  exact (total_pagar_de_los_digitos Aire texto Hhay).
Defined.

(** ** The tokens and their values *)

Lemma m_times_exacto (p : ascii -> bool) (n : nat) (k : cont) (st res : mstate) :
  m_times n (m_char p) k st = Some res ->
  exists w r, length w = n /\ forallb p w = true /\ rest st = w ++ r
              /\ k {| pos := pos st + n; rest := r; caps := caps st |} = Some res.
Proof.
  revert st. induction n as [|n IH]; intros st H; cbn [m_times] in H.
  - exists [], (rest st). rewrite Nat.add_0_r. destruct st. auto.
  - apply m_char_inv in H as (c & r & Hr & Hc & H).
    apply IH in H as (w & r' & Hl & Hw & Hr' & H). cbn [pos rest caps] in *.
    exists (c :: w), r'. cbn [length forallb]. rewrite Hc, Hw, Hl, Hr, Hr'.
    repeat split. replace (pos st + S n) with (S (pos st) + n) by lia. exact H.
Qed.

Lemma take_while_app_todos (p : ascii -> bool) (w r : list ascii) :
  forallb p w = true -> (length w <= length (take_while p (w ++ r)))%nat.
Proof.
  induction w as [|c w IH]; intros H; simpl in *; [lia|].
  apply andb_prop in H as [-> Hw]. simpl. specialize (IH Hw). lia.
Qed.

(** Every match of the pattern of the tokens captures a token. *)
Lemma token_con_forma (f : familia) (p : nat) (l : list ascii) (m : match_obj) :
  match_at no_flags (re_compile (patron_de_tokens f)) p l = Some m ->
  forma_de_token f (group m 1) = true.
Proof.
  destruct (patron_de_tokens_cola f) as (cola & Hn & Hcola & Hexec).
  unfold match_at. rewrite Hexec, Hn.
  destruct (cabeza_de_token f no_flags _ _) as [st'|] eqn:E; [|discriminate].
  intros [= <-].
  apply cabeza_de_token_consume in E as (st1 & (w0 & _ & _ & _ & L1) & E).
  apply m_times_exacto in E as (w7 & r & Hl7 & Hw7 & Hr & E).
  apply (m_upto_consume (de_token f) true _ _ (m_char_consume _ _ (digito_de_token f))) in E
    as (st3 & H3 & E).
  apply (exec_consume (de_token f) no_flags cola Hcola) in E as (st4 & H4 & [= <-]).
  destruct (avanza_trans _ _ _ _ H3 H4) as (w & G1 & G2 & G3 & G4).
  cbn [rest pos caps] in G1, G2, G4.
  assert (Hg : group {| m_start := p; m_end := pos (set_cap 1 st1 st4);
                        m_groups := <[0 := Some (str (take (pos (set_cap 1 st1 st4) - p) l))]>
                                      (caps (set_cap 1 st1 st4)) |} 1
               = str (w7 ++ w)).
  { unfold group, set_cap. cbn [m_groups caps pos rest].
    rewrite list_lookup_insert_ne by discriminate.
    rewrite list_lookup_insert_eq by (rewrite G4, L1; cbn [caps]; rewrite length_replicate; lia).
    rewrite Hr, G1, G2, app_assoc.
    replace (pos st1 + 7 + length w - pos st1) with (length (w7 ++ w))
      by (rewrite length_app; lia).
    rewrite take_app_length. reflexivity. }
  rewrite Hg. unfold forma_de_token, chars, str.
  rewrite list_ascii_of_string_of_list_ascii.
  assert (Hd7 : forallb digit_char w7 = true).
  { rewrite forallb_forall in *. intros x Hx. rewrite <- digito_sin_flags. auto. }
  apply andb_true_intro. split.
  - apply Nat.leb_le. pose proof (take_while_app_todos digit_char w7 w Hd7). lia.
  - rewrite forallb_app, G3, andb_true_r.
    rewrite forallb_forall in *. intros x Hx. unfold de_token. rewrite (Hd7 x Hx). reflexivity.
Qed.

(** X2: every token found in a text begins with seven digits and has
    digits and separators only. *)
Theorem tokens_con_siete_digitos (f : familia) (texto : string) :
  Forall (fun tok => forma_de_token f tok = true) (tokens f texto).
Proof.
  apply List.Forall_forall. intros tok Htok.
  assert (Htok' : In tok (re_findall (patron_de_tokens f) texto no_flags))
    by (destruct f; exact Htok).
  unfold re_findall in Htok'. apply in_map_iff in Htok' as (m & <- & Hm).
  destruct (patron_de_tokens_cola f) as (_ & -> & _). cbn [Nat.min].
  apply scan_match_at in Hm as (p & l & Hm). exact (token_con_forma f p l m Hm).
Qed.

Lemma enteros_length (f : familia) (texto : string) :
  length (enteros f texto) = length (tokens f texto).
Proof.
  pose proof (f_equal (@length _) (numerales_enteros f texto)) as H.
  rewrite !length_map in H. unfold numerales in H. rewrite length_map in H. congruence.
Qed.

(** X3: each token gives one value, [float] of its integer: no token
    makes [float] fail. *)
Theorem un_valor_por_token (f : familia) (texto : string) :
  valores_del_texto f texto = Ok (map float_de_entero (enteros f texto))
  /\ length (enteros f texto) = length (tokens f texto)
  /\ AirE.valores_de (AirE.tokens texto) = map float_de_entero (enteros Aire texto)
  /\ ESSA.valores_de (ESSA.tokens texto) = Ok (map float_de_entero (enteros Essa texto)).
Proof.
  split; [exact (valores_numerales f texto _ (numerales_enteros f texto))|].
  split; [exact (enteros_length f texto)|]. split.
  - pose proof (valores_numerales Aire texto _ (numerales_enteros Aire texto)) as H.
    cbn [valores_del_texto] in H. congruence.
  - exact (valores_numerales Essa texto _ (numerales_enteros Essa texto)).
Qed.

Lemma con_estadisticas_claves (v : float) (vs : list float) (base : gmap string value) :
  Forall (fun k => is_Some (con_estadisticas v vs base !! k)) claves_estadisticas.
Proof.
  destruct (estadisticas_campos v vs base) as (H0 & H1 & H2 & H3).
  repeat constructor; eauto.
Qed.

(** X4: ESSA's totals never raise, and they hold the four statistics
    exactly when the text has a token. *)
Theorem essa_totales_siempre (texto : string) :
  exists t,
    ESSA.extraer_totales texto = Ok t
    /\ (ESSA.tokens texto = [] -> t = ∅)
    /\ (ESSA.tokens texto <> [] ->
        Forall (fun k => is_Some (t !! k)) claves_estadisticas
        /\ t !! "valores_encontrados"
           = Some (VFloats (map float_de_entero (enteros Essa texto)))).
Proof.
  pose proof (valores_numerales Essa texto _ (numerales_enteros Essa texto)) as Hv.
  pose proof (enteros_length Essa texto) as Hl.
  cbn [valores_del_texto tokens] in Hv, Hl.
  unfold ESSA.extraer_totales. destruct (ESSA.tokens texto) as [|tok toks] eqn:E.
  - cbn [list_empty]. eexists. split; [reflexivity|]. split; [reflexivity|congruence].
  - cbn [list_empty]. rewrite Hv.
    destruct (enteros Essa texto) as [|n ns]; [discriminate|]. cbn [map].
    eexists. split; [reflexivity|]. split; [discriminate|]. intros _. split.
    + apply con_estadisticas_claves.
    + apply estadisticas_campos.
Qed.

Lemma monto_sin_digitos (d : list ascii) : float_de_digitos d = None <-> d = [].
Proof. destruct d; simpl; split; congruence. Qed.

(** X5: air-e's totals raise exactly when the amount after "Total a pagar
    mes" has no digit. *)
Theorem aire_totales_excepcion_exacta (texto : string) :
  AirE.extraer_totales texto = Raise ValueError
  <-> exists m, re_search AirE.patron_total_pagar texto IGNORECASE = Some m
                /\ digitos (group m 1) = [].
Proof.
  assert (Hclase : forall m, re_search AirE.patron_total_pagar texto IGNORECASE = Some m ->
                             py_float (AirE.sin_separadores (group m 1))
                             = float_de_digitos (digitos (group m 1))).
  { intros m Hm. apply monto_aire.
    apply (re_search_clase de_monto IGNORECASE AirE.patron_total_pagar texto 1 m);
      [clase_de_grupo | discriminate | exact Hm]. }
  split.
  - intros H. apply aire_totales_excepcion in H as (m & Hm & Hf).
    exists m. split; [exact Hm|]. rewrite (Hclase m Hm) in Hf.
    apply monto_sin_digitos, Hf.
  - intros (m & Hm & Hd). unfold AirE.extraer_totales, if_match_r, float_.
    rewrite Hm, (Hclase m Hm), Hd. reflexivity.
Qed.

(** ** The billed concepts *)

Lemma concepto_conocido_identidad (texto : string) (i : nat)
    (k : string * string * string * (string * string * string * string * string))
    (c : gmap string value) :
  ESSA.concepto_conocido texto i k = Ok c ->
  identidad c = identidad_conocida (Z.of_nat i) k.
Proof.
  destruct k as [[[codigo nombre] unidad] [[[[v1 v2] v3] v4] v5]].
  unfold ESSA.concepto_conocido. intros H.
  apply bind_Ok in H as ([[[[s1 s2] s3] s4] s5] & _ & H).
  repeat (apply bind_Ok in H as (? & _ & H)). injection H as <-.
  unfold identidad, identidad_conocida.
  repeat (rewrite lookup_insert_ne by discriminate).
  rewrite lookup_insert_eq.
  repeat (rewrite lookup_insert_ne by discriminate).
  rewrite lookup_insert_eq.
  repeat (rewrite lookup_insert_ne by discriminate).
  rewrite lookup_insert_eq.
  repeat (rewrite lookup_insert_ne by discriminate).
  rewrite lookup_insert_eq. reflexivity.
Qed.

Lemma conceptos_fijos_identidad (texto : string)
    (l : list (string * string * string * (string * string * string * string * string))) :
  forall i acc r,
    ESSA.conceptos_fijos texto i l acc = Ok r ->
    map identidad r = map identidad acc ++ identidades i l.
Proof.
  induction l as [|k l IH]; intros i acc r H; cbn [ESSA.conceptos_fijos] in H.
  - injection H as <-. cbn [identidades]. rewrite app_nil_r. reflexivity.
  - apply bind_Ok in H as (c & Hc & H). apply IH in H. rewrite H, map_app.
    cbn [map identidades]. rewrite (concepto_conocido_identidad _ _ _ _ Hc), <- app_assoc.
    reflexivity.
Qed.

(** X6: ESSA's third method, whatever the text, gives the four known
    concepts, numbered from 1, with their codes, names and units. *)
Theorem essa_tercer_metodo (texto : string) (l : list (gmap string value)) :
  ESSA.conceptos_fijos texto 1 ESSA.conceptos_conocidos [] = Ok l ->
  map identidad l
  = [ [Some (VInt 1); Some (VStr "672"); Some (VStr "CPROG"); Some (VStr "Peso")];
      [Some (VInt 2); Some (VStr "384"); Some (VStr "PEAJE ACTIVA"); Some (VStr "KWH")];
      [Some (VInt 3); Some (VStr "636"); Some (VStr "PEAJE INDUCTIVA FA"); Some (VStr "K5")];
      [Some (VInt 4); Some (VStr "499"); Some (VStr "ADD CENTRO"); Some (VStr "Peso")] ].
Proof. intros H. apply conceptos_fijos_identidad in H. exact H. Qed.

Lemma essa_tercer_metodo_testigo :
  let texto := "499 ADD CENTRO de la red Peso 1,000.0000 2 0 0 2,000" in
  exists l,
    ESSA.conceptos_fijos texto 1 ESSA.conceptos_conocidos [] = Ok l
    /\ l !! 3 = Some (linea_essa 4 "499" "ADD CENTRO" "Peso"
                        (float_of_Z 1000) (float_of_Z 2) (float_of_Z 0) (float_of_Z 0)
                        (float_of_Z 2000))
    /\ length (map identidad l) = 4.
Proof.
  intros texto.
  destruct (ESSA.conceptos_fijos texto 1 ESSA.conceptos_conocidos []) as [l|e] eqn:E;
    [|vm_compute in E; discriminate E].
  exists l. split; [reflexivity|]. split.
  - vm_compute in E. injection E as <-. reflexivity.
  - rewrite (essa_tercer_metodo texto l E). reflexivity.
Defined.

Lemma conceptos_fijos_length (texto : string)
    (l : list (string * string * string * (string * string * string * string * string))) :
  forall i acc r,
    ESSA.conceptos_fijos texto i l acc = Ok r -> length r = length acc + length l.
Proof.
  intros i acc r H. apply conceptos_fijos_identidad in H.
  apply (f_equal (@length _)) in H. rewrite length_app, !length_map in H.
  rewrite H. f_equal. clear. revert i. induction l; intros i; simpl; auto.
Qed.

(** X7: the list of billed concepts that an extraction returns is never
    empty. *)
Theorem conceptos_nunca_vacios (f : familia) (texto : string)
    (conceptos : list (gmap string value)) :
  conceptos_facturados f texto = Ok conceptos -> conceptos <> [].
Proof.
  destruct f; cbn [conceptos_facturados].
  - unfold AirE.extraer_conceptos_facturados. intros H.
    apply bind_Ok in H as (c1 & _ & H). injection H as <-.
    destruct (list_empty (if list_empty c1 then AirE.conceptos_generales texto else c1)) eqn:E.
    + discriminate.
    + destruct (if list_empty c1 then AirE.conceptos_generales texto else c1);
        [discriminate E | discriminate].
  - unfold ESSA.extraer_conceptos_facturados. intros H.
    apply bind_Ok in H as (c1 & _ & H). apply bind_Ok in H as (c2 & _ & H).
    apply bind_Ok in H as (c3 & H3 & H). injection H as <-.
    destruct (list_empty c2) eqn:E.
    + apply conceptos_fijos_length in H3. intros ->. simpl in H3. lia.
    + injection H3 as <-. destruct c2; [discriminate E | discriminate].
Qed.

Lemma conceptos_nunca_vacios_testigo :
  let texto := "sin conceptos" in
  conceptos_facturados Aire texto = Ok AirE.conceptos_fijos
  /\ AirE.conceptos_fijos <> [].
Proof.
  intros texto.
  assert (H : conceptos_facturados Aire texto = Ok AirE.conceptos_fijos) by reflexivity.
  exact (conj H (conceptos_nunca_vacios Aire texto _ H)).
Defined.

(** X8: every concept of air-e's second method comes from a match whose
    name has one of the four words, and its value is above zero. *)
Theorem aire_segundo_metodo (texto : string) :
  Forall (concepto_general_de texto) (AirE.conceptos_generales texto).
Proof.
  unfold AirE.conceptos_generales.
  set (ms := re_finditer AirE.patron_valores texto no_flags).
  assert (H : forall l acc,
    (forall m, In m l -> In m ms) ->
    Forall (concepto_general_de texto) acc ->
    Forall (concepto_general_de texto)
      (fold_left (fun conceptos m => AirE.concepto_general m conceptos) l acc)).
  { induction l as [|m l IH]; intros acc Hl Hacc; [exact Hacc|].
    cbn [fold_left]. apply IH; [intros m' Hm'; apply Hl; right; exact Hm'|].
    unfold AirE.concepto_general.
    destruct (existsb _ AirE.palabras) eqn:Ep; [|exact Hacc].
    destruct (py_float _) as [valor|] eqn:Ev; [|exact Hacc].
    destruct (flt (float_of_Z 0) valor) eqn:Ef; [|exact Hacc].
    apply Forall_app. split; [exact Hacc|]. repeat constructor.
    exists m, valor. repeat split; try assumption. apply Hl. left. reflexivity. }
  apply H; [auto | constructor].
Qed.

(** ** Patterns that match a run of characters *)

Lemma take_drop_while (P : ascii -> bool) (l : list ascii) :
  take_while P l ++ drop_while P l = l.
Proof. induction l as [|c l IH]; simpl; [reflexivity|]. destruct (P c); simpl; congruence. Qed.

Lemma drop_length_take_while (P : ascii -> bool) (l : list ascii) :
  drop (length (take_while P l)) l = drop_while P l.
Proof. induction l as [|c l IH]; simpl; [reflexivity|]. destruct (P c); simpl; auto. Qed.

Lemma take_while_drop_while (P : ascii -> bool) (l : list ascii) :
  take_while P (drop_while P l) = [].
Proof.
  induction l as [|c l IH]; simpl; [reflexivity|].
  destruct (P c) eqn:E; simpl; [exact IH | rewrite E; reflexivity].
Qed.

Lemma take_while_drop (P : ascii -> bool) (n : nat) (l : list ascii) :
  n <= length (take_while P l) ->
  length (take_while P (drop n l)) = length (take_while P l) - n
  /\ drop_while P (drop n l) = drop_while P l.
Proof.
  revert l. induction n as [|n IH]; intros l H; simpl.
  - rewrite drop_0. split; [lia | reflexivity].
  - destruct l as [|c l]; simpl in *; [lia|]. destruct (P c); simpl in *; [|lia].
    apply IH. lia.
Qed.

Lemma m_times_clase (P : ascii -> bool) (k : cont) :
  forall n st,
    m_times n (m_char P) k st
    = if (n <=? length (take_while P (rest st)))%nat
      then k {| pos := pos st + n; rest := drop n (rest st); caps := caps st |}
      else None.
Proof.
  induction n as [|n IH]; intros [p l cs]; cbn [m_times pos rest caps].
  - rewrite Nat.add_0_r, drop_0. reflexivity.
  - unfold m_char. cbn [rest pos caps]. destruct l as [|c l]; [reflexivity|].
    cbn [take_while]. destruct (P c); [|reflexivity].
    rewrite IH. cbn [pos rest caps length drop].
    replace (S p + n) with (p + S n) by lia. reflexivity.
Qed.

Lemma m_upto_racha (P : ascii -> bool) :
  forall n st,
    length (rest st) <= n ->
    m_upto true n (m_char P) Some st
    = Some {| pos := pos st + length (take_while P (rest st));
              rest := drop_while P (rest st); caps := caps st |}.
Proof.
  induction n as [|n IH]; intros [p l cs] H; cbn [m_upto pos rest caps] in *.
  - destruct l; [|simpl in H; lia]. simpl. rewrite Nat.add_0_r. reflexivity.
  - unfold m_char at 1. cbn [rest pos caps]. destruct l as [|c l].
    + simpl. rewrite Nat.add_0_r. reflexivity.
    + cbn [take_while drop_while]. destruct (P c).
      * replace (p <? S p)%nat with true by (symmetry; apply Nat.ltb_lt; lia).
        rewrite IH by (simpl in *; lia). cbn [pos rest caps length].
        replace (S p + length (take_while P l)) with (p + S (length (take_while P l))) by lia.
        reflexivity.
      * simpl. rewrite Nat.add_0_r. reflexivity.
Qed.

Lemma rep_racha (P : ascii -> bool) (lo : nat) (st : mstate) :
  m_times lo (m_char P)
    (fun st1 => m_upto true (length (rest st1)) (m_char P) Some st1) st
  = if (lo <=? length (take_while P (rest st)))%nat
    then Some {| pos := pos st + length (take_while P (rest st));
                 rest := drop_while P (rest st); caps := caps st |}
    else None.
Proof.
  rewrite m_times_clase. destruct (lo <=? _)%nat eqn:E; [|reflexivity].
  apply Nat.leb_le in E. rewrite m_upto_racha by reflexivity. cbn [pos rest caps].
  destruct (take_while_drop P lo (rest st) E) as [-> ->].
  replace (pos st + lo + (length (take_while P (rest st)) - lo))
    with (pos st + length (take_while P (rest st))) by lia.
  reflexivity.
Qed.

Lemma match_at_racha (P : ascii -> bool) (lo : nat) (fl : flags) (a : regex) :
  exec fl a = m_char P ->
  de_rachas P lo fl (Rep lo None true a, 0).
Proof.
  intros Ha p l. unfold match_at. cbn [fst snd exec]. rewrite Ha, rep_racha.
  cbn [pos rest caps]. destruct (lo <=? _)%nat; [|reflexivity].
  cbn [pos caps]. f_equal. f_equal.
  replace (p + length (take_while P l) - p) with (length (take_while P l)) by lia.
  cbn [replicate]. cbn. f_equal. f_equal. f_equal.
  rewrite <- (take_drop_while P l) at 2. rewrite take_app_length. reflexivity.
Qed.

Lemma espacios_de_rachas :
  de_rachas (set_ok no_flags false [CLit " "; CLit tab]) 1 no_flags PDFReader.patron_espacios.
Proof. apply match_at_racha; reflexivity. Qed.

Lemma saltos_de_rachas :
  de_rachas (lit_ok no_flags newline) 3 no_flags (re_compile PDFReader.patron_saltos).
Proof.
  change (re_compile PDFReader.patron_saltos) with (Rep 3 None true (Lit newline), 0).
  apply match_at_racha; reflexivity.
Qed.

Lemma scan_salta (fl : flags) (re : regex * nat) : forall k p l,
  k <= length l -> scan fl re p k l = scan fl re (p + k) 0 (drop k l).
Proof.
  induction k as [|k IH]; intros p l H.
  - rewrite Nat.add_0_r, drop_0. reflexivity.
  - destruct l as [|c l]; [simpl in H; lia|]. cbn [scan drop].
    rewrite IH by (simpl in H; lia). f_equal. lia.
Qed.

Lemma sub_from_cons (repl : list ascii) (p : nat) (c : ascii) (t : list ascii)
    (ms : list match_obj) :
  (forall m, hd_error ms = Some m -> S p <= m_start m /\ m_start m <= m_end m) ->
  sub_from repl p (c :: t) ms = c :: sub_from repl (S p) t ms.
Proof.
  destruct ms as [|m ms]; intros H; [reflexivity|].
  destruct (H m eq_refl) as [H1 H2]. cbn [sub_from].
  replace (m_start m - p) with (S (m_start m - S p)) by lia.
  replace (m_end m - p) with (S (m_end m - S p)) by lia.
  reflexivity.
Qed.

Section Rachas.

Variables (P : ascii -> bool) (lo : nat) (fl : flags) (re : regex * nat).
Hypothesis Hre : de_rachas P lo fl re.
Hypothesis Hlo : 1 <= lo.


Lemma scan_racha (p : nat) (c : ascii) (t : list ascii) :
  scan fl re p 0 (c :: t)
  = if (lo <=? length (take_while P (c :: t)))%nat
    then {| m_start := p; m_end := p + length (take_while P (c :: t));
            m_groups := [Some (str (take_while P (c :: t)))] |}
         :: scan fl re (p + length (take_while P (c :: t))) 0 (drop_while P (c :: t))
    else scan fl re (S p) 0 t.
Proof.
  cbn [scan]. rewrite Hre. destruct (lo <=? _)%nat eqn:E; [|reflexivity].
  apply Nat.leb_le in E. cbn [m_end]. f_equal.
  set (n := length (take_while P (c :: t))) in *.
  assert (Hn : n <= length (c :: t)).
  { unfold n. rewrite <- (take_drop_while P (c :: t)) at 2. rewrite length_app. lia. }
  rewrite scan_salta by (simpl in Hn; lia).
  replace (S p + (p + n - p - 1)) with (p + n) by lia. f_equal.
  replace (p + n - p - 1) with (n - 1) by lia.
  rewrite <- drop_length_take_while. fold n.
  destruct n as [|n']; [lia|]. cbn [drop]. f_equal. lia.
Qed.

Lemma scan_vacio (p : nat) : scan fl re p 0 [] = [].
Proof.
  cbn [scan]. rewrite Hre. cbn [take_while length].
  destruct lo; [lia | reflexivity].
Qed.

Lemma scan_cabeza : forall l p m,
  hd_error (scan fl re p 0 l) = Some m -> p <= m_start m /\ m_start m <= m_end m.
Proof.
  induction l as [|c t IH]; intros p m H.
  - rewrite scan_vacio in H. discriminate.
  - rewrite scan_racha in H. destruct (lo <=? _)%nat.
    + injection H as <-. cbn [m_start m_end]. lia.
    + apply IH in H. lia.
Qed.


(** What [re.sub] does with a pattern of runs, as an induction principle:
    a run of [lo] characters or more gives way to [repl], every other
    character stays. *)
Lemma rachas_ind (repl : list ascii) (R : list ascii -> list ascii -> Prop) :
  R [] [] ->
  (forall c t o,
      lo <= length (take_while P (c :: t)) ->
      R (drop_while P (c :: t)) o -> R (c :: t) (repl ++ o)) ->
  (forall c t o,
      length (take_while P (c :: t)) < lo -> R t o -> R (c :: t) (c :: o)) ->
  forall l p, R l (sub_from repl p l (scan fl re p 0 l)).
Proof.
  intros H0 H1 H2 l.
  induction l as [l IH] using (induction_ltof1 _ (@length ascii)). unfold ltof in IH.
  intros p. destruct l as [|c t].
  - rewrite scan_vacio. exact H0.
  - rewrite scan_racha. destruct (lo <=? _)%nat eqn:E.
    + apply Nat.leb_le in E. cbn [sub_from m_start m_end].
      rewrite Nat.sub_diag, take_0, app_nil_l.
      replace (p + length (take_while P (c :: t)) - p)
        with (length (take_while P (c :: t))) by lia.
      rewrite drop_length_take_while. apply H1; [exact E|]. apply IH.
      rewrite <- (take_drop_while P (c :: t)) at 2. rewrite length_app. lia.
    + apply Nat.leb_gt in E. rewrite sub_from_cons by apply scan_cabeza.
      apply H2; [exact E|]. apply IH. simpl. lia.
Qed.

End Rachas.

(** An equality between classes of characters, decided on the 256
    characters. *)
Lemma por_casos_iguales (p q : ascii -> bool) :
  forallb (fun n => Bool.eqb (p (ascii_of_nat n)) (q (ascii_of_nat n))) (seq 0 256) = true ->
  forall x, p x = q x.
Proof.
  intros H x. rewrite forallb_forall in H.
  specialize (H (nat_of_ascii x)). rewrite ascii_nat_embedding in H.
  apply eqb_prop, H, in_seq. pose proof (nat_ascii_bounded x). lia.
Qed.

Lemma espacios_clase (c : ascii) :
  set_ok no_flags false [CLit " "; CLit tab] c = en_blanco c.
Proof. revert c. apply por_casos_iguales. vm_compute. reflexivity. Qed.

Lemma saltos_clase (c : ascii) : lit_ok no_flags newline c = es_salto c.
Proof. revert c. apply por_casos_iguales. vm_compute. reflexivity. Qed.

Lemma de_rachas_ext (P Q : ascii -> bool) (lo : nat) (fl : flags) (re : regex * nat) :
  (forall c, P c = Q c) -> de_rachas P lo fl re -> de_rachas Q lo fl re.
Proof.
  intros H Hre p l. rewrite Hre, (take_while_ext P Q l H). reflexivity.
Qed.

Lemma espacios_rachas : de_rachas en_blanco 1 no_flags PDFReader.patron_espacios.
Proof. exact (de_rachas_ext _ _ _ _ _ espacios_clase espacios_de_rachas). Qed.

Lemma saltos_rachas : de_rachas es_salto 3 no_flags (re_compile PDFReader.patron_saltos).
Proof. exact (de_rachas_ext _ _ _ _ _ saltos_clase saltos_de_rachas). Qed.

Lemma chars_str (l : list ascii) : chars (str l) = l.
Proof. apply list_ascii_of_string_of_list_ascii. Qed.

Lemma str_chars (s : string) : str (chars s) = s.
Proof. apply string_of_list_ascii_of_string. Qed.

Lemma limpiar_en_pasos (texto : string) :
  texto <> "" ->
  chars (PDFReader._limpiar_texto texto)
  = sin_saltos_triples
      (lineas_recortadas
         (sin_espacios_dobles
            (List.filter (fun c => negb (bool_decide (c = nul))) (chars texto)))).
Proof.
  intros H. unfold PDFReader._limpiar_texto.
  destruct texto as [|c texto]; [congruence|]. cbn [str_empty].
  unfold re_sub, sub_compiled, py_join, py_split_nl.
  rewrite !chars_str. rewrite py_replace_vacio. reflexivity.
Qed.

Lemma take_while_nil (P : ascii -> bool) (c : ascii) (t : list ascii) :
  length (take_while P (c :: t)) < 1 -> P c = false.
Proof. simpl. destruct (P c); simpl; [lia | reflexivity]. Qed.

Lemma take_while_cabeza (P : ascii -> bool) (c : ascii) (t : list ascii) :
  1 <= length (take_while P (c :: t)) -> P c = true.
Proof. simpl. destruct (P c); simpl; [reflexivity | lia]. Qed.

Lemma espacios_ind (R : list ascii -> list ascii -> Prop) :
  R [] [] ->
  (forall c t o, en_blanco c = true ->
      R (drop_while en_blanco t) o -> R (c :: t) (" "%char :: o)) ->
  (forall c t o, en_blanco c = false -> R t o -> R (c :: t) (c :: o)) ->
  forall l, R l (sin_espacios_dobles l).
Proof.
  intros H0 H1 H2 l. unfold sin_espacios_dobles.
  apply (rachas_ind en_blanco 1 no_flags _ espacios_rachas (le_n 1) [" "%char] R); auto.
  - intros c t o Hc Ho. apply take_while_cabeza in Hc.
    apply H1; [exact Hc|]. cbn [drop_while] in Ho. rewrite Hc in Ho. exact Ho.
  - intros c t o Hc Ho. apply take_while_nil in Hc. apply H2; assumption.
Qed.

Lemma saltos_ind (R : list ascii -> list ascii -> Prop) :
  R [] [] ->
  (forall c t o, 3 <= length (take_while es_salto (c :: t)) ->
      R (drop_while es_salto (c :: t)) o -> R (c :: t) (newline :: newline :: o)) ->
  (forall c t o, length (take_while es_salto (c :: t)) < 3 -> R t o -> R (c :: t) (c :: o)) ->
  forall l, R l (sin_saltos_triples l).
Proof.
  intros H0 H1 H2 l. unfold sin_saltos_triples.
  apply (rachas_ind es_salto 3 no_flags _ saltos_rachas ltac:(lia) [newline; newline] R); auto.
Qed.

(** ** The cleaning of a page keeps what is visible *)

Lemma drop_while_sufijo (P : ascii -> bool) (l : list ascii) :
  exists a, l = a ++ drop_while P l /\ forallb P a = true.
Proof.
  exists (take_while P l). split; [symmetry; apply take_drop_while|].
  apply forallb_take_while.
Qed.

(** [s.strip()] takes white space away at both ends. *)
Lemma py_strip_chars (s : string) :
  exists a b, chars s = a ++ chars (py_strip s) ++ b
              /\ forallb space_char a = true /\ forallb space_char b = true.
Proof.
  unfold py_strip. rewrite chars_str.
  destruct (drop_while_sufijo space_char (chars s)) as (a & Ha & Pa).
  destruct (drop_while_sufijo space_char (rev (drop_while space_char (chars s))))
    as (b & Hb & Pb).
  exists a, (rev b). split; [|split; [exact Pa|]].
  - rewrite Ha at 1. f_equal. rewrite <- rev_app_distr, <- Hb, rev_involutive. reflexivity.
  - rewrite forallb_forall in *. intros x Hx. apply Pb. apply in_rev. exact Hx.
Qed.




Lemma split_lines_no_vacio (cur l : list ascii) : split_lines cur l <> [].
Proof.
  revert cur. induction l as [|c l IH]; intros cur; simpl; [discriminate|].
  destruct (ascii_dec c newline); [discriminate | apply IH].
Qed.

Lemma join_with_cons (sep : list ascii) (s : string) (ls : list string) :
  ls <> [] -> join_with sep (s :: ls) = chars s ++ sep ++ join_with sep ls.
Proof. destruct ls; [congruence | reflexivity]. Qed.

Lemma map_no_vacio {A B} (f : A -> B) (l : list A) : l <> [] -> map f l <> [].
Proof. destruct l; [congruence | discriminate]. Qed.










(** ** The shape of a cleaned page *)

Lemma starts_with_iff (sub l : list ascii) :
  starts_with sub l = true <-> exists b, l = sub ++ b.
Proof.
  revert l. induction sub as [|a sub IH]; intros l; cbn [starts_with app].
  - split; eauto.
  - destruct l as [|c l].
    + split; [discriminate | intros (b & Hb); discriminate].
    + destruct (ascii_dec a c) as [->|Hne].
      * rewrite IH. split; intros (b & Hb); exists b; congruence.
      * split; [discriminate | intros (b & Hb); congruence].
Qed.

Lemma contains_from_iff (sub l : list ascii) :
  contains_from sub l = true <-> exists a b, l = a ++ sub ++ b.
Proof.
  induction l as [|c l IH]; cbn [contains_from]; rewrite orb_true_iff, starts_with_iff.
  - split.
    + intros [(b & Hb)|H]; [|discriminate]. exists [], b. exact Hb.
    + intros (a & b & H). left. destruct a; [|discriminate]. exists b. exact H.
  - rewrite IH. split.
    + intros [(b & Hb)|(a & b & Hb)]; [exists [], b; exact Hb|].
      exists (c :: a), b. rewrite Hb. reflexivity.
    + intros (a & b & H). destruct a as [|c' a]; [left; exists b; exact H|].
      right. exists a, b. simpl in H. congruence.
Qed.

Lemma contains_from_infijo (sub a m b : list ascii) :
  contains_from sub (a ++ m ++ b) = false -> contains_from sub m = false.
Proof.
  intros H. destruct (contains_from sub m) eqn:E; [|reflexivity].
  apply contains_from_iff in E as (x & y & ->).
  rewrite <- H. symmetry. apply contains_from_iff.
  exists (a ++ x), (y ++ b). rewrite <- !app_assoc. reflexivity.
Qed.


Lemma contains_from_uno (c : ascii) (l : list ascii) :
  contains_from [c] l = false <-> Forall (fun x => x <> c) l.
Proof.
  induction l as [|x l IH]; cbn [contains_from starts_with].
  - split; [constructor | reflexivity].
  - rewrite Forall_cons, <- IH. destruct (ascii_dec c x) as [->|Hne]; cbn [orb].
    + split; [discriminate | intros [H _]; congruence].
    + split; [intros H; split; [congruence | exact H] | intros [_ H]; exact H].
Qed.

Lemma drop_while_en (P : ascii -> bool) (x : ascii) (l : list ascii) :
  In x (drop_while P l) -> In x l.
Proof.
  intros H. rewrite <- (take_drop_while P l). apply in_or_app. right. exact H.
Qed.

Lemma sin_espacios_dobles_en (l : list ascii) (x : ascii) :
  In x (sin_espacios_dobles l) ->
  x = " "%char \/ (In x l /\ en_blanco x = false).
Proof.
  apply (espacios_ind (fun l o => In x o -> x = " "%char \/ (In x l /\ en_blanco x = false))).
  - intros [].
  - intros c t o Hc IH [<-|Hx]; [left; reflexivity|].
    destruct (IH Hx) as [->|[H1 H2]]; [left; reflexivity|].
    right. split; [right; eapply drop_while_en; exact H1 | exact H2].
  - intros c t o Hc IH [<-|Hx]; [right; split; [left; reflexivity | exact Hc]|].
    destruct (IH Hx) as [->|[H1 H2]]; [left; reflexivity|].
    right. split; [right; exact H1 | exact H2].
Qed.

Lemma es_salto_igual (c : ascii) : es_salto c = true -> c = newline.
Proof. unfold es_salto. intros H. apply bool_decide_eq_true in H. exact H. Qed.

Lemma sin_saltos_triples_en (l : list ascii) (x : ascii) :
  In x (sin_saltos_triples l) -> In x l.
Proof.
  apply (saltos_ind (fun l o => In x o -> In x l)).
  - intros [].
  - intros c t o Hc IH Hx.
    assert (Hn : c = newline).
    { apply es_salto_igual, (take_while_cabeza es_salto c t). lia. }
    destruct Hx as [<-|[<-|Hx]]; [left; congruence | left; congruence|].
    eapply drop_while_en. apply IH. exact Hx.
  - intros c t o Hc IH [<-|Hx]; [left; reflexivity | right; auto].
Qed.

Lemma py_strip_en (s : string) (x : ascii) : In x (chars (py_strip s)) -> In x (chars s).
Proof.
  destruct (py_strip_chars s) as (a & b & -> & _ & _). intros H.
  apply in_or_app. right. apply in_or_app. left. exact H.
Qed.

Lemma lineas_en (x : ascii) (l cur : list ascii) :
  In x (join_with [newline] (map py_strip (split_lines cur l))) -> In x (rev cur ++ l).
Proof.
  revert cur. induction l as [|c l IH]; intros cur; cbn [split_lines].
  - cbn [map join_with]. intros H. apply py_strip_en in H. rewrite chars_str in H.
    rewrite app_nil_r. exact H.
  - destruct (ascii_dec c newline) as [->|Hc].
    + cbn [map]. rewrite join_with_cons by (apply map_no_vacio, split_lines_no_vacio).
      intros H. apply in_app_or in H as [H|H].
      * apply py_strip_en in H. rewrite chars_str in H. apply in_or_app. left. exact H.
      * apply in_or_app. right. destruct H as [<-|H]; [left; reflexivity|].
        right. apply (IH []). exact H.
    + intros H. apply IH in H. cbn [rev] in H. rewrite <- app_assoc in H. exact H.
Qed.

Lemma lineas_recortadas_en (x : ascii) (l : list ascii) :
  In x (lineas_recortadas l) -> In x l.
Proof. apply (lineas_en x l []). Qed.

(** What can stand in a cleaned text: a space, or a character of the
    text that is neither a tab nor NUL. *)
Lemma limpiar_en (l : list ascii) (x : ascii) :
  In x (sin_saltos_triples (lineas_recortadas (sin_espacios_dobles
          (List.filter (fun c => negb (bool_decide (c = nul))) l)))) ->
  x <> nul /\ x <> tab.
Proof.
  intros H. apply sin_saltos_triples_en, lineas_recortadas_en, sin_espacios_dobles_en in H.
  destruct H as [->|[H1 H2]]; [split; discriminate|].
  apply filter_In in H1 as [_ H1]. apply negb_true_iff, bool_decide_eq_false in H1.
  split; [exact H1|]. intros ->. discriminate H2.
Qed.

Lemma drop_while_cabeza (P : ascii -> bool) (l : list ascii) (c : ascii) (t : list ascii) :
  drop_while P l = c :: t -> P c = false.
Proof.
  intros H. pose proof (take_while_drop_while P l) as E. rewrite H in E.
  simpl in E. destruct (P c); [discriminate | reflexivity].
Qed.

Lemma dos_espacios_cons (c : ascii) (o : list ascii) :
  contains_from dos_espacios (c :: o)
  = (bool_decide (c = " "%char) && starts_with [" "%char] o) || contains_from dos_espacios o.
Proof.
  unfold dos_espacios. cbn [contains_from]. f_equal.
  change (starts_with [" "%char; " "%char] (c :: o))
    with (if ascii_dec " " c then starts_with [" "%char] o else false).
  destruct (ascii_dec " " c) as [<-|Hne].
  - rewrite bool_decide_eq_true_2 by reflexivity. reflexivity.
  - rewrite bool_decide_eq_false_2 by congruence. reflexivity.
Qed.

Lemma starts_with_uno (s : ascii) (o : list ascii) :
  starts_with [s] o = true <-> exists t, o = s :: t.
Proof. rewrite starts_with_iff. reflexivity. Qed.

Lemma sin_espacios_dobles_par (l : list ascii) :
  contains_from dos_espacios (sin_espacios_dobles l) = false
  /\ (starts_with [" "%char] (sin_espacios_dobles l) = true ->
      exists c t, l = c :: t /\ en_blanco c = true).
Proof.
  apply (espacios_ind (fun l o =>
    contains_from dos_espacios o = false
    /\ (starts_with [" "%char] o = true -> exists c t, l = c :: t /\ en_blanco c = true))).
  - split; [reflexivity | discriminate].
  - intros c t o Hc [IH1 IH2]. split; [|intros _; eauto].
    rewrite dos_espacios_cons, IH1, orb_false_r.
    destruct (starts_with [" "%char] o) eqn:E; [|apply andb_false_r].
    destruct (IH2 eq_refl) as (d & t' & Hd & Hb).
    apply drop_while_cabeza in Hd. congruence.
  - intros c t o Hc [IH1 IH2]. split.
    + rewrite dos_espacios_cons, IH1, orb_false_r.
      rewrite bool_decide_eq_false_2; [reflexivity|]. intros ->. discriminate Hc.
    + intros H. apply starts_with_uno in H as (t' & [= -> _]). discriminate Hc.
Qed.

Lemma dos_espacios_separados (x : list ascii) (c : ascii) (y : list ascii) :
  c <> " "%char ->
  contains_from dos_espacios x = false ->
  contains_from dos_espacios y = false ->
  contains_from dos_espacios (x ++ c :: y) = false.
Proof.
  intros Hc Hx Hy. induction x as [|a x IH]; cbn [app].
  - rewrite dos_espacios_cons, Hy, orb_false_r.
    rewrite bool_decide_eq_false_2 by exact Hc. reflexivity.
  - rewrite dos_espacios_cons in Hx |- *. apply orb_false_elim in Hx as [H1 H2].
    rewrite (IH H2), orb_false_r.
    destruct (bool_decide (a = " "%char)); [|reflexivity]. cbn [andb] in *.
    destruct x as [|b x]; cbn [app starts_with] in *.
    + destruct (ascii_dec " " c); [congruence | reflexivity].
    + exact H1.
Qed.

Lemma dos_espacios_strip (s : string) :
  contains_from dos_espacios (chars s) = false ->
  contains_from dos_espacios (chars (py_strip s)) = false.
Proof.
  destruct (py_strip_chars s) as (a & b & -> & _ & _). apply contains_from_infijo.
Qed.

Lemma dos_espacios_lineas (l cur : list ascii) :
  contains_from dos_espacios (rev cur ++ l) = false ->
  contains_from dos_espacios (join_with [newline] (map py_strip (split_lines cur l))) = false.
Proof.
  revert cur. induction l as [|c l IH]; intros cur H; cbn [split_lines].
  - cbn [map join_with]. apply dos_espacios_strip. rewrite chars_str.
    rewrite app_nil_r in H. exact H.
  - destruct (ascii_dec c newline) as [->|Hc].
    + cbn [map]. rewrite join_with_cons by (apply map_no_vacio, split_lines_no_vacio).
      apply dos_espacios_separados; [discriminate | |].
      * apply dos_espacios_strip. rewrite chars_str.
        apply (contains_from_infijo _ [] (rev cur) (newline :: l)). exact H.
      * apply (IH []). cbn [rev app].
        apply (contains_from_infijo _ (rev cur ++ [newline]) l []).
        rewrite app_nil_r, <- app_assoc. exact H.
    + apply IH. cbn [rev]. rewrite <- app_assoc. exact H.
Qed.

Lemma sin_saltos_triples_cabeza (l : list ascii) :
  hd_error (sin_saltos_triples l) = hd_error l.
Proof.
  apply (saltos_ind (fun l o => hd_error o = hd_error l)).
  - reflexivity.
  - intros c t o Hc _. cbn [hd_error]. f_equal. symmetry.
    apply es_salto_igual, (take_while_cabeza es_salto c t). lia.
  - reflexivity.
Qed.

Lemma starts_with_cabeza (s : ascii) (o l : list ascii) :
  hd_error o = hd_error l -> starts_with [s] o = starts_with [s] l.
Proof.
  destruct o, l; intros H; try discriminate H; [reflexivity|].
  injection H as ->. reflexivity.
Qed.

Lemma drop_while_contains (sub : list ascii) (P : ascii -> bool) (l : list ascii) :
  contains_from sub l = false -> contains_from sub (drop_while P l) = false.
Proof.
  intros H. apply (contains_from_infijo sub (take_while P l) _ []).
  rewrite app_nil_r, take_drop_while. exact H.
Qed.

(** The last substitution makes no two spaces meet. *)
Lemma dos_espacios_saltos (l : list ascii) :
  contains_from dos_espacios l = false ->
  contains_from dos_espacios (sin_saltos_triples l) = false.
Proof.
  assert (H : hd_error (sin_saltos_triples l) = hd_error l
              /\ (contains_from dos_espacios l = false ->
                  contains_from dos_espacios (sin_saltos_triples l) = false));
    [|apply H].
  apply (saltos_ind (fun l o =>
    hd_error o = hd_error l
    /\ (contains_from dos_espacios l = false -> contains_from dos_espacios o = false))).
  - split; [reflexivity | auto].
  - intros c t o Hc [_ IH]. split.
    + cbn [hd_error]. f_equal. symmetry.
      apply es_salto_igual, (take_while_cabeza es_salto c t). lia.
    + intros H. rewrite !dos_espacios_cons.
      rewrite (bool_decide_eq_false_2 (newline = " "%char)) by discriminate.
      cbn [andb orb]. apply IH, drop_while_contains, H.
  - intros c t o Hc [Hhd IH]. split; [reflexivity|].
    rewrite !dos_espacios_cons. intros H. apply orb_false_elim in H as [H1 H2].
    rewrite (IH H2), orb_false_r, (starts_with_cabeza _ _ _ Hhd). exact H1.
Qed.

Lemma take_while_es_salto (l : list ascii) :
  starts_with tres_saltos l = true -> 3 <= length (take_while es_salto l).
Proof.
  intros H. apply starts_with_iff in H as (b & ->).
  unfold tres_saltos. cbn [app take_while]. change (es_salto newline) with true.
  cbn [length]. lia.
Qed.

Lemma tres_saltos_cons (c : ascii) (o : list ascii) :
  length (take_while es_salto (c :: o)) < 3 ->
  contains_from tres_saltos (c :: o) = contains_from tres_saltos o.
Proof.
  intros H. cbn [contains_from].
  destruct (starts_with tres_saltos (c :: o)) eqn:E; [|reflexivity].
  apply take_while_es_salto in E. lia.
Qed.

Lemma sin_saltos_triples_tres (l : list ascii) :
  contains_from tres_saltos (sin_saltos_triples l) = false.
Proof.
  assert (H : length (take_while es_salto (sin_saltos_triples l))
              = Nat.min 2 (length (take_while es_salto l))
              /\ contains_from tres_saltos (sin_saltos_triples l) = false);
    [|apply H].
  apply (saltos_ind (fun l o =>
    length (take_while es_salto o) = Nat.min 2 (length (take_while es_salto l))
    /\ contains_from tres_saltos o = false)).
  - split; reflexivity.
  - intros c t o Hc [IH1 IH2].
    rewrite take_while_drop_while in IH1. cbn [length Nat.min] in IH1.
    assert (E : length (take_while es_salto (newline :: newline :: o)) = 2).
    { cbn [take_while]. change (es_salto newline) with true. cbn [length]. lia. }
    split; [lia|].
    rewrite tres_saltos_cons by lia. rewrite tres_saltos_cons; [exact IH2|].
    cbn [take_while]. change (es_salto newline) with true. cbn [length]. lia.
  - intros c t o Hc [IH1 IH2]. split.
    + cbn [take_while] in *. destruct (es_salto c); cbn [length] in *; lia.
    + rewrite tres_saltos_cons; [exact IH2|].
      cbn [take_while] in *. destruct (es_salto c); cbn [length] in *; lia.
Qed.

Lemma split_lines_app (w : list ascii) : forall cur r,
  Forall (fun x => x <> newline) w ->
  split_lines cur (w ++ r) = split_lines (rev w ++ cur) r.
Proof.
  induction w as [|a w IH]; intros cur r H; [reflexivity|].
  apply Forall_cons in H as [Ha Hw]. cbn [app split_lines].
  destruct (ascii_dec a newline); [congruence|].
  rewrite IH by exact Hw. cbn [rev]. rewrite <- app_assoc. reflexivity.
Qed.

Lemma split_lines_sin_salto (l : list ascii) : forall cur,
  Forall (fun x => x <> newline) cur ->
  Forall (fun s => Forall (fun x => x <> newline) (chars s)) (split_lines cur l).
Proof.
  induction l as [|c l IH]; intros cur H; cbn [split_lines].
  - constructor; [|constructor]. rewrite chars_str. apply List.Forall_rev. exact H.
  - destruct (ascii_dec c newline) as [->|Hc].
    + constructor; [rewrite chars_str; apply List.Forall_rev; exact H|]. apply IH. constructor.
    + apply IH. constructor; assumption.
Qed.

Lemma split_join (ls : list string) :
  ls <> [] ->
  Forall (fun s => Forall (fun x => x <> newline) (chars s)) ls ->
  split_lines [] (join_with [newline] ls) = ls.
Proof.
  induction ls as [|s ls IH]; intros Hne H; [congruence|].
  apply Forall_cons in H as [Hs Hls]. destruct ls as [|s' ls].
  - cbn [join_with]. rewrite <- (app_nil_r (chars s)), split_lines_app by exact Hs.
    cbn [split_lines]. rewrite app_nil_r, rev_involutive, str_chars. reflexivity.
  - rewrite join_with_cons by discriminate. rewrite split_lines_app by exact Hs.
    cbn [app split_lines]. destruct (ascii_dec newline newline); [|congruence].
    rewrite app_nil_r, rev_involutive, str_chars. f_equal. apply IH; [discriminate | exact Hls].
Qed.


Lemma drop_while_fijo (P : ascii -> bool) (l : list ascii) :
  (forall c t, l = c :: t -> P c = false) -> drop_while P l = l.
Proof.
  destruct l as [|c t]; intros H; [reflexivity|]. cbn [drop_while].
  rewrite (H c t eq_refl). reflexivity.
Qed.

Lemma drop_while_idem (P : ascii -> bool) (l : list ascii) :
  drop_while P (drop_while P l) = drop_while P l.
Proof.
  apply drop_while_fijo. intros c t H. exact (drop_while_cabeza P l c t H).
Qed.

Lemma recorta_idem (P : ascii -> bool) (l : list ascii) :
  let b := rev (drop_while P (rev (drop_while P l))) in
  rev (drop_while P (rev (drop_while P b))) = b.
Proof.
  intros b.
  assert (Hb : drop_while P b = b).
  { apply drop_while_fijo. intros c t Hc.
    destruct (drop_while_sufijo P (rev (drop_while P l))) as (x & Hx & _).
    apply (f_equal (@rev ascii)) in Hx. rewrite rev_involutive, rev_app_distr in Hx.
    fold b in Hx. rewrite Hc in Hx. cbn [app] in Hx.
    exact (drop_while_cabeza P l c _ Hx). }
  rewrite Hb. unfold b. rewrite rev_involutive, drop_while_idem. reflexivity.
Qed.

Lemma py_strip_idem (s : string) : py_strip (py_strip s) = py_strip s.
Proof.
  unfold py_strip. rewrite chars_str. f_equal. apply recorta_idem.
Qed.

Lemma lineas_recortadas_lineas (l : list ascii) :
  split_lines [] (lineas_recortadas l) = map py_strip (split_lines [] l).
Proof.
  unfold lineas_recortadas. apply split_join.
  - apply map_no_vacio, split_lines_no_vacio.
  - apply List.Forall_map. eapply Forall_impl; [apply split_lines_sin_salto; constructor|].
    intros s Hs. cbn. rewrite List.Forall_forall in *. intros x Hx.
    apply Hs, py_strip_en, Hx.
Qed.

Lemma lineas_recortadas_recortadas (l : list ascii) :
  Forall recortada (split_lines [] (lineas_recortadas l)).
Proof.
  rewrite lineas_recortadas_lineas. apply List.Forall_map, List.Forall_forall.
  intros s _. apply py_strip_idem.
Qed.

Lemma split_lines_racha (l : list ascii) : forall cur,
  1 <= length (take_while es_salto l) ->
  exists vacias,
    split_lines cur l = str (rev cur) :: vacias ++ split_lines [] (drop_while es_salto l)
    /\ Forall (fun s => s = "") vacias
    /\ length vacias = length (take_while es_salto l) - 1.
Proof.
  induction l as [|c t IH]; intros cur H; [simpl in H; lia|].
  pose proof (es_salto_igual c (take_while_cabeza es_salto c t H)) as ->.
  cbn [split_lines take_while drop_while]. change (es_salto newline) with true.
  destruct (ascii_dec newline newline); [|congruence]. cbn [length].
  destruct (take_while es_salto t) as [|a w] eqn:E.
  - exists []. split; [|split; [constructor | reflexivity]]. cbn [app]. f_equal. f_equal.
    symmetry. apply drop_while_fijo. intros d t' ->. cbn in E.
    destruct (es_salto d); [discriminate | reflexivity].
  - destruct (IH [] ltac:(simpl; lia)) as (vacias & H1 & H2 & H3).
    exists ("" :: vacias). split; [|split].
    + rewrite H1. reflexivity.
    + constructor; [reflexivity | exact H2].
    + cbn [length] in *. lia.
Qed.

Lemma sin_saltos_triples_lineas (Q : string -> Prop) (l : list ascii) :
  forall cur, Forall Q (split_lines cur l) -> Forall Q (split_lines cur (sin_saltos_triples l)).
Proof.
  apply (saltos_ind (fun l o =>
    forall cur, Forall Q (split_lines cur l) -> Forall Q (split_lines cur o))).
  - auto.
  - intros c t o Hc IH cur H.
    destruct (split_lines_racha (c :: t) cur ltac:(lia)) as (vacias & H1 & H2 & H3).
    rewrite H1 in H. apply Forall_cons in H as [Hcur H]. apply Forall_app in H as [Hv Hd].
    destruct vacias as [|v vacias]; [cbn [length] in H3; lia|].
    apply Forall_cons in H2 as [-> _]. apply Forall_cons in Hv as [Hv _].
    cbn [split_lines]. destruct (ascii_dec newline newline); [|congruence].
    constructor; [exact Hcur|]. constructor; [exact Hv|]. apply IH. exact Hd.
  - intros c t o Hc IH cur H. cbn [split_lines] in *.
    destruct (ascii_dec c newline).
    + apply Forall_cons in H as [H1 H2]. constructor; [exact H1 | apply IH, H2].
    + apply IH, H.
Qed.







Lemma limpio_partes (s : string) :
  limpio s = true
  <-> Forall (fun x => x <> nul) (chars s)
      /\ Forall (fun x => x <> tab) (chars s)
      /\ contains_from dos_espacios (chars s) = false
      /\ contains_from tres_saltos (chars s) = false
      /\ Forall recortada (split_lines [] (chars s)).
Proof.
  unfold limpio, py_in, py_split_nl. rewrite !andb_true_iff, !negb_true_iff.
  rewrite <- !contains_from_uno.
  assert (E : forallb (fun linea => String.eqb (py_strip linea) linea) (split_lines [] (chars s))
              = true <-> Forall recortada (split_lines [] (chars s))).
  { rewrite forallb_forall, List.Forall_forall. unfold recortada.
    split; intros H x Hx; apply String.eqb_eq, H, Hx. }
  rewrite E. cbn [chars list_ascii_of_string]. fold dos_espacios tres_saltos. tauto.
Qed.

(** X10: a cleaned page has no NUL and no tab, no two spaces and no three
    line ends in a row, and none of its lines begins or ends with white
    space. *)
Theorem limpiar_deja_limpio (texto : string) :
  limpio (PDFReader._limpiar_texto texto) = true.
Proof.
  destruct (string_dec texto "") as [->|H]; [reflexivity|].
  apply limpio_partes. rewrite (limpiar_en_pasos texto H).
  split; [|split; [|split; [|split]]].
  - apply List.Forall_forall. intros x Hx. apply limpiar_en in Hx. apply Hx.
  - apply List.Forall_forall. intros x Hx. apply limpiar_en in Hx. apply Hx.
  - apply dos_espacios_saltos. unfold lineas_recortadas. apply dos_espacios_lineas.
    cbn [rev app]. apply sin_espacios_dobles_par.
  - apply sin_saltos_triples_tres.
  - apply sin_saltos_triples_lineas, lineas_recortadas_recortadas.
Qed.


(** ** The text of a PDF *)

Lemma leer_paginas_limpias (tolerante : bool) (ps : list PDFReader.pagina) :
  forall por_pagina completo por_pagina' completo',
    Forall (fun s => limpio s = true) completo ->
    PDFReader.leer_paginas tolerante ps por_pagina completo = (por_pagina', Some completo') ->
    Forall (fun s => limpio s = true) completo'.
Proof.
  induction ps as [|[[t|]|] ps IH]; intros pp c pp' c' Hc H; cbn [PDFReader.leer_paginas] in H.
  - injection H as _ <-. exact Hc.
  - destruct (str_empty t); [eapply IH; eassumption|].
    eapply IH; [|exact H]. apply Forall_app. split; [exact Hc|].
    constructor; [apply limpiar_deja_limpio | constructor].
  - eapply IH; eassumption.
  - destruct tolerante; [eapply IH; eassumption | discriminate H].
Qed.

Lemma extraer_con_limpias (tolerante : bool) (lib : PDFReader.libreria) (st st' : PDFReader.lector)
    (t : string) :
  PDFReader._extraer_con tolerante lib st = (Some t, st') ->
  PDFReader.texto_completo st' = t
  /\ exists pagina1 resto,
       t = py_join (String newline "") (pagina1 :: resto)
       /\ Forall (fun s => limpio s = true) (pagina1 :: resto).
Proof.
  unfold PDFReader._extraer_con. destruct (PDFReader.paginas lib) as [ps|]; [|discriminate].
  destruct (PDFReader.leer_paginas tolerante ps (PDFReader.texto_por_pagina st) [])
    as [pp [[|p1 r]|]] eqn:E; try discriminate.
  intros [= <- <-]. split; [reflexivity|]. exists p1, r. split; [reflexivity|].
  eapply leer_paginas_limpias; [|exact E]. constructor.
Qed.

Lemma intento_devuelve (nombre : string) (tolerante : bool) (lib : PDFReader.libreria)
    (st st' : PDFReader.lector) (si_no : PDFReader.lector -> PDFReader.resultado * PDFReader.lector)
    (t : string) (Q : string -> PDFReader.lector -> Prop) :
  (forall st0 st1, PDFReader._extraer_con tolerante lib st0 = (Some t, st1) ->
                   t <> "" -> Q t {| PDFReader.texto_completo := PDFReader.texto_completo st1;
                                     PDFReader.texto_por_pagina := PDFReader.texto_por_pagina st1;
                                     PDFReader.metodo_usado := Some nombre |}) ->
  (forall st0, si_no st0 = (PDFReader.Devuelve t, st') -> Q t st') ->
  PDFReader.intento nombre (PDFReader._extraer_con tolerante) lib st si_no = (PDFReader.Devuelve t, st') ->
  Q t st'.
Proof.
  intros H1 H2. unfold PDFReader.intento. destruct (PDFReader.disponible lib); [|apply H2].
  destruct (PDFReader._extraer_con tolerante lib st) as [[t0|] st1] eqn:E; [|apply H2].
  destruct (str_empty t0) eqn:Et; [apply H2|].
  intros [= -> <-]. apply (H1 st st1 E). intros ->. discriminate Et.
Qed.

(** What [extraer_texto] returns comes from one of the three methods. *)
Lemma extraer_texto_metodo (l1 l2 l3 : PDFReader.libreria) (st st' : PDFReader.lector) (t : string) :
  PDFReader.extraer_texto l1 l2 l3 st = (PDFReader.Devuelve t, st') ->
  t <> ""
  /\ PDFReader.texto_completo st' = t
  /\ (exists nombre, PDFReader.metodo_usado st' = Some nombre
                     /\ In nombre ["pdfplumber"; "pypdf"; "PyPDF2"])
  /\ exists pagina1 resto,
       t = py_join (String newline "") (pagina1 :: resto)
       /\ Forall (fun s => limpio s = true) (pagina1 :: resto).
Proof.
  unfold PDFReader.extraer_texto, PDFReader._extraer_con_pdfplumber, PDFReader._extraer_con_pypdf,
    PDFReader._extraer_con_pypdf2.
  set (Q := fun (t : string) (st' : PDFReader.lector) =>
    t <> "" /\ PDFReader.texto_completo st' = t
    /\ (exists nombre, PDFReader.metodo_usado st' = Some nombre
                       /\ In nombre ["pdfplumber"; "pypdf"; "PyPDF2"])
    /\ exists pagina1 resto,
         t = py_join (String newline "") (pagina1 :: resto)
         /\ Forall (fun s => limpio s = true) (pagina1 :: resto)).
  assert (Hq : forall nombre tolerante lib st0 st1,
             In nombre ["pdfplumber"; "pypdf"; "PyPDF2"] ->
             PDFReader._extraer_con tolerante lib st0 = (Some t, st1) -> t <> "" ->
             Q t {| PDFReader.texto_completo := PDFReader.texto_completo st1;
                    PDFReader.texto_por_pagina := PDFReader.texto_por_pagina st1;
                    PDFReader.metodo_usado := Some nombre |}).
  { intros nombre tolerante lib st0 st1 Hn E Ht.
    apply extraer_con_limpias in E as (E1 & E2).
    split; [exact Ht|]. split; [exact E1|]. split; [|exact E2].
    exists nombre. split; [reflexivity | exact Hn]. }
  apply (intento_devuelve _ _ _ _ _ _ _ Q); [intros; eapply Hq; eauto; cbn; auto|].
  intros st0.
  apply (intento_devuelve _ _ _ _ _ _ _ Q); [intros; eapply Hq; eauto; cbn; auto|].
  intros st1.
  apply (intento_devuelve _ _ _ _ _ _ _ Q); [intros; eapply Hq; eauto; cbn; auto|].
  intros st2. destruct (negb _); discriminate.
Qed.

Lemma join_with_en (x : ascii) (ps : list string) :
  In x (join_with [newline] ps) -> x = newline \/ exists p, In p ps /\ In x (chars p).
Proof.
  induction ps as [|p ps IH]; [intros []|].
  destruct ps as [|p' ps].
  - cbn [join_with]. intros H. right. exists p. split; [left; reflexivity | exact H].
  - rewrite join_with_cons by discriminate. intros H.
    apply in_app_or in H as [H|[<-|H]].
    + right. exists p. split; [left; reflexivity | exact H].
    + left. reflexivity.
    + destruct (IH H) as [->|(q & Hq & Hx)]; [left; reflexivity|].
      right. exists q. split; [right; exact Hq | exact Hx].
Qed.

Lemma join_with_dos_espacios (ps : list string) :
  Forall (fun p => contains_from dos_espacios (chars p) = false) ps ->
  contains_from dos_espacios (join_with [newline] ps) = false.
Proof.
  induction 1 as [|p ps Hp Hps IH]; [reflexivity|].
  destruct ps as [|p' ps]; [exact Hp|].
  rewrite join_with_cons by discriminate.
  apply dos_espacios_separados; [discriminate | exact Hp | exact IH].
Qed.

Lemma split_lines_unidas (Q : string -> Prop) (a r : list ascii) : forall cur,
  Forall Q (split_lines cur a) -> Forall Q (split_lines [] r) ->
  Forall Q (split_lines cur (a ++ newline :: r)).
Proof.
  induction a as [|c a IH]; intros cur Ha Hr; cbn [app split_lines] in *.
  - destruct (ascii_dec newline newline); [|congruence].
    apply Forall_cons in Ha as [Ha _]. constructor; assumption.
  - destruct (ascii_dec c newline).
    + apply Forall_cons in Ha as [H1 H2]. constructor; [exact H1 | apply IH; assumption].
    + apply IH; assumption.
Qed.

Lemma join_with_lineas (Q : string -> Prop) (ps : list string) :
  ps <> [] ->
  Forall (fun p => Forall Q (split_lines [] (chars p))) ps ->
  Forall Q (split_lines [] (join_with [newline] ps)).
Proof.
  intros Hne H. induction H as [|p ps Hp Hps IH]; [congruence|].
  destruct ps as [|p' ps]; [exact Hp|].
  rewrite join_with_cons by discriminate.
  apply split_lines_unidas; [exact Hp | apply IH; discriminate].
Qed.

Lemma de_paginas_limpias_unidas (ps : list string) :
  ps <> [] -> Forall (fun s => limpio s = true) ps ->
  de_paginas_limpias (py_join (String newline "") ps) = true.
Proof.
  intros Hne H.
  assert (Hp : Forall (fun s =>
             Forall (fun x => x <> nul) (chars s)
             /\ Forall (fun x => x <> tab) (chars s)
             /\ contains_from dos_espacios (chars s) = false
             /\ contains_from tres_saltos (chars s) = false
             /\ Forall recortada (split_lines [] (chars s))) ps).
  { eapply Forall_impl; [exact H|]. intros s Hs. apply limpio_partes, Hs. }
  clear H. rewrite List.Forall_forall in Hp.
  unfold de_paginas_limpias, py_in, py_split_nl, py_join. rewrite chars_str.
  cbn [chars list_ascii_of_string].
  rewrite !andb_true_iff, !negb_true_iff. split; [split; [split|]|].
  - apply contains_from_uno, List.Forall_forall. intros x Hx.
    apply join_with_en in Hx as [->|(p & Hp1 & Hp2)]; [discriminate|].
    destruct (Hp p Hp1) as (H1 & _). rewrite List.Forall_forall in H1. auto.
  - apply contains_from_uno, List.Forall_forall. intros x Hx.
    apply join_with_en in Hx as [->|(p & Hp1 & Hp2)]; [discriminate|].
    destruct (Hp p Hp1) as (_ & H1 & _). rewrite List.Forall_forall in H1. auto.
  - apply join_with_dos_espacios, List.Forall_forall. intros p Hp1. apply (Hp p Hp1).
  - apply forallb_forall. intros s Hs. apply String.eqb_eq.
    assert (Hl : Forall recortada (split_lines [] (join_with [newline] ps))).
    { apply join_with_lineas; [exact Hne|]. apply List.Forall_forall. intros p Hp1.
      apply (Hp p Hp1). }
    rewrite List.Forall_forall in Hl. apply Hl, Hs.
Qed.

(** X12: a text that [extraer_texto] returns is never empty: the guard of
    [main] against an empty text does not fire on it.  The text is the
    object's [texto_completo], and one of the three libraries is
    recorded as the method. *)
Theorem extraer_texto_nunca_vacio (pdfplumber pypdf pypdf2 : PDFReader.libreria)
    (st st' : PDFReader.lector) (texto : string) :
  PDFReader.extraer_texto pdfplumber pypdf pypdf2 st = (PDFReader.Devuelve texto, st') ->
  texto <> ""
  /\ main Aire (Some texto) <> SinTexto
  /\ PDFReader.texto_completo st' = texto
  /\ exists nombre, PDFReader.metodo_usado st' = Some nombre
                    /\ In nombre ["pdfplumber"; "pypdf"; "PyPDF2"].
Proof.
  intros H. apply extraer_texto_metodo in H as (H1 & H2 & H3 & _).
  split; [exact H1|]. split; [|split; assumption].
  unfold main. destruct texto as [|c texto]; [congruence|]. cbn [str_empty].
  destruct (extraer_todos Aire (String c texto)); discriminate.
Qed.

Lemma extraer_texto_nunca_vacio_testigo :
  let pypdf := {| PDFReader.disponible := true;
                  PDFReader.paginas := Some [PDFReader.Texto (Some " "); PDFReader.PaginaFalla] |} in
  let pypdf2 := {| PDFReader.disponible := true;
                   PDFReader.paginas :=
                     Some [PDFReader.Texto (Some "NIC:  12345 "); PDFReader.PaginaFalla;
                           PDFReader.Texto None; PDFReader.Texto (Some "Cliente: X")] |} in
  let texto := "NIC: 12345
Cliente: X" in
  exists st',
    PDFReader.extraer_texto sin_libreria pypdf pypdf2 PDFReader.nuevo = (PDFReader.Devuelve texto, st')
    /\ PDFReader.texto_por_pagina st' = [""; "NIC: 12345"; "Cliente: X"]
    /\ PDFReader.metodo_usado st' = Some "PyPDF2"
    /\ texto <> ""
    /\ main Aire (Some texto) <> SinTexto.
Proof.
  intros pypdf pypdf2 texto.
  destruct (PDFReader.extraer_texto sin_libreria pypdf pypdf2 PDFReader.nuevo) as [r st'] eqn:E.
  assert (Hr : r = PDFReader.Devuelve texto) by (vm_compute in E; injection E as <- _; reflexivity).
  subst r. exists st'. split; [reflexivity|].
  destruct (extraer_texto_nunca_vacio _ _ _ _ _ _ E) as (H1 & H2 & _).
  split; [vm_compute in E; injection E as <-; reflexivity|].
  split; [vm_compute in E; injection E as <-; reflexivity|].
  split; assumption.
Defined.

(** X13: a text that [extraer_texto] returns has no NUL, no tab and no two
    spaces in a row, and none of its lines begins or ends with white
    space. *)
Theorem extraer_texto_de_paginas_limpias (pdfplumber pypdf pypdf2 : PDFReader.libreria)
    (st st' : PDFReader.lector) (texto : string) :
  PDFReader.extraer_texto pdfplumber pypdf pypdf2 st = (PDFReader.Devuelve texto, st') ->
  de_paginas_limpias texto = true.
Proof.
  intros H. apply extraer_texto_metodo in H as (_ & _ & _ & p1 & r & -> & H).
  apply de_paginas_limpias_unidas; [discriminate | exact H].
Qed.

Lemma extraer_texto_de_paginas_limpias_testigo :
  let pdfplumber := {| PDFReader.disponible := true;
                       PDFReader.paginas :=
                         Some [PDFReader.Texto (Some ("  TOTAL" +:+ String tab "A  PAGAR   $ 1,000  "));
                               PDFReader.Texto (Some "");
                               PDFReader.Texto (Some "Fin ")] |} in
  let texto := "TOTAL A PAGAR $ 1,000
Fin" in
  exists st',
    PDFReader.extraer_texto pdfplumber sin_libreria sin_libreria PDFReader.nuevo
    = (PDFReader.Devuelve texto, st')
    /\ de_paginas_limpias texto = true.
Proof.
  intros pdfplumber texto.
  destruct (PDFReader.extraer_texto pdfplumber sin_libreria sin_libreria PDFReader.nuevo)
    as [r st'] eqn:E.
  assert (Hr : r = PDFReader.Devuelve texto) by (vm_compute in E; injection E as <- _; reflexivity).
  subst r. exists st'. split; [reflexivity|].
  exact (extraer_texto_de_paginas_limpias _ _ _ _ _ _ E).
Defined.

(** ** The codes of the bar code *)

Lemma fold_left_entradas (Q : string -> value -> Prop) (clave : match_obj -> string)
    (valor : match_obj -> value) (ms : list match_obj) :
  forall base : gmap string value,
    map_Forall Q base ->
    (forall m, In m ms -> Q (clave m) (valor m)) ->
    map_Forall Q (fold_left (fun codigos m => <[clave m := valor m]> codigos) ms base).
Proof.
  induction ms as [|m ms IH]; intros base Hb Hm; [exact Hb|].
  cbn [fold_left]. apply IH.
  - apply map_Forall_insert_2; [apply Hm; left; reflexivity | exact Hb].
  - intros m' H'. apply Hm. right. exact H'.
Qed.

Lemma sin_parentesis_py_in (s : string) :
  forallb sin_parentesis (chars s) = true -> py_in "(" s = false.
Proof.
  intros H. unfold py_in. cbn [chars list_ascii_of_string].
  apply contains_from_uno, List.Forall_forall. intros x Hx.
  rewrite forallb_forall in H. specialize (H x Hx).
  unfold sin_parentesis in H. apply negb_true_iff, bool_decide_eq_false in H. exact H.
Qed.

Lemma digitos_sin_parentesis (s : string) :
  forallb digit_char (chars s) = true -> forallb sin_parentesis (chars s) = true.
Proof.
  rewrite !forallb_forall. intros H x Hx. specialize (H x Hx). clear Hx. revert x H.
  apply por_casos. vm_compute. reflexivity.
Qed.

Lemma sin_parentesis_strip (s : string) :
  forallb sin_parentesis (chars s) = true ->
  forallb sin_parentesis (chars (py_strip s)) = true.
Proof.
  rewrite !forallb_forall. intros H x Hx. apply H, py_strip_en, Hx.
Qed.

Lemma codigo_essa_digitos (d : string) (s : string) :
  forallb digit_char (chars d) = true -> forallb sin_parentesis (chars s) = true ->
  codigo_essa ("codigo_" +:+ d) (VStr s).
Proof.
  intros Hd Hs. exists d, s. repeat split; [exact Hd|]. apply sin_parentesis_py_in, Hs.
Qed.

(** X14: every key of ESSA's codes is "codigo_" with digits after it and
    every value a text without an opening parenthesis; where the full
    code "(415)..(8020)..(3900)..(96).." stands in the text, its four
    captures are the values of the four codes, whatever the scan of
    single codes had stored under these keys. *)
Theorem essa_codigos_de_barras (texto : string) :
  exists codigos,
    ESSA.extraer_codigos_barras texto = Ok codigos
    /\ map_Forall codigo_essa codigos
    /\ forall m, re_search ESSA.patron_codigo_final texto no_flags = Some m ->
         codigos !! "codigo_415" = Some (VStr (group m 1))
         /\ codigos !! "codigo_8020" = Some (VStr (group m 2))
         /\ codigos !! "codigo_3900" = Some (VStr (group m 3))
         /\ codigos !! "codigo_96" = Some (VStr (group m 4)).
Proof.
  unfold ESSA.extraer_codigos_barras. eexists. split; [reflexivity|].
  set (base := fold_left _ _ _).
  assert (Hbase : map_Forall codigo_essa base).
  { apply (fold_left_entradas codigo_essa
             (fun m => "codigo_" +:+ group m 1) (fun m => VStr (py_strip (group m 2)))).
    - apply map_Forall_empty.
    - intros m Hm. apply codigo_essa_digitos.
      + apply (re_finditer_clase digit_char no_flags ESSA.patron_codigo texto 1 m);
          [clase_de_grupo | discriminate | exact Hm].
      + apply sin_parentesis_strip.
        apply (re_finditer_clase sin_parentesis no_flags ESSA.patron_codigo texto 2 m);
          [clase_de_grupo | discriminate | exact Hm]. }
  destruct (re_search ESSA.patron_codigo_final texto no_flags) as [m|] eqn:E; cbn [if_match].
  - assert (Hg : forall i, In i [1; 2; 3; 4] ->
                         forallb digit_char (chars (group m i)) = true).
    { intros i Hi. cbn [In] in Hi.
      destruct Hi as [<-|[<-|[<-|[<-|[]]]]];
        apply (re_search_clase digit_char no_flags ESSA.patron_codigo_final texto _ m);
        first [clase_de_grupo | discriminate | exact E]. }
    split.
    + repeat (apply map_Forall_insert_2; [|]); try exact Hbase.
      * apply (codigo_essa_digitos "96"); [reflexivity | apply digitos_sin_parentesis, Hg; cbn; auto].
      * apply (codigo_essa_digitos "3900"); [reflexivity | apply digitos_sin_parentesis, Hg; cbn; auto].
      * apply (codigo_essa_digitos "8020"); [reflexivity | apply digitos_sin_parentesis, Hg; cbn; auto].
      * apply (codigo_essa_digitos "415"); [reflexivity | apply digitos_sin_parentesis, Hg; cbn; auto].
    + intros m' [= <-]. repeat split;
        repeat (rewrite lookup_insert_ne by discriminate); apply lookup_insert_eq.
  - split; [exact Hbase | discriminate].
Qed.

Lemma scan_sin_racha (P : ascii -> bool) (lo : nat) (fl : flags) (re : regex * nat) :
  de_rachas P lo fl re -> 1 <= lo ->
  forall l p, list_empty (scan fl re p 0 l) = sin_racha_de P lo l.
Proof.
  intros Hre Hlo. induction l as [|c t IH]; intros p.
  - rewrite (scan_vacio P lo fl re Hre Hlo). cbn.
    destruct lo; [lia | reflexivity].
  - rewrite (scan_racha P lo fl re Hre Hlo). cbn [sin_racha_de].
    destruct (lo <=? length (take_while P (c :: t)))%nat eqn:E.
    + apply Nat.leb_le in E. cbn [list_empty]. symmetry. apply andb_false_intro1.
      apply Nat.ltb_ge. exact E.
    + apply Nat.leb_gt in E. rewrite IH. symmetry.
      replace (length (take_while P (c :: t)) <? lo)%nat with true; [reflexivity|].
      symmetry. apply Nat.ltb_lt. exact E.
Qed.

Lemma starts_with_racha (c : ascii) (n : nat) : forall l,
  starts_with (replicate n c) l
  = (n <=? length (take_while (fun x => bool_decide (x = c)) l))%nat.
Proof.
  induction n as [|n IH]; intros l; [reflexivity|].
  cbn [replicate starts_with]. destruct l as [|x l]; [reflexivity|].
  cbn [take_while]. destruct (ascii_dec c x) as [<-|Hne].
  - rewrite bool_decide_eq_true_2 by reflexivity. cbn [length]. apply IH.
  - rewrite bool_decide_eq_false_2 by congruence. reflexivity.
Qed.

Lemma sin_racha_contains (c : ascii) (n : nat) (l : list ascii) :
  sin_racha_de (fun x => bool_decide (x = c)) n l = negb (contains_from (replicate n c) l).
Proof.
  induction l as [|x l IH]; cbn [sin_racha_de contains_from];
    rewrite starts_with_racha, negb_orb, Nat.ltb_antisym; [|rewrite IH]; reflexivity.
Qed.

Lemma barras_de_rachas : de_rachas es_barra 10 no_flags (re_compile AirE.patron_barcode).
Proof.
  apply (de_rachas_ext (set_ok no_flags false [CLit "|"])).
  - apply por_casos_iguales. vm_compute. reflexivity.
  - change (re_compile AirE.patron_barcode)
      with (Rep 10 None true (Set_ false [CLit "|"%char]), 0).
    apply match_at_racha. reflexivity.
Qed.

(** The pattern of the bar code has a match where ten bars stand in a
    row, and only there. *)
Lemma barcode_diez_barras (texto : string) :
  list_empty (re_findall AirE.patron_barcode texto no_flags) = negb (py_in diez_barras texto).
Proof.
  unfold re_findall, re_finditer, py_in.
  transitivity (list_empty (scan no_flags (re_compile AirE.patron_barcode) 0 0 (chars texto))).
  - destruct (scan _ _ _ _ _); reflexivity.
  - rewrite (scan_sin_racha es_barra 10 no_flags _ barras_de_rachas ltac:(lia)).
    apply (sin_racha_contains "|" 10).
Qed.

Lemma fold_left_ajeno (clave : match_obj -> string) (valor : match_obj -> value)
    (k : string) (ms : list match_obj) :
  (forall m, clave m <> k) ->
  forall base : gmap string value,
    fold_left (fun codigos m => <[clave m := valor m]> codigos) ms base !! k = base !! k.
Proof.
  intros Hk. induction ms as [|m ms IH]; intros base; [reflexivity|].
  cbn [fold_left]. rewrite IH. apply lookup_insert_ne, Hk.
Qed.

Lemma codigo_aire_digitos (resto s : string) :
  forallb digit_char (chars s) = true ->
  codigo_aire ("codigo_" +:+ resto) (VStr s).
Proof. intros Hs. exists s. split; [reflexivity|]. left. split; [eauto | exact Hs]. Qed.

(** X15: every value of air-e's codes is made of digits, under a key that
    begins with "codigo_", but for the mark "Si" under
    "tiene_codigo_barras", which is there exactly when the text has ten
    vertical bars in a row. *)
Theorem aire_codigos_de_barras (texto : string) :
  exists codigos,
    AirE.extraer_codigos_barras texto = Ok codigos
    /\ map_Forall codigo_aire codigos
    /\ codigos !! "tiene_codigo_barras"
       = if py_in diez_barras texto then Some (VStr "Si") else None.
Proof.
  unfold AirE.extraer_codigos_barras. eexists. split; [reflexivity|].
  set (base := fold_left _ _ _).
  assert (Hbase : map_Forall codigo_aire base).
  { apply (fold_left_entradas codigo_aire
             (fun m => "codigo_" +:+ group m 1) (fun m => VStr (group m 2))).
    - apply map_Forall_empty.
    - intros m Hm. apply codigo_aire_digitos.
      apply (re_finditer_clase digit_char no_flags AirE.patron_codigo texto 2 m);
        [clase_de_grupo | discriminate | exact Hm]. }
  assert (Hb : base !! "tiene_codigo_barras" = None).
  { unfold base.
    rewrite (fold_left_ajeno (fun m => "codigo_" +:+ group m 1) (fun m => VStr (group m 2)));
      [apply lookup_empty|].
    intros m. discriminate. }
  rewrite barcode_diez_barras.
  set (completo := if_match _ _ base).
  assert (Hc : map_Forall codigo_aire completo
               /\ completo !! "tiene_codigo_barras" = None).
  { unfold completo.
    destruct (re_search AirE.patron_codigo_completo texto no_flags) as [m|] eqn:E;
      cbn [if_match]; [|split; assumption].
    assert (Hg : forall i, In i [1; 2; 3; 4] ->
                           forallb digit_char (chars (group m i)) = true).
    { intros i Hi. cbn [In] in Hi.
      destruct Hi as [<-|[<-|[<-|[<-|[]]]]];
        apply (re_search_clase digit_char no_flags AirE.patron_codigo_completo texto _ m);
        first [clase_de_grupo | discriminate | exact E]. }
    split.
    - repeat (apply map_Forall_insert_2; [|]); try exact Hbase.
      + apply (codigo_aire_digitos "96_completo"), Hg. cbn. auto.
      + apply (codigo_aire_digitos "3900_completo"), Hg. cbn. auto.
      + apply (codigo_aire_digitos "8020_completo"), Hg. cbn. auto.
      + apply (codigo_aire_digitos "415_completo"), Hg. cbn. auto.
    - repeat (rewrite lookup_insert_ne by discriminate). exact Hb. }
  destruct Hc as [Hc1 Hc2].
  destruct (py_in diez_barras texto); cbn [negb].
  - split; [|apply lookup_insert_eq].
    apply map_Forall_insert_2; [|exact Hc1].
    exists "Si". split; [reflexivity|]. right. split; reflexivity.
  - split; assumption.
Qed.
